(** * Client Ack File Processor v4.2: a shallow embedding of the
    error-mapping and record-transformation engine

    The development follows [Client_Ack_File_Processor_v4.2.py]:
    [get_transaction_reason_text], [load_error_mapping_file],
    [apply_error_mapping] and [process_csv_file] (from the point where
    [pd.read_csv] has produced a frame), [generate_filename] and
    [log_email_activity].

    Modelling conventions.
    - A Python [str] is a [string] whose characters are the code points
      U+0000..U+00FF, one [ascii] per code point.
    - A cell of a frame read by [pd.read_csv] is a string, an integer, a
      boolean or the missing value NaN.  Floating-point cells other than NaN
      are not represented.  An empty field of the records file is read as
      NaN; the mapping table is read with [keep_default_na=False], so an
      empty field of the table is the empty string.
    - A [DataFrame] is a [RangeIndex] length and an ordered list of named
      columns, as pandas stores it; row [i] is the [i]-th entry of every
      column.  Column labels of a frame read from CSV are pairwise distinct.
    - Assigning strings into part of a numeric column turns the column
      into one of mixed cells and leaves the other entries as they are
      (pandas 1.x and 2.x).
    - [try]/[except] is an error monad; the Streamlit and logging calls only
      display text and are left out. *)

From Stdlib Require Import ZArith Ascii String.
From stdpp Require Import base option list strings pretty gmap.

Set Warnings "-clear-no-such-hyp".

Local Open Scope string_scope.
Local Open Scope list_scope.
Local Open Scope Z_scope.

(** ** Exceptions *)

Inductive exn : Type :=
  | ValueError
  | KeyError (label : string)
  | IndexError
  | TypeError.

Inductive result (A : Type) : Type :=
  | Ok (a : A)
  | Raise (e : exn).
Arguments Ok {A} a.
Arguments Raise {A} e.

#[global] Instance result_ret : MRet result := @Ok.
#[global] Instance result_bind : MBind result := λ A B f m,
  match m with
  | Ok a => f a
  | Raise e => Raise e
  end.
#[global] Instance result_fmap : FMap result := λ A B f m,
  match m with
  | Ok a => Ok (f a)
  | Raise e => Raise e
  end.

(** ** Python strings *)

Module PyStr.

Definition code (c : ascii) : N := Ascii.N_of_ascii c.

(** [str.isdecimal] on one character: category Nd, which in this range
    is '0'..'9'. *)
Definition char_isdecimal (c : ascii) : bool :=
  ((48 <=? code c) && (code c <=? 57))%N.

(** [str.isdigit] on one character: Numeric_Type Decimal or Digit, which
    in this range is '0'..'9' and the superscripts U+00B2, U+00B3,
    U+00B9. *)
Definition char_isdigit (c : ascii) : bool :=
  char_isdecimal c
  || (code c =? 178)%N || (code c =? 179)%N || (code c =? 185)%N.

(** [str.isspace] on one character: the controls U+0009..U+000D and
    U+001C..U+001F, the space, U+0085 and U+00A0. *)
Definition char_isspace (c : ascii) : bool :=
  ((9 <=? code c) && (code c <=? 13))%N
  || ((28 <=? code c) && (code c <=? 32))%N
  || (code c =? 133)%N || (code c =? 160)%N.

Fixpoint all_chars (p : ascii → bool) (s : string) : bool :=
  match s with
  | EmptyString => true
  | String c s' => p c && all_chars p s'
  end.

(** [s.isdigit()]: at least one character and all of them digits. *)
Definition isdigit (s : string) : bool :=
  match s with
  | EmptyString => false
  | _ => all_chars char_isdigit s
  end.

Definition isdecimal (s : string) : bool :=
  match s with
  | EmptyString => false
  | _ => all_chars char_isdecimal s
  end.

Fixpoint digits_value (acc : Z) (s : string) : Z :=
  match s with
  | EmptyString => acc
  | String c s' => digits_value (10 * acc + (Z.of_N (code c) - 48)) s'
  end.

(** [int(s)] on the strings that reach it in this program: they have
    passed [isdigit], so they carry no sign, blank or underscore, and
    [int] accepts them exactly when every character is a decimal digit.
    The length limit of recent interpreters (4300 digits) is not
    modelled. *)
Definition int (s : string) : result Z :=
  if isdecimal s then Ok (digits_value 0 s) else Raise ValueError.

(** [s.upper()] on one character of the ASCII range. Outside it the
    upper-case forms are either unchanged, non-ASCII, or "SS" (for
    U+00DF); none of them can produce the literals this program compares
    with ("TRUE", "COSIGN"), so those characters are left in place. *)
Definition char_upper (c : ascii) : ascii :=
  if ((97 <=? code c) && (code c <=? 122))%N
  then Ascii.ascii_of_N (code c - 32) else c.

Fixpoint upper (s : string) : string :=
  match s with
  | EmptyString => EmptyString
  | String c s' => String (char_upper c) (upper s')
  end.

Fixpoint lstrip (s : string) : string :=
  match s with
  | EmptyString => EmptyString
  | String c s' => if char_isspace c then lstrip s' else s
  end.

Fixpoint rstrip (s : string) : string :=
  match s with
  | EmptyString => EmptyString
  | String c s' =>
      match rstrip s' with
      | EmptyString => if char_isspace c then EmptyString else String c EmptyString
      | r => String c r
      end
  end.

(** [s.strip()] *)
Definition strip (s : string) : string := rstrip (lstrip s).

(** [re.sub("nan", "", s)]: every non-overlapping occurrence of the
    pattern, scanning from the left, is removed. *)
Fixpoint remove_nan (s : string) : string :=
  match s with
  | String "n" (String "a" (String "n" s')) => remove_nan s'
  | String c s' => String c (remove_nan s')
  | EmptyString => EmptyString
  end.

Definition eqb (s t : string) : bool := bool_decide (s = t).

End PyStr.

(** ** Cells *)

Inductive cell : Type :=
  | VStr (s : string)
  | VInt (z : Z)
  | VBool (b : bool)
  | VNaN.

#[global] Instance cell_eq_dec : EqDecision cell.
Proof. solve_decision. Defined.

(** [str(v)], which is also what [astype(str)] does to one cell. *)
Definition str (v : cell) : string :=
  match v with
  | VStr s => s
  | VInt z => pretty z
  | VBool true => "True"
  | VBool false => "False"
  | VNaN => "nan"
  end.

(** [int(v)] *)
Definition int (v : cell) : result Z :=
  match v with
  | VStr s => PyStr.int s
  | VInt z => Ok z
  | VBool b => Ok (Z.b2z b)
  | VNaN => Raise ValueError
  end.

(** ** Reason Code Translator: [get_transaction_reason_text] *)

Definition code_map : gmap Z string :=
  <[5 := "Sales"]> (<[3 := "Cancels"]> (<[2 := "Payments"]> (<[1 := "Sales"]> ∅))).

(** [code_map.get(key, default)]. Keys are compared as Python compares
    them: an integer and a boolean are equal when their values are
    ([True == 1]), a string or NaN equals no integer key. *)
Definition code_map_get (key : cell) (dflt : string) : string :=
  match key with
  | VInt z => default dflt (code_map !! z)
  | VBool b => default dflt (code_map !! Z.b2z b)
  | VStr _ | VNaN => dflt
  end.

Definition get_transaction_reason_text (code : cell) : result string :=
  key ← (if PyStr.isdigit (str code) then VInt <$> int code else Ok code);
  Ok (code_map_get key (str code)).


(** ** Frames *)

(** [index] is the length of the frame's index; [data] holds the columns
    in their order, each with its label. *)
Record DataFrame (A : Type) : Type := mkDataFrame {
  index : nat;
  data : list (string * list A)
}.
Arguments mkDataFrame {A} index data.
Arguments index {A} d.
Arguments data {A} d.

(** Python's [list.insert(i, x)], also the position rule of
    [DataFrame.insert]. *)
Definition insert_at {B : Type} (i : nat) (x : B) (l : list B) : list B :=
  take i l ++ x :: drop i l.

(** [mask.any()] *)
Definition mask_any (mask : list bool) : bool := foldr orb false mask.

(** [m1 & m2] and [~m] on boolean series of one frame. *)
Definition mask_and (m1 m2 : list bool) : list bool := zip_with andb m1 m2.
Definition mask_or (m1 m2 : list bool) : list bool := zip_with orb m1 m2.
Definition mask_not (m : list bool) : list bool := negb <$> m.

(** [series[mask]]: the entries at the positions where the mask holds. *)
Fixpoint filter_mask {B : Type} (mask : list bool) (s : list B) : list B :=
  match mask, s with
  | true :: mask', x :: s' => x :: filter_mask mask' s'
  | false :: mask', _ :: s' => filter_mask mask' s'
  | _, _ => []
  end.

(** The effect of [df.loc[mask, col] = new] on the column [old]: where the
    mask holds the entry is taken from [new], elsewhere it stays. *)
Fixpoint where_ {B : Type} (mask : list bool) (new old : list B) : list B :=
  match old with
  | [] => []
  | o :: old' =>
      (if hd false mask then default o (head new) else o)
      :: where_ (tail mask) (tail new) old'
  end.

(** [series.unique()]: first occurrences, in order of appearance. *)
Definition unique {B : Type} `{EqDecision B} (l : list B) : list B :=
  foldl (λ acc x, if decide (x ∈ acc) then acc else acc ++ [x]) [] l.

(** [dict(pairs)]: the pairs are inserted in order, so later pairs
    overwrite earlier ones. *)
Definition dict_of_pairs {V : Type} (l : list (string * V)) : gmap string V :=
  foldl (λ m kv, <[kv.1 := kv.2]> m) ∅ l.

(** [dict(zip(ks, vs))] *)
Definition dict_zip {V : Type} (ks : list string) (vs : list V) : gmap string V :=
  dict_of_pairs (zip ks vs).

Section Frame.
Context {A : Type}.

Definition columns (df : DataFrame A) : list string := (data df).*1.

(** [c in df.columns] *)
Definition has_col (c : string) (df : DataFrame A) : bool :=
  bool_decide (c ∈ columns df).

Fixpoint assoc_get (c : string) (l : list (string * list A)) : option (list A) :=
  match l with
  | [] => None
  | (c', s) :: l' => if decide (c = c') then Some s else assoc_get c l'
  end.

(** [df[c]] *)
Definition get_col (c : string) (df : DataFrame A) : result (list A) :=
  match assoc_get c (data df) with
  | Some s => Ok s
  | None => Raise (KeyError c)
  end.

Fixpoint assoc_set (c : string) (s : list A) (l : list (string * list A))
  : list (string * list A) :=
  match l with
  | [] => [(c, s)]
  | (c', s') :: l' =>
      if decide (c = c') then (c, s) :: l' else (c', s') :: assoc_set c s l'
  end.

(** [df[c] = series]: an existing column is replaced where it stands, a
    new one is appended. *)
Definition set_col (c : string) (s : list A) (df : DataFrame A) : DataFrame A :=
  mkDataFrame (index df) (assoc_set c s (data df)).

(** [df[c] = scalar] *)
Definition set_scalar (c : string) (v : A) (df : DataFrame A) : DataFrame A :=
  set_col c (replicate (index df) v) df.

(** [df.columns.get_loc(c)] for a column that exists. *)
Fixpoint assoc_loc (c : string) (l : list (string * list A)) : nat :=
  match l with
  | [] => O
  | (c', _) :: l' => if decide (c = c') then O else S (assoc_loc c l')
  end.
Definition get_loc (c : string) (df : DataFrame A) : nat := assoc_loc c (data df).

(** [df.insert(loc, c, scalar)], called only when [c] is not a column. *)
Definition insert_col (loc : nat) (c : string) (v : A) (df : DataFrame A)
  : DataFrame A :=
  mkDataFrame (index df) (insert_at loc (c, replicate (index df) v) (data df)).

(** [df.drop(columns=names)], called only with labels that exist. *)
Definition drop_cols (names : list string) (df : DataFrame A) : DataFrame A :=
  mkDataFrame (index df) (filter (λ p, p.1 ∉ names) (data df)).

(** [df[cols]] with a list of labels. *)
Definition select (cols : list string) (df : DataFrame A) : result (DataFrame A) :=
  d ← mapM (λ c, s ← get_col c df; Ok (c, s)) cols;
  Ok (mkDataFrame (index df) d).

(** [df.loc[mask, c] = new] for an existing column [c]. *)
Definition loc_set (mask : list bool) (c : string) (new : list A)
    (df : DataFrame A) : result (DataFrame A) :=
  old ← get_col c df;
  Ok (set_col c (where_ mask new old) df).

(** [df[mask]]: the rows where the mask holds. *)
Definition filter_rows (mask : list bool) (df : DataFrame A) : DataFrame A :=
  mkDataFrame (length (filter_mask mask (seq 0 (index df))))
              ((λ p, (p.1, filter_mask mask p.2)) <$> data df).

(** The rows of a frame, each as the list of its cells in column order. *)
Definition row (df : DataFrame A) (i : nat) : list (option A) :=
  (λ p, p.2 !! i) <$> data df.
Definition rows (df : DataFrame A) : list (list (option A)) :=
  row df <$> seq 0 (index df).

(** The cell of column [c] in row [i]. *)
Definition cell_at (df : DataFrame A) (c : string) (i : nat) : option A :=
  assoc_get c (data df) ≫= (.!! i).

(** Every column has one entry per index label. *)
Definition wf (df : DataFrame A) : Prop :=
  Forall (λ p, length p.2 = index df) (data df).

End Frame.

(** A function applied to every cell of a frame. *)
Definition map_cells {A B : Type} (f : A → B) (df : DataFrame A) : DataFrame B :=
  mkDataFrame (index df) ((λ p : string * list A, (p.1, f <$> p.2)) <$> data df).

(** The mask of [df.drop_duplicates()]: a row is kept when no earlier row
    equals it in every column. *)
Fixpoint first_occurrences {B : Type} `{EqDecision B} (seen l : list B) : list bool :=
  match l with
  | [] => []
  | x :: l' =>
      if decide (x ∈ seen) then false :: first_occurrences seen l'
      else true :: first_occurrences (x :: seen) l'
  end.

Definition drop_duplicates {A : Type} `{EqDecision A} (df : DataFrame A) : DataFrame A :=
  filter_rows (first_occurrences [] (rows df)) df.

(** ** Series operations on cells *)

(** [series.astype(str).str.upper() == lit] *)
Definition upper_eq (lit : string) (s : list cell) : list bool :=
  (λ v, PyStr.eqb (PyStr.upper (str v)) lit) <$> s.

(** One entry of [series.map(d)] for a dict keyed by strings: a cell that
    is no key of [d] gives NaN. *)
Definition map_dict1 (d : gmap string string) (v : cell) : cell :=
  match v with
  | VStr k => match d !! k with Some x => VStr x | None => VNaN end
  | _ => VNaN
  end.
Definition map_dict (d : gmap string string) (s : list cell) : list cell :=
  map_dict1 d <$> s.

(** One entry of [series.isin(d.keys())]. *)
Definition isin1 (d : gmap string string) (v : cell) : bool :=
  match v with
  | VStr k => bool_decide (is_Some (d !! k))
  | _ => false
  end.
Definition isin (d : gmap string string) (s : list cell) : list bool :=
  isin1 d <$> s.

(** [series.fillna(v)] *)
Definition fillna1 (v x : cell) : cell :=
  match x with VNaN => v | _ => x end.
Definition fillna (v : cell) (s : list cell) : list cell := fillna1 v <$> s.

(** [mask.sum()] *)
Definition mask_sum (mask : list bool) : nat :=
  foldr (λ (b : bool) n, if b then S n else n) O mask.

(** [sep.join(items)]: fails on an item that is not a string. *)
Definition join (sep : string) (items : list cell) : result string :=
  strs ← mapM (λ v, match v with VStr s => Ok s | _ => Raise TypeError end) items;
  Ok (String.concat sep strs).

(** ** Column labels *)

Definition TRANSFER_FLAG_COL := "Transfer_Flag".
Definition JOB_RUN_REGISTRATION_COL := "job_run_registration".
Definition INCOMING_RECORD_GUID_COL := "incoming_record_guid".
Definition ERROR_UPDATE_DATETIME_COL := "Error_Update_Datetime".
Definition IS_IPAY_COL := "is_ipay".
Definition ERROR_JOB_RUN_COL := "Error_Job_Run".
Definition ERROR_SOURCE_COL := "Error_Source".
Definition GENESIS_JOB_RUN_COL := "Genesis_Job_Run".
Definition STANDARD_JOB_RUN_COL := "Standard_Job_Run".
Definition ORIGINAL_CONTRACT_NUMBER_COL := "Original_Contract_Number".
Definition SOURCE_FILENAME_COL := "Source_Filename".
Definition INCOMING_CLIENT_FILENAME_COL := "incoming_client_filename".
Definition CLIENT_ACTION_COL := "Client_Action".
Definition ERROR_MESSAGE_COL := "Error_Message".
Definition ERROR_TYPE_COL := "Error_Type".
Definition TRANSACTION_REASON_COL := "Transaction_Reason".
Definition IS_ERROR_COL := "isError".
Definition CUSTOMER_FIRST_NAME_COL := "Customer_First_Name".
Definition CUSTOMER_ADDRESS_1_COL := "Customer_Address_1".
Definition CUSTOMER_CITY_COL := "Customer_City".
Definition CUSTOMER_STATE_COL := "Customer_State".
Definition CUSTOMER_ZIP_CODE_COL := "Customer_Zip_Code".
Definition CUSTOMER_PHONE_COL := "Customer_Phone".
Definition CUSTOMER_EMAIL_COL := "Customer_Email".
Definition AGENT_NUMBER_COL := "Agent_Number".
Definition PROPERTY_ADDRESS_COL := "Property_Address".
Definition PROPERTY_CITY_COL := "Property_City".
Definition PROPERTY_STATE_CODE_COL := "Property_State_Code".
Definition PROPERTY_ZIP_COL := "Property_Zip".

Definition COSIGN_PII_COLUMNS : list string :=
  [PROPERTY_ADDRESS_COL; PROPERTY_CITY_COL; PROPERTY_STATE_CODE_COL; PROPERTY_ZIP_COL].

Definition CSV_EXTENSION := ".csv".

(** ** Mapping Table Loader: [load_error_mapping_file]

    The argument is the frame that
    [pd.read_csv(uploaded_file, dtype=str, keep_default_na=False)] returns:
    every cell is a string. The result is [None] where the source returns
    [None]. *)

Definition required_cols : list string :=
  ["Error_Type"; "Client_Error_Type"; "Client Action"].

(** The loop that strips the key columns. *)
Definition strip_columns (cols : list string) (mapping_df : DataFrame string)
  : result (DataFrame string) :=
  foldl (λ acc col,
           mapping_df ← acc;
           if has_col col mapping_df then
             s ← get_col col mapping_df;
             Ok (set_col col (PyStr.strip <$> s) mapping_df)
           else Ok mapping_df)
        (Ok mapping_df) cols.

Definition load_error_mapping_try (mapping_df : DataFrame string)
  : result (option (DataFrame string)) :=
  let missing_cols := filter (λ col, col ∉ columns mapping_df) required_cols in
  if bool_decide (missing_cols ≠ []) then Ok None else
  error_type ← get_col "Error_Type" mapping_df;
  let mapping_df :=
    filter_rows ((λ s, negb (PyStr.eqb (PyStr.strip s) "")) <$> error_type) mapping_df in
  let mapping_df := drop_duplicates mapping_df in
  mapping_df ←
    strip_columns ["Error_Type"; "Client_Error_Type"; "Client Action"; "file_type_2"]
                  mapping_df;
  Ok (Some mapping_df).

Definition load_error_mapping_file (mapping_df : DataFrame string)
  : option (DataFrame string) :=
  match load_error_mapping_try mapping_df with
  | Ok r => r
  | Raise _ => None
  end.

(** ** Error Mapping Engine: [apply_error_mapping] *)

Abbreviation dict := (gmap string string).

(** What strategy 1 leaves behind: the two frames, and the names it binds
    only when it runs ([None]: "not in [locals()]"). *)
Record tier1 : Type := mkTier1 {
  t1_result_df : DataFrame cell;
  t1_mapping_df_clean : DataFrame string;
  t1_composite_error_mapping : option dict;
  t1_composite_action_mapping : option dict;
  t1_error_mask : option (list bool);
  t1_applied : nat
}.

Record tier2 : Type := mkTier2 {
  t2_result_df : DataFrame cell;
  t2_simple_error_mapping : option dict;
  t2_simple_action_mapping : option dict;
  t2_simple_match_mask : option (list bool);
  t2_applied : nat
}.

(** The names bound when the body reaches its last line. *)
Record locals : Type := mkLocals {
  result_df : DataFrame cell;
  mapping_df_clean : DataFrame string;
  error_rows : list bool;
  composite_error_mapping : option dict;
  composite_action_mapping : option dict;
  error_mask : option (list bool);
  remaining_errors : list bool;
  simple_error_mapping : option dict;
  simple_action_mapping : option dict;
  simple_match_mask : option (list bool);
  mappings_applied : nat;
  unmatched_errors : list cell
}.

(** How a run of the body ends when it does not raise: at one of the two
    early returns, or at the last line. *)
Inductive run : Type :=
  | Skipped (df : DataFrame cell)
  | Mapped (l : locals).

(** "Convert Transaction_Reason to text format for matching" *)
Definition convert_reason (result_df : DataFrame cell) : result (DataFrame cell) :=
  if has_col TRANSACTION_REASON_COL result_df then
    reason ← get_col TRANSACTION_REASON_COL result_df;
    text ← mapM get_transaction_reason_text reason;
    Ok (set_col "Transaction_Reason_Text" (VStr <$> text) result_df)
  else Ok result_df.

(** [a + "|" + b] on two strings. *)
Definition composite_key_of (a b : string) : string := a +:+ "|" +:+ b.

(** [mapping_df_clean["Error_Type"].astype(str) + "|"
     + mapping_df_clean["file_type_2"].astype(str)] *)
Definition mapping_composite_keys (mapping_df_clean : DataFrame string)
  : result (list string) :=
  error_type ← get_col "Error_Type" mapping_df_clean;
  file_type_2 ← get_col "file_type_2" mapping_df_clean;
  Ok (zip_with composite_key_of error_type file_type_2).

(** [result_df[ERROR_TYPE_COL].astype(str) + "|"
     + result_df["Transaction_Reason_Text"].astype(str)] *)
Definition record_composite_keys (result_df : DataFrame cell) : result (list cell) :=
  error_type ← get_col ERROR_TYPE_COL result_df;
  reason_text ← get_col "Transaction_Reason_Text" result_df;
  Ok (zip_with (λ a b, VStr (composite_key_of (str a) (str b))) error_type reason_text).

(** [dict(zip(mapping_df_clean[key_col], mapping_df_clean[value_col]))] *)
Definition mapping_dict (key_col value_col : string) (mapping_df_clean : DataFrame string)
  : result dict :=
  keys ← get_col key_col mapping_df_clean;
  values ← get_col value_col mapping_df_clean;
  Ok (dict_zip keys values).

(** The two assignments under [if mask.any()], the same in both
    strategies but for the column the keys are read from: [Error_Type] is
    rewritten first, then [Client_Action] from the keys re-read after that
    assignment. *)
Definition rewrite_matched (mask : list bool) (key_col : string)
    (error_mapping action_mapping : dict) (result_df : DataFrame cell)
  : result (DataFrame cell) :=
  keys ← get_col key_col result_df;
  result_df ← loc_set mask ERROR_TYPE_COL (map_dict error_mapping keys) result_df;
  if has_col CLIENT_ACTION_COL result_df then
    keys ← get_col key_col result_df;
    loc_set mask CLIENT_ACTION_COL
      (fillna (VStr "") (map_dict action_mapping keys)) result_df
  else Ok result_df.

(** "Strategy 1: Match on Error_Type AND file_type_2" *)
Definition strategy1 (result_df : DataFrame cell) (mapping_df_clean : DataFrame string)
    (error_rows : list bool) : result tier1 :=
  if has_col "Transaction_Reason_Text" result_df
     && has_col "file_type_2" mapping_df_clean then
    mapping_keys ← mapping_composite_keys mapping_df_clean;
    let mapping_df_clean := set_col "composite_key" mapping_keys mapping_df_clean in
    record_keys ← record_composite_keys result_df;
    let result_df := set_col "composite_key" record_keys result_df in
    composite_error_mapping ←
      mapping_dict "composite_key" "Client_Error_Type" mapping_df_clean;
    composite_action_mapping ←
      mapping_dict "composite_key" "Client Action" mapping_df_clean;
    composite_key ← get_col "composite_key" result_df;
    let error_mask := mask_and error_rows (isin composite_error_mapping composite_key) in
    if mask_any error_mask then
      result_df ← rewrite_matched error_mask "composite_key"
                    composite_error_mapping composite_action_mapping result_df;
      Ok (mkTier1 result_df mapping_df_clean (Some composite_error_mapping)
            (Some composite_action_mapping) (Some error_mask) (mask_sum error_mask))
    else
      Ok (mkTier1 result_df mapping_df_clean (Some composite_error_mapping)
            (Some composite_action_mapping) (Some error_mask) O)
  else Ok (mkTier1 result_df mapping_df_clean None None None O).

(** [error_rows & ~result_df.index.isin(...)]: with the labels of a
    [RangeIndex], a label is among those of [result_df[error_mask]] exactly
    when the mask holds at its position; the empty list contains none. *)
Definition remaining_of (result_df : DataFrame cell) (error_rows : list bool)
    (error_mask : option (list bool)) : list bool :=
  mask_and error_rows
    (mask_not (match error_mask with
               | Some m => m
               | None => replicate (index result_df) false
               end)).

(** "Strategy 2: For remaining unmapped errors, try Error_Type only
    matching" *)
Definition strategy2 (result_df : DataFrame cell) (mapping_df_clean : DataFrame string)
    (remaining_errors : list bool) : result tier2 :=
  if mask_any remaining_errors then
    simple_error_mapping ← mapping_dict "Error_Type" "Client_Error_Type" mapping_df_clean;
    simple_action_mapping ← mapping_dict "Error_Type" "Client Action" mapping_df_clean;
    error_type ← get_col ERROR_TYPE_COL result_df;
    let simple_match_mask :=
      mask_and remaining_errors (isin simple_error_mapping error_type) in
    if mask_any simple_match_mask then
      result_df ← rewrite_matched simple_match_mask ERROR_TYPE_COL
                    simple_error_mapping simple_action_mapping result_df;
      Ok (mkTier2 result_df (Some simple_error_mapping) (Some simple_action_mapping)
            (Some simple_match_mask) (mask_sum simple_match_mask))
    else
      Ok (mkTier2 result_df (Some simple_error_mapping) (Some simple_action_mapping)
            (Some simple_match_mask) O)
  else Ok (mkTier2 result_df None None None O).

(** "Identify unmatched errors for reporting" *)
Definition unmatched_mask_of (result_df : DataFrame cell) (error_rows : list bool)
    (error_mask simple_match_mask : option (list bool)) : list bool :=
  let none := replicate (index result_df) false in
  let all_matched_mask :=
    mask_or (default none error_mask) (default none simple_match_mask) in
  mask_and error_rows (mask_not all_matched_mask).

Definition unmatched_of (result_df : DataFrame cell) (unmatched_mask : list bool)
  : result (list cell) :=
  if mask_any unmatched_mask then
    error_type ← get_col ERROR_TYPE_COL result_df;
    Ok (unique (filter_mask unmatched_mask error_type))
  else Ok [].

(** "Clean up temporary columns" *)
Definition cleanup (result_df : DataFrame cell) : DataFrame cell :=
  let result_df :=
    if has_col "composite_key" result_df
    then drop_cols ["composite_key"] result_df else result_df in
  if has_col "Transaction_Reason_Text" result_df
  then drop_cols ["Transaction_Reason_Text"] result_df else result_df.

(** The text of the warning about unmapped error types (without its
    leading symbol); building it joins the first ten of them. *)
Definition unmapped_warning (unmatched_errors : list cell) : result (option string) :=
  match unmatched_errors with
  | [] => Ok None
  | _ =>
      shown ← join ", " (take 10 unmatched_errors);
      Ok (Some ("Unmapped Error Types: " +:+ shown
                +:+ (if bool_decide (10 < length unmatched_errors)%nat
                     then "..." else "")))
  end.

(** The body of the [try] block. *)
Definition apply_error_mapping_body (ack_df : DataFrame cell)
    (mapping_df : DataFrame string) : result run :=
  let result_df := ack_df in
  let missing_ack_cols :=
    filter (λ col, col ∉ columns result_df) [ERROR_TYPE_COL; IS_ERROR_COL] in
  if bool_decide (missing_ack_cols ≠ []) then Ok (Skipped result_df) else
  is_error ← get_col IS_ERROR_COL result_df;
  let error_rows := upper_eq "TRUE" is_error in
  if negb (mask_any error_rows) then Ok (Skipped result_df) else
  result_df ← convert_reason result_df;
  let mapping_df_clean := mapping_df in
  t1 ← strategy1 result_df mapping_df_clean error_rows;
  let remaining_errors :=
    remaining_of (t1_result_df t1) error_rows (t1_error_mask t1) in
  t2 ← strategy2 (t1_result_df t1) (t1_mapping_df_clean t1) remaining_errors;
  let unmatched_mask :=
    unmatched_mask_of (t2_result_df t2) error_rows
      (t1_error_mask t1) (t2_simple_match_mask t2) in
  unmatched_errors ← unmatched_of (t2_result_df t2) unmatched_mask;
  let result_df := cleanup (t2_result_df t2) in
  _ ← unmapped_warning unmatched_errors;
  Ok (Mapped (mkLocals result_df (t1_mapping_df_clean t1) error_rows
                (t1_composite_error_mapping t1) (t1_composite_action_mapping t1)
                (t1_error_mask t1) remaining_errors
                (t2_simple_error_mapping t2) (t2_simple_action_mapping t2)
                (t2_simple_match_mask t2)
                (t1_applied t1 + t2_applied t2)%nat unmatched_errors)).

(** [apply_error_mapping]: the frame the body returns, or, when the body
    raised, the frame that was passed in. *)
Definition apply_error_mapping (ack_df : DataFrame cell) (mapping_df : DataFrame string)
  : DataFrame cell :=
  match apply_error_mapping_body ack_df mapping_df with
  | Ok (Skipped df) => df
  | Ok (Mapped l) => result_df l
  | Raise _ => ack_df
  end.

(** ** Record Transform Pipeline: [process_csv_file]

    The argument [df] is the frame [pd.read_csv(uploaded_file)] returned;
    reading and parsing the upload are outside the model. *)

Record config : Type := mkConfig {
  global_source_filename : string;
  remove_pii : bool;
  error_mapping_df : option (DataFrame string)
}.

(** [df[col] = df[col].astype(str)] *)
Definition astype_str_col (col : string) (df : DataFrame cell) : result (DataFrame cell) :=
  s ← get_col col df;
  Ok (set_col col (VStr ∘ str <$> s) df).

(** [df.empty] and [not df.columns.any()] *)
Definition validate (df : DataFrame cell) : result unit :=
  if bool_decide (index df = O ∨ data df = []) then Raise ValueError
  else if negb (mask_any ((λ c, negb (PyStr.eqb c "")) <$> columns df))
       then Raise ValueError
       else Ok ().

Definition columns_to_drop_general : list string :=
  [TRANSFER_FLAG_COL; JOB_RUN_REGISTRATION_COL; INCOMING_RECORD_GUID_COL;
   IS_IPAY_COL; ERROR_JOB_RUN_COL; ERROR_SOURCE_COL; ERROR_UPDATE_DATETIME_COL;
   GENESIS_JOB_RUN_COL; STANDARD_JOB_RUN_COL].

(** "Initial Column Dropping (General and Universal)" *)
Definition drop_general (df : DataFrame cell) : DataFrame cell :=
  let existing_cols_to_drop_general :=
    filter (λ col, col ∈ columns df) columns_to_drop_general in
  if bool_decide (existing_cols_to_drop_general ≠ [])
  then drop_cols existing_cols_to_drop_general df
  else df.

Definition desired_source_filename (global_source_filename : string) : string :=
  if bool_decide (global_source_filename ≠ "")
  then global_source_filename +:+ CSV_EXTENSION
  else "".

(** "Handle Source_Filename column" *)
Definition handle_source_filename (global_source_filename : string)
    (df : DataFrame cell) : DataFrame cell :=
  let desired := VStr (desired_source_filename global_source_filename) in
  if negb (has_col SOURCE_FILENAME_COL df) then
    let insert_after_col := ORIGINAL_CONTRACT_NUMBER_COL in
    if has_col insert_after_col df then
      let insert_index := (get_loc insert_after_col df + 1)%nat in
      insert_col insert_index SOURCE_FILENAME_COL desired df
    else set_scalar SOURCE_FILENAME_COL desired df
  else set_scalar SOURCE_FILENAME_COL desired df.

(** The loop over [COSIGN_PII_COLUMNS]. *)
Definition cosign_clear_pii (cosign_mask : list bool) (df : DataFrame cell)
  : result (DataFrame cell) :=
  foldl (λ acc col,
           df ← acc;
           if has_col col df then
             df ← astype_str_col col df;
             loc_set cosign_mask col (replicate (index df) (VStr "")) df
           else Ok df)
        (Ok df) COSIGN_PII_COLUMNS.

(** [cols.pop(i)] *)
Definition pop {B : Type} (i : nat) (l : list B) : result (B * list B) :=
  match l !! i with
  | Some x => Ok (x, delete i l)
  | None => Raise IndexError
  end.

(** "COSIGN-specific Column Reordering" *)
Definition cosign_reorder (df : DataFrame cell) : result (DataFrame cell) :=
  if has_col SOURCE_FILENAME_COL df && has_col INCOMING_CLIENT_FILENAME_COL df then
    let source_filename_idx := get_loc SOURCE_FILENAME_COL df in
    let incoming_client_filename_idx := get_loc INCOMING_CLIENT_FILENAME_COL df in
    if bool_decide (incoming_client_filename_idx < source_filename_idx)%nat then
      let cols := columns df in
      '(source_filename_col_data, cols) ← pop source_filename_idx cols;
      let cols := insert_at incoming_client_filename_idx source_filename_col_data cols in
      select cols df
    else Ok df
  else Ok df.

(** "COSIGN Specific Processing" *)
Definition cosign_step (df : DataFrame cell) : result (DataFrame cell) :=
  if has_col AGENT_NUMBER_COL df then
    agent ← get_col AGENT_NUMBER_COL df;
    if bool_decide ("COSIGN" ∈ unique (PyStr.upper ∘ str <$> agent)) then
      agent ← get_col AGENT_NUMBER_COL df;
      let cosign_mask := upper_eq "COSIGN" agent in
      df ← cosign_clear_pii cosign_mask df;
      cosign_reorder df
    else Ok df
  else Ok df.

(** "Handle Client_Action column" *)
Definition handle_client_action (df : DataFrame cell) : DataFrame cell :=
  if negb (has_col CLIENT_ACTION_COL df) then
    if has_col ERROR_MESSAGE_COL df then
      let insert_index := (get_loc ERROR_MESSAGE_COL df + 1)%nat in
      insert_col insert_index CLIENT_ACTION_COL (VStr "") df
    else set_scalar CLIENT_ACTION_COL (VStr "") df
  else df.

Definition pii_columns_customer : list string :=
  [CUSTOMER_FIRST_NAME_COL; CUSTOMER_ADDRESS_1_COL; CUSTOMER_CITY_COL;
   CUSTOMER_STATE_COL; CUSTOMER_ZIP_CODE_COL; CUSTOMER_PHONE_COL;
   CUSTOMER_EMAIL_COL].

(** "General PII removal" *)
Definition remove_customer_pii (df : DataFrame cell) : result (DataFrame cell) :=
  let existing_pii_columns_customer :=
    filter (λ col, col ∈ columns df) pii_columns_customer in
  foldl (λ acc col,
           df ← acc;
           df ← astype_str_col col df;
           Ok (set_scalar col (VStr "") df))
        (Ok df) existing_pii_columns_customer.

(** "Cast all columns to string": every column, in turn, is replaced by
    its [astype(str)]. *)
Definition cast_all (df : DataFrame cell) : DataFrame cell :=
  map_cells (VStr ∘ str) df.

(** One cell under [df.replace("nan", "", regex=True)]: in a string cell
    every match of the pattern is replaced, other cells are kept. *)
Definition replace_nan1 (v : cell) : cell :=
  match v with
  | VStr s => VStr (PyStr.remove_nan s)
  | _ => v
  end.
Definition replace_nan (df : DataFrame cell) : DataFrame cell :=
  map_cells replace_nan1 df.

Definition process_csv_file (df : DataFrame cell) (cfg : config)
  : result (DataFrame cell) :=
  _ ← validate df;
  let df := drop_general df in
  let df := handle_source_filename (global_source_filename cfg) df in
  df ← cosign_step df;
  let df := handle_client_action df in
  let df :=
    match error_mapping_df cfg with
    | Some mapping => apply_error_mapping df mapping
    | None => df
    end in
  df ← (if remove_pii cfg then remove_customer_pii df else Ok df);
  let df := cast_all df in
  let df := replace_nan df in
  Ok df.

(** ** Output file name: [generate_filename] *)

(** [series.dropna()] *)
Definition dropna (s : list cell) : list cell := filter (λ v, v ≠ VNaN) s.

Definition generate_filename (df : DataFrame cell)
    (output_year output_month uploaded_file_name : string) : result string :=
  agent_number ←
    (if has_col AGENT_NUMBER_COL df then
       agent ← get_col AGENT_NUMBER_COL df;
       if bool_decide (dropna agent ≠ []) then
         Ok (Some (String.concat "_"
                     (filter (λ s, s ≠ "") (PyStr.strip ∘ str <$> unique agent))))
       else Ok None
     else Ok None);
  transaction_reason_text ←
    (if has_col TRANSACTION_REASON_COL df then
       reason ← get_col TRANSACTION_REASON_COL df;
       if bool_decide (dropna reason ≠ []) then
         let unique_reasons := unique reason in
         transaction_reasons ←
           mapM get_transaction_reason_text
                (filter (λ reason, PyStr.strip (str reason) ≠ "") unique_reasons);
         let transaction_reasons := unique transaction_reasons in
         Ok (Some (String.concat "_" transaction_reasons))
       else Ok None
     else Ok None);
  let by_name :=
    "Ack_processed_" +:+ output_year +:+ "_" +:+ output_month +:+ "_"
    +:+ uploaded_file_name in
  match agent_number, transaction_reason_text with
  | Some agent_number, Some transaction_reason_text =>
      if bool_decide (agent_number ≠ "") && bool_decide (transaction_reason_text ≠ "")
      then Ok ("Ack_" +:+ agent_number +:+ "_" +:+ output_year +:+ "_"
               +:+ output_month +:+ "_" +:+ transaction_reason_text
               +:+ CSV_EXTENSION)
      else Ok by_name
  | _, _ => Ok by_name
  end.

(** ** Email log: [log_email_activity]

    The clock and the log file are outside the function: [current_date] is
    the text [datetime.now().strftime(...)] gave, [existing] is what
    [pd.read_csv(log_file)] did, and [write_ok] tells whether
    [to_csv(log_file)] returned.  The result is the frame written to the
    log file, if one was, and the boolean the function returns. *)

Definition column_order : list string :=
  ["Recipients"; "Agent"; "Date"; "Subject"; "Email_Status"].

Inductive read_outcome : Type :=
  | FileNotFound
  | ReadRaises
  | ReadOk (existing_log : DataFrame cell).

(** The dict built for one agent, keys in insertion order. *)
Definition log_entry (recipients : option (list string)) (subject current_date : string)
    (email_sent : bool) (agent : cell) : list (string * cell) :=
  [("Recipients", VStr (match recipients with
                        | Some (r :: rs) => String.concat "; " (r :: rs)
                        | _ => ""
                        end));
   ("Agent", agent);
   ("Date", VStr current_date);
   ("Subject", VStr subject);
   ("Email_Status", VStr (if email_sent then "Sent" else "Failed"))].

(** [pd.DataFrame(records)] for dicts that all have the keys of the first:
    one column per key, one row per dict; no column for an empty list. *)
Definition frame_of_records (records : list (list (string * cell))) : DataFrame cell :=
  mkDataFrame (length records)
    (match records with
     | [] => []
     | first :: _ =>
         (λ key, (key, (λ r : list (string * cell),
                          default VNaN ((λ p, p.2.2) <$> list_find (λ p, p.1 = key) r))
                       <$> records)) <$> first.*1
     end).

(** [pd.concat([a, b], ignore_index=True)] for two frames with the same
    labels in the same order. *)
Definition concat (a b : DataFrame cell) : DataFrame cell :=
  mkDataFrame (index a + index b)
    ((λ p : string * list cell,
        (p.1, p.2 ++ default (replicate (index b) VNaN) (assoc_get p.1 (data b))))
       <$> data a).

Definition log_email_activity (agent_numbers : list cell) (email_sent : bool)
    (recipients : option (list string)) (subject current_date : string)
    (existing : read_outcome) (write_ok : bool)
  : option (DataFrame cell) * bool :=
  let attempt : result (DataFrame cell) :=
    let log_entries :=
      log_entry recipients subject current_date email_sent <$> agent_numbers in
    let new_log_data := frame_of_records log_entries in
    new_log_data ← select column_order new_log_data;
    match existing with
    | ReadOk existing_log =>
        if bool_decide (list_to_set (columns existing_log)
                        ≠@{gset string} list_to_set column_order)
        then Ok new_log_data
        else
          existing_log ← select column_order existing_log;
          Ok (concat existing_log new_log_data)
    | FileNotFound => Ok new_log_data
    | ReadRaises => Raise ValueError (* any exception but FileNotFoundError *)
    end in
  match attempt with
  | Ok combined_log => if write_ok then (Some combined_log, true) else (None, false)
  | Raise _ => (None, false)
  end.

(** ** Vocabulary of the statements *)

(** The columns the engine creates for key computation. *)
Definition transient_cols : list string := ["composite_key"; "Transaction_Reason_Text"].

(** Row [i] is an error row: its [isError], as text and in upper case,
    is "TRUE". *)
Definition is_error_row (df : DataFrame cell) (i : nat) : Prop :=
  ∃ v, cell_at df IS_ERROR_COL i = Some v ∧ PyStr.upper (str v) = "TRUE".

(** Two series agree at every position where the mask does not hold. *)
Definition agree_off (mask : list bool) (s s' : list cell) : Prop :=
  ∀ i, mask !! i ≠ Some true → s !! i = s' !! i.

(** The reason text the engine computes for row [i]: the translation of
    [Transaction_Reason], or, in a frame without that column, the text of
    the [Transaction_Reason_Text] cell it finds. *)
Definition reason_text_at (ack_df : DataFrame cell) (i : nat) : option string :=
  if has_col TRANSACTION_REASON_COL ack_df then
    cell_at ack_df TRANSACTION_REASON_COL i ≫= λ r,
      match get_transaction_reason_text r with
      | Ok t => Some t
      | Raise _ => None
      end
  else str <$> cell_at ack_df "Transaction_Reason_Text" i.


(** Row [i] was matched by strategy 1. *)
Definition tier1_matched (l : locals) (i : nat) : Prop :=
  ∃ m1, error_mask l = Some m1 ∧ m1 !! i = Some true.

(** The column order [l'] keeps the order of [l]: the labels the two
    lists share come in the same order in both. *)
Definition order_kept (l l' : list string) : Prop :=
  filter (λ c, c ∈ l) l' = filter (λ c, c ∈ l') l.

(** The columns some step of the pipeline may drop, create or write. *)
Definition touched_cols : list string :=
  columns_to_drop_general
  ++ [SOURCE_FILENAME_COL] ++ COSIGN_PII_COLUMNS
  ++ [CLIENT_ACTION_COL; ERROR_TYPE_COL] ++ transient_cols
  ++ pii_columns_customer.

(** What every frame the engine passes through has in common with the
    frame it was given: the index, the non-transient columns and their
    order, the cells of rows outside [error_rows], and all cells of the
    columns other than [Error_Type] and [Client_Action]. *)
Definition engine_inv (ack_df : DataFrame cell) (error_rows : list bool)
    (df : DataFrame cell) : Prop :=
  index df = index ack_df
  ∧ filter (λ c, c ∉ transient_cols) (columns df)
    = filter (λ c, c ∉ transient_cols) (columns ack_df)
  ∧ ∀ c, c ∉ transient_cols →
      option_Forall2
        (λ s s', agree_off error_rows s s'
                 ∧ (c ≠ ERROR_TYPE_COL → c ≠ CLIENT_ACTION_COL → s = s'))
        (assoc_get c (data df)) (assoc_get c (data ack_df)).

(** ** Example inputs *)

(** The one-character string U+00B2 (superscript two). *)
Definition superscript_two : string := String (Ascii.ascii_of_N 178) EmptyString.

(** End-to-end scenario A of the specification. *)
Definition scenario_A_ack : DataFrame cell :=
  mkDataFrame 1 [("Error_Type", [VStr "ERR1"]); ("isError", [VStr "TRUE"]);
                 ("Transaction_Reason", [VInt 1]); ("Client_Action", [VStr ""])].
Definition scenario_A_mapping : DataFrame string :=
  mkDataFrame 1 [("Error_Type", ["ERR1"]); ("file_type_2", ["Sales"]);
                 ("Client_Error_Type", ["E1-Mapped"]); ("Client Action", ["Resubmit"])].

(** A mapping table without [file_type_2]: only the fallback can match. *)
Definition fallback_mapping : DataFrame string :=
  mkDataFrame 1 [("Error_Type", ["ERR1"]); ("Client_Error_Type", ["E1-Mapped"]);
                 ("Client Action", ["Resubmit"])].

(** A table with two rows that differ only by a leading blank in
    [Error_Type]. *)
Definition padded_mapping : DataFrame string :=
  mkDataFrame 2 [("Error_Type", ["ERR1"; " ERR1"]);
                 ("Client_Error_Type", ["E1"; "E1"]);
                 ("Client Action", ["Resubmit"; "Resubmit"])].

(** A table with a blank [Error_Type] and two identical rows. *)
Definition repeated_mapping : DataFrame string :=
  mkDataFrame 4 [("Error_Type", ["ERR1"; "   "; "ERR1"; "ERR2 "]);
                 ("Client_Error_Type", ["E1"; "E0"; "E1"; " E2"]);
                 ("Client Action", ["Resubmit"; "None"; "Resubmit"; "Call"])].

(** A file whose cells contain the letters "nan". *)
Definition names_df : DataFrame cell :=
  mkDataFrame 3 [("Customer_Last_Name", [VStr "Hernandez"; VStr "nan"; VStr "Lee"]);
                 ("Product", [VStr "banana"; VNaN; VStr "finance"])].

Definition plain_config : config := mkConfig "" false None.


(** A table with two composite rules for "ERR1" and one for "ERR2", and
    a file with a row for each strategy and a row that is no error. *)
Definition two_tier_mapping : DataFrame string :=
  mkDataFrame 3 [("Error_Type", ["ERR1"; "ERR1"; "ERR2"]);
                 ("file_type_2", ["Sales"; "Payments"; "Sales"]);
                 ("Client_Error_Type", ["E1-Sales"; "E1-Payments"; "E2"]);
                 ("Client Action", ["Resubmit"; "Fix"; "Call"])].
Definition two_tier_ack : DataFrame cell :=
  mkDataFrame 3 [("Error_Type", [VStr "ERR1"; VStr "ERR2"; VStr "ERR1"]);
                 ("isError", [VStr "TRUE"; VStr "True"; VStr "FALSE"]);
                 ("Transaction_Reason", [VInt 1; VInt 2; VInt 1]);
                 ("Client_Action", [VNaN; VNaN; VNaN])].


(** A COSIGN file in which [incoming_client_filename] comes before
    [Original_Contract_Number]. *)
Definition cosign_df : DataFrame cell :=
  mkDataFrame 2 [("incoming_client_filename", [VStr "in1.csv"; VStr "in2.csv"]);
                 ("Original_Contract_Number", [VInt 17; VInt 18]);
                 ("Agent_Number", [VStr "COSIGN"; VStr "OTHER"]);
                 ("Property_Address", [VStr "123 Main"; VStr "9 Elm"])].

(** The file of end-to-end scenario C. *)
Definition scenario_C_df : DataFrame cell :=
  mkDataFrame 2 [("Original_Contract_Number", [VInt 17; VInt 18]);
                 ("Agent_Number", [VStr "A1"; VStr "A2"])].

(** A file that already has a column named [composite_key]. *)
Definition keyed_ack : DataFrame cell :=
  mkDataFrame 2 [("composite_key", [VStr "k1"; VStr "k2"]);
                 ("Error_Type", [VStr "ERR1"; VStr "ERR1"]);
                 ("isError", [VStr "TRUE"; VStr "FALSE"]);
                 ("Transaction_Reason", [VInt 1; VInt 1]);
                 ("Client_Action", [VStr ""; VStr "keep"])].

(** A file, as a CSV gives it, with a column named [composite_key]: the
    first row is an error, the second is not. *)
Definition keyed_csv_ack : DataFrame cell :=
  mkDataFrame 2 [("composite_key", [VStr "k1"; VStr "k2"]);
                 ("Error_Type", [VStr "ERR1"; VStr "ERR1"]);
                 ("isError", [VBool true; VBool false]);
                 ("Transaction_Reason", [VInt 1; VInt 1]);
                 ("Client_Action", [VNaN; VStr "keep"])].

(** A table that lacks [Client_Error_Type]. *)
Definition broken_mapping : DataFrame string :=
  mkDataFrame 1 [("Error_Type", ["ERR1"]); ("Client Action", ["Resubmit"])].

(** A file whose [Transaction_Reason] is the superscript two. *)
Definition superscript_ack : DataFrame cell :=
  mkDataFrame 1 [("Error_Type", [VStr "ERR1"]); ("isError", [VStr "TRUE"]);
                 ("Transaction_Reason", [VStr superscript_two]);
                 ("Client_Action", [VStr ""])].

(** A file with one error row the table maps and one whose [Error_Type]
    is missing. *)
Definition missing_type_ack : DataFrame cell :=
  mkDataFrame 2 [("Error_Type", [VStr "ERR1"; VNaN]);
                 ("isError", [VStr "TRUE"; VStr "true"]);
                 ("Transaction_Reason", [VInt 1; VInt 1]);
                 ("Client_Action", [VNaN; VNaN])].

(** A file without an [isError] column. *)
Definition no_flag_ack : DataFrame cell :=
  mkDataFrame 1 [("Error_Type", [VStr "ERR1"]); ("Transaction_Reason", [VInt 1])].

(** A file with an error the table has no rule for. *)
Definition unmatched_ack : DataFrame cell :=
  mkDataFrame 2 [("Error_Type", [VStr "ERR1"; VStr "ERR9"]);
                 ("isError", [VStr "TRUE"; VStr "TRUE"]);
                 ("Transaction_Reason", [VInt 1; VInt 1]);
                 ("Client_Action", [VNaN; VStr "keep"])].

(** A file whose agent numbers and reason codes repeat under different
    spellings. *)
Definition named_df : DataFrame cell :=
  mkDataFrame 3 [("Agent_Number", [VStr "A1"; VStr " A1"; VStr "A2"]);
                 ("Transaction_Reason", [VInt 5; VStr "005"; VInt 2])].

(** A log with one earlier entry. *)
Definition one_entry_log : DataFrame cell :=
  mkDataFrame 1 [("Agent", [VStr "A0"]); ("Recipients", [VStr "x@example.com"]);
                 ("Date", [VStr "2025-05-01 09:00:00"]); ("Subject", [VStr "May"]);
                 ("Email_Status", [VStr "Sent"])].

(** A file with customer fields. *)
Definition customer_df : DataFrame cell :=
  mkDataFrame 2 [("Customer_First_Name", [VStr "Ann"; VNaN]);
                 ("Customer_Phone", [VInt 5551234; VInt 5559876]);
                 ("Transfer_Flag", [VStr "Y"; VStr "N"]);
                 ("Product", [VStr "banana"; VStr "plan"])].

(** * Properties *)

Local Open Scope nat_scope.

(** ** The error monad *)

Lemma bind_Ok {A B : Type} (m : result A) (f : A → result B) (b : B) :
  m ≫= f = Ok b ↔ ∃ a, m = Ok a ∧ f a = Ok b.
Proof.
  destruct m as [a|e]; simpl; split.
  - intros H. by exists a.
  - by intros (a' & [= ->] & H).
  - intros H. discriminate H.
  - by intros (a' & [=] & _).
Qed.

Lemma fmap_Ok {A B : Type} (m : result A) (f : A → B) (b : B) :
  f <$> m = Ok b ↔ ∃ a, m = Ok a ∧ b = f a.
Proof.
  destruct m as [a|e]; simpl; split.
  - intros [= <-]. by exists a.
  - by intros (a' & [= ->] & ->).
  - intros H. discriminate H.
  - by intros (a' & [=] & _).
Qed.

(** Splits the hypotheses that say a sequence of binds returned. *)
Ltac inv_result :=
  repeat match goal with
    | H : Ok _ = Ok _ |- _ => injection H as H; try subst
    | H : Raise _ = Ok _ |- _ => discriminate H
    | H : Ok _ = Raise _ |- _ => discriminate H
    | H : mbind _ _ = Ok _ |- _ =>
        let x := fresh "x" in
        let Hx := fresh "Hx" in
        apply bind_Ok in H as (x & Hx & H)
    | H : fmap _ _ = Ok _ |- _ =>
        let x := fresh "x" in
        let Hx := fresh "Hx" in
        apply fmap_Ok in H as (x & Hx & H)
    end.

(** ** Lists, masks and dictionaries *)

Section ListFacts.
Context {B : Type}.
Implicit Types (mask : list bool) (new old s : list B).

Lemma length_where_ mask new old : length (where_ mask new old) = length old.
Proof.
  revert mask new. induction old as [|o old IH]; intros mask new; simpl; [done|].
  by rewrite IH.
Qed.

Lemma lookup_where_ mask new old i :
  where_ mask new old !! i =
  (λ o, if default false (mask !! i) then default o (new !! i) else o) <$> old !! i.
Proof.
  revert mask new i. induction old as [|o old IH]; intros mask new i; [done|].
  destruct i as [|i]; simpl.
  - by destruct mask, new.
  - rewrite IH. by destruct mask, new.
Qed.

(** Where the mask does not hold, the assignment leaves the entry. *)
Lemma lookup_where_off mask new old i :
  mask !! i ≠ Some true → where_ mask new old !! i = old !! i.
Proof.
  intros Hm. rewrite lookup_where_.
  destruct (mask !! i) as [[]|]; simpl; try done; by destruct (old !! i).
Qed.

Lemma lookup_where_on mask new old i o n :
  mask !! i = Some true → old !! i = Some o → new !! i = Some n →
  where_ mask new old !! i = Some n.
Proof. intros Hm Ho Hn. by rewrite lookup_where_, Hm, Ho, Hn. Qed.

Lemma lookup_mask_and (m1 m2 : list bool) i :
  mask_and m1 m2 !! i = Some true ↔ m1 !! i = Some true ∧ m2 !! i = Some true.
Proof.
  unfold mask_and. rewrite lookup_zip_with.
  destruct (m1 !! i) as [[]|], (m2 !! i) as [[]|]; simpl; intuition congruence.
Qed.

Lemma lookup_mask_not (m : list bool) i b :
  mask_not m !! i = Some b ↔ m !! i = Some (negb b).
Proof.
  unfold mask_not. rewrite list_lookup_fmap.
  destruct (m !! i) as [[]|], b; simpl; intuition congruence.
Qed.

Lemma mask_any_true (m : list bool) : mask_any m = true ↔ ∃ i, m !! i = Some true.
Proof.
  induction m as [|b m IH]; simpl.
  - split; [done|]. by intros [i Hi].
  - rewrite orb_true_iff, IH. split.
    + intros [->|[i Hi]]; [by exists O | by exists (S i)].
    + intros [[|i] Hi]; simpl in Hi; [left; congruence | right; by exists i].
Qed.



End ListFacts.

(** ** Frames *)

Section FrameFacts.
Context {A : Type}.
Implicit Types (df : DataFrame A) (l : list (string * list A)) (c : string).

Lemma assoc_get_is_Some c l : is_Some (assoc_get c l) ↔ c ∈ l.*1.
Proof.
  induction l as [|[c' s'] l IH]; simpl.
  - split; [by intros [? ?] | by intros ?%elem_of_nil].
  - case_decide as Hc; subst.
    + split; [intros _; left | by eexists].
    + rewrite IH, elem_of_cons. naive_solver.
Qed.

Lemma assoc_get_None c l : assoc_get c l = None ↔ c ∉ l.*1.
Proof. rewrite <-assoc_get_is_Some, eq_None_not_Some. done. Qed.

Lemma assoc_get_set_eq c s l : assoc_get c (assoc_set c s l) = Some s.
Proof.
  induction l as [|[c' s'] l IH]; simpl.
  - by rewrite decide_True.
  - case_decide as Hc; simpl.
    + by rewrite decide_True.
    + by rewrite decide_False.
Qed.

Lemma assoc_get_set_ne c c' s l :
  c ≠ c' → assoc_get c' (assoc_set c s l) = assoc_get c' l.
Proof.
  intros Hne. induction l as [|[c'' s''] l IH]; simpl.
  - by rewrite decide_False.
  - case_decide as Hc; simpl; subst.
    + by rewrite !decide_False.
    + by rewrite IH.
Qed.

Lemma assoc_set_labels c s l :
  (assoc_set c s l).*1 = if decide (c ∈ l.*1) then l.*1 else l.*1 ++ [c].
Proof.
  induction l as [|[c' s'] l IH].
  - simpl. destruct (decide (c ∈ [])) as [Hin|Hin]; [|done].
    by apply elem_of_nil in Hin.
  - rewrite fmap_cons. simpl assoc_set. simpl fst.
    destruct (decide (c = c')) as [Hc|Hc]; subst.
    + rewrite decide_True; [done | left].
    + rewrite fmap_cons, IH. simpl fst.
      destruct (decide (c ∈ l.*1)) as [Hin|Hin].
      * rewrite decide_True; [done | by right].
      * rewrite decide_False; [done|]. rewrite elem_of_cons. naive_solver.
Qed.

Lemma has_col_true c df : has_col c df = true ↔ c ∈ columns df.
Proof. unfold has_col. apply bool_decide_eq_true. Qed.

Lemma has_col_false c df : has_col c df = false ↔ c ∉ columns df.
Proof. unfold has_col. apply bool_decide_eq_false. Qed.

Lemma get_col_Ok c df s : get_col c df = Ok s ↔ assoc_get c (data df) = Some s.
Proof.
  unfold get_col. destruct (assoc_get c (data df)); split; congruence.
Qed.

Lemma get_col_has_col c df s : get_col c df = Ok s → c ∈ columns df.
Proof.
  rewrite get_col_Ok. intros H. apply assoc_get_is_Some. by eexists.
Qed.

Lemma has_col_get_col c df : c ∈ columns df → ∃ s, get_col c df = Ok s.
Proof.
  intros [s Hs]%assoc_get_is_Some. exists s. by apply get_col_Ok.
Qed.

Lemma cell_at_get_col c df s i :
  get_col c df = Ok s → cell_at df c i = s !! i.
Proof. rewrite get_col_Ok. unfold cell_at. by intros ->. Qed.

(** *** [df[c] = series] *)

Lemma index_set_col c s df : index (set_col c s df) = index df.
Proof. done. Qed.

Lemma assoc_get_set_col_eq c s df : assoc_get c (data (set_col c s df)) = Some s.
Proof. apply assoc_get_set_eq. Qed.

Lemma assoc_get_set_col_ne c c' s df :
  c ≠ c' → assoc_get c' (data (set_col c s df)) = assoc_get c' (data df).
Proof. apply assoc_get_set_ne. Qed.

Lemma get_col_set_col_eq c s df : get_col c (set_col c s df) = Ok s.
Proof. apply get_col_Ok, assoc_get_set_eq. Qed.

Lemma get_col_set_col_ne c c' s df :
  c ≠ c' → get_col c' (set_col c s df) = get_col c' df.
Proof. intros Hne. unfold get_col. by rewrite assoc_get_set_col_ne. Qed.

Lemma columns_set_col c s df :
  columns (set_col c s df) =
  if decide (c ∈ columns df) then columns df else columns df ++ [c].
Proof. apply assoc_set_labels. Qed.

Lemma columns_set_col_in c s df :
  c ∈ columns df → columns (set_col c s df) = columns df.
Proof. intros Hin. by rewrite columns_set_col, decide_True. Qed.

Lemma elem_of_columns_set_col c c' s df :
  c' ∈ columns (set_col c s df) ↔ c' = c ∨ c' ∈ columns df.
Proof.
  rewrite columns_set_col. case_decide as Hin.
  - naive_solver.
  - rewrite elem_of_app, list_elem_of_singleton. naive_solver.
Qed.

Lemma has_col_set_col_ne c c' s df :
  c ≠ c' → has_col c' (set_col c s df) = has_col c' df.
Proof.
  intros Hne. unfold has_col. apply bool_decide_ext.
  rewrite elem_of_columns_set_col. naive_solver.
Qed.

(** *** [df.loc[mask, c] = new] *)

Lemma loc_set_Ok mask c new df df' :
  loc_set mask c new df = Ok df' ↔
  ∃ old, get_col c df = Ok old ∧ df' = set_col c (where_ mask new old) df.
Proof.
  unfold loc_set. rewrite bind_Ok. split; intros (old & H1 & H2); exists old.
  - by injection H2 as <-.
  - by subst.
Qed.

(** *** [df.drop(columns=names)] *)

Lemma assoc_get_drop_cols names c df :
  c ∉ names → assoc_get c (data (drop_cols names df)) = assoc_get c (data df).
Proof.
  intros Hc. simpl. induction (data df) as [|[c' s'] l IH]; [done|].
  rewrite filter_cons. simpl. destruct (decide (c' ∉ names)) as [HP|HP]; simpl.
  - by rewrite IH.
  - rewrite decide_False; [done | intros ->; by apply HP].
Qed.

Lemma columns_drop_cols names df :
  columns (drop_cols names df) = filter (λ c, c ∉ names) (columns df).
Proof.
  unfold columns. simpl. induction (data df) as [|[c s] l IH]; [done|].
  rewrite fmap_cons, !filter_cons. simpl.
  destruct (decide (c ∉ names)); [rewrite fmap_cons; simpl|]; by rewrite IH.
Qed.

(** *** [df.insert(loc, c, v)] *)

Lemma assoc_get_app c l1 l2 :
  assoc_get c (l1 ++ l2) =
  match assoc_get c l1 with Some s => Some s | None => assoc_get c l2 end.
Proof.
  induction l1 as [|[c' s'] l1 IH]; [done|]. simpl. by case_decide.
Qed.

Lemma assoc_get_insert_at_ne i c c' s l :
  c ≠ c' → assoc_get c' (insert_at i (c, s) l) = assoc_get c' l.
Proof.
  intros Hne. unfold insert_at. rewrite assoc_get_app. simpl.
  rewrite decide_False by done.
  transitivity (assoc_get c' (take i l ++ drop i l));
    [by rewrite assoc_get_app | by rewrite take_drop].
Qed.

Lemma assoc_get_insert_at_eq i c s l :
  c ∉ l.*1 → assoc_get c (insert_at i (c, s) l) = Some s.
Proof.
  intros Hc. unfold insert_at. rewrite assoc_get_app.
  assert (assoc_get c (take i l) = None) as ->.
  { apply assoc_get_None. intros Hin. apply Hc.
    rewrite <-(take_drop i l), fmap_app, elem_of_app. by left. }
  simpl. by rewrite decide_True.
Qed.

Lemma columns_insert_col i c v df :
  columns (insert_col i c v df) = insert_at i c (columns df).
Proof.
  unfold columns, insert_col, insert_at. simpl.
  by rewrite fmap_app, fmap_cons, fmap_take, fmap_drop.
Qed.

End FrameFacts.

(** ** Reason Code Translator *)

Lemma translate_labels :
  get_transaction_reason_text (VInt 1) = Ok "Sales"
  ∧ get_transaction_reason_text (VInt 2) = Ok "Payments"
  ∧ get_transaction_reason_text (VInt 3) = Ok "Cancels"
  ∧ get_transaction_reason_text (VInt 5) = Ok "Sales"
  ∧ get_transaction_reason_text (VStr "1") = Ok "Sales"
  ∧ get_transaction_reason_text (VStr "2") = Ok "Payments"
  ∧ get_transaction_reason_text (VStr "3") = Ok "Cancels"
  ∧ get_transaction_reason_text (VStr "5") = Ok "Sales"
  ∧ get_transaction_reason_text (VStr "X") = Ok "X".
Proof. repeat split; vm_compute; reflexivity. Qed.

(** A string that is not all digits passes through. *)
Lemma translate_passthrough (s : string) :
  PyStr.isdigit s = false → get_transaction_reason_text (VStr s) = Ok s.
Proof. intros H. unfold get_transaction_reason_text. simpl. by rewrite H. Qed.

(** On integers the translator always returns. *)
Lemma translate_int_total (z : Z) :
  get_transaction_reason_text (VInt z)
  = Ok (default (pretty z) (code_map !! z)).
Proof.
  unfold get_transaction_reason_text. by destruct (PyStr.isdigit _).
Qed.

(** A string passes the [isdigit] guard and is still refused by [int]
    exactly when it is all digits and one of them is not decimal. *)
Lemma translate_raises_iff (s : string) :
  (∃ e, get_transaction_reason_text (VStr s) = Raise e)
  ↔ PyStr.isdigit s = true ∧ PyStr.isdecimal s = false.
Proof.
  unfold get_transaction_reason_text. simpl. unfold PyStr.int.
  destruct (PyStr.isdigit s), (PyStr.isdecimal s); simpl; split;
    try (intros [e He]; discriminate He); try (intros [? ?]; discriminate);
    try done.
  intros _. by eexists.
Qed.

(** C5: the translator is meant never to fail, and guards [int(code)]
    with [str(code).isdigit()]; on the one-character string U+00B2, which
    [isdigit] accepts and [int] refuses, it raises [ValueError]. *)
Theorem translate_fails_on_superscript_digit :
  PyStr.isdigit superscript_two = true
  ∧ get_transaction_reason_text (VStr superscript_two) = Raise ValueError.
Proof. split; vm_compute; reflexivity. Qed.

(** ** Normalisation of the output *)

Lemma remove_nan_exact : PyStr.remove_nan "nan" = "".
Proof. reflexivity. Qed.

(** C2: the last step removes every occurrence of the letters "nan"
    inside a cell, not only a cell that is exactly "nan": "Hernandez"
    becomes "Herdez", "banana" becomes "baa" and "finance" becomes
    "fice". *)
Theorem replace_nan_rewrites_substrings :
  replace_nan1 (VStr "banana") = VStr "baa"
  ∧ process_csv_file names_df plain_config
    = Ok (mkDataFrame 3
            [("Customer_Last_Name", [VStr "Herdez"; VStr ""; VStr "Lee"]);
             ("Product", [VStr "baa"; VStr ""; VStr "fice"]);
             ("Source_Filename", [VStr ""; VStr ""; VStr ""]);
             ("Client_Action", [VStr ""; VStr ""; VStr ""])]).
Proof. split; vm_compute; reflexivity. Qed.

(** ** Mapping Table Loader *)

(** A table without one of the required columns is refused. *)
Lemma loader_missing_columns (mapping_df : DataFrame string) c :
  c ∈ required_cols → c ∉ columns mapping_df →
  load_error_mapping_file mapping_df = None.
Proof.
  intros Hreq Hmiss. unfold load_error_mapping_file, load_error_mapping_try.
  rewrite bool_decide_eq_true_2; [done|].
  intros Hnil.
  assert (c ∈ filter (λ col, col ∉ columns mapping_df) required_cols) as Hin
    by (by apply list_elem_of_filter).
  rewrite Hnil in Hin. by apply elem_of_nil in Hin.
Qed.

(** Rows with a blank [Error_Type] are left out, of two identical rows
    one is kept, and the key columns come out stripped. *)
Lemma loader_drops_blank_and_repeated_rows :
  load_error_mapping_file repeated_mapping
  = Some (mkDataFrame 2 [("Error_Type", ["ERR1"; "ERR2"]);
                         ("Client_Error_Type", ["E1"; "E2"]);
                         ("Client Action", ["Resubmit"; "Call"])]).
Proof. vm_compute. reflexivity. Qed.

(** C4: duplicates are removed before the key columns are stripped, so
    two rows that differ only by surrounding blanks are both kept and
    come out identical. *)
Theorem loader_keeps_rows_equal_after_strip :
  ∃ out, load_error_mapping_file padded_mapping = Some out
         ∧ rows out = [[Some "ERR1"; Some "E1"; Some "Resubmit"];
                       [Some "ERR1"; Some "E1"; Some "Resubmit"]]
         ∧ ¬ NoDup (rows out).
Proof.
  eexists. split; [vm_compute; reflexivity|]. split; [vm_compute; reflexivity|].
  intros Hnd. vm_compute in Hnd. apply NoDup_cons in Hnd as [Hnin _].
  apply Hnin. left.
Qed.

(** ** Error Mapping Engine: the fallback strategy *)

(** C1: a row matched only by the fallback has its [Client_Action] looked
    up under the value just written to [Error_Type]; the rule
    ("ERR1", "E1-Mapped", "Resubmit") rewrites [Error_Type] and leaves
    [Client_Action] empty, since "E1-Mapped" is no key of the index. *)
Theorem fallback_action_keyed_by_rewritten_type :
  ∃ l, apply_error_mapping_body scenario_A_ack fallback_mapping = Ok (Mapped l)
       ∧ error_mask l = None
       ∧ simple_match_mask l = Some [true]
       ∧ (simple_action_mapping l ≫= (.!! "ERR1")) = Some "Resubmit"
       ∧ cell_at scenario_A_ack ERROR_TYPE_COL 0 = Some (VStr "ERR1")
       ∧ cell_at (apply_error_mapping scenario_A_ack fallback_mapping)
                 ERROR_TYPE_COL 0 = Some (VStr "E1-Mapped")
       ∧ cell_at (apply_error_mapping scenario_A_ack fallback_mapping)
                 CLIENT_ACTION_COL 0 = Some (VStr "").
Proof. eexists. repeat split; vm_compute; reflexivity. Qed.

(** Scenario A: the composite strategy writes both mapped values. *)
Lemma scenario_A :
  apply_error_mapping scenario_A_ack scenario_A_mapping
  = mkDataFrame 1 [("Error_Type", [VStr "E1-Mapped"]); ("isError", [VStr "TRUE"]);
                   ("Transaction_Reason", [VInt 1]);
                   ("Client_Action", [VStr "Resubmit"])].
Proof. vm_compute. reflexivity. Qed.

(** ** Positions of columns *)

Section Positions.
Context {A : Type}.
Implicit Types (df : DataFrame A) (l : list (string * list A)) (c : string).


Lemma insert_at_before {B : Type} (l1 l2 : list B) (x : B) :
  insert_at (length l1) x (l1 ++ l2) = l1 ++ (x :: l2).
Proof.
  unfold insert_at. induction l1 as [|z l1 IH]; simpl; [done|].
  by rewrite IH.
Qed.

(** [get_loc] is the position of the first column with the label. *)
Lemma assoc_loc_split c l :
  c ∈ l.*1 →
  ∃ l1 s l2, l = l1 ++ ((c, s) :: l2) ∧ (c ∉ l1.*1) ∧ assoc_loc c l = length l1.
Proof.
  induction l as [|[c' s'] l IH]; [by intros ?%elem_of_nil|].
  rewrite fmap_cons, elem_of_cons. simpl. intros Hin.
  destruct (decide (c = c')) as [->|Hne].
  - exists [], s', l. split_and!; [done | apply not_elem_of_nil | done].
  - destruct IH as (l1 & s & l2 & -> & Hnin & Hloc); [naive_solver|].
    exists ((c', s') :: l1), s, l2. split_and!; [done | | by rewrite Hloc].
    rewrite fmap_cons, elem_of_cons. naive_solver.
Qed.

Lemma get_loc_split c df :
  c ∈ columns df →
  ∃ before after, columns df = before ++ (c :: after) ∧ (c ∉ before)
                  ∧ get_loc c df = length before.
Proof.
  intros (l1 & s & l2 & Hl & Hnin & Hloc)%assoc_loc_split.
  exists l1.*1, l2.*1. unfold columns, get_loc. rewrite Hl at 1.
  by rewrite fmap_app, fmap_cons, length_fmap.
Qed.

End Positions.

(** ** Record Transform Pipeline: [Source_Filename] *)


Lemma desired_source_filename_empty : desired_source_filename "" = "".
Proof. done. Qed.


(** ** Error Mapping Engine: what a run preserves *)

Lemma upper_eq_lookup lit (s : list cell) i :
  upper_eq lit s !! i = Some true ↔ ∃ v, s !! i = Some v ∧ PyStr.upper (str v) = lit.
Proof.
  unfold upper_eq. rewrite list_lookup_fmap. unfold PyStr.eqb.
  destruct (s !! i) as [v|]; simpl.
  - split.
    + intros [= H%bool_decide_eq_true]. by exists v.
    + intros (v' & [= <-] & H). by rewrite bool_decide_eq_true_2.
  - split; [done | by intros (v' & [=] & _)].
Qed.

Lemma filter_not_transient_app (l : list string) c :
  c ∈ transient_cols →
  filter (λ c, c ∉ transient_cols) (l ++ [c]) = filter (λ c, c ∉ transient_cols) l.
Proof.
  intros Hc. rewrite filter_app, filter_cons_False, filter_nil by naive_solver.
  apply app_nil_r.
Qed.

Lemma engine_inv_refl ack er : engine_inv ack er ack.
Proof.
  split_and!; [done..|]. intros c _.
  destruct (assoc_get c (data ack)); constructor. by split.
Qed.

(** Writing a transient column keeps the invariant. *)
Lemma engine_inv_set_transient ack er df c s :
  c ∈ transient_cols → engine_inv ack er df → engine_inv ack er (set_col c s df).
Proof.
  intros Hc (Hidx & Hcols & Hcells). split_and!.
  - done.
  - rewrite columns_set_col. case_decide; [done|].
    by rewrite filter_not_transient_app.
  - intros c' Hc'. rewrite assoc_get_set_col_ne; [by apply Hcells|].
    intros ->. by apply Hc'.
Qed.

(** An assignment under a mask inside [error_rows], to [Error_Type] or
    [Client_Action], keeps the invariant. *)
Lemma engine_inv_loc_set ack er df df' mask c new :
  (∀ i, mask !! i = Some true → er !! i = Some true) →
  c = ERROR_TYPE_COL ∨ c = CLIENT_ACTION_COL →
  loc_set mask c new df = Ok df' →
  engine_inv ack er df → engine_inv ack er df'.
Proof.
  intros Hmask Hc (old & Hold & ->)%loc_set_Ok (Hidx & Hcols & Hcells).
  assert (c ∉ transient_cols) as Hnt.
  { unfold transient_cols. rewrite !elem_of_cons, elem_of_nil.
    destruct Hc as [-> | ->]; intros [H|[H|[]]]; discriminate H. }
  split_and!.
  - done.
  - rewrite columns_set_col_in; [done|]. by eapply get_col_has_col.
  - intros c' Hc'. destruct (decide (c = c')) as [<-|Hne].
    + rewrite assoc_get_set_col_eq.
      specialize (Hcells c Hnt). apply get_col_Ok in Hold. rewrite Hold in Hcells.
      inversion Hcells as [? s' [Hag _] | ]; subst. constructor. split.
      * intros i Hi. rewrite lookup_where_off; [by apply Hag|]. naive_solver.
      * intros H1 H2. naive_solver.
    + rewrite assoc_get_set_col_ne by done. by apply Hcells.
Qed.

Lemma rewrite_matched_has_col mask key_col em am df df' c :
  rewrite_matched mask key_col em am df = Ok df' →
  has_col c df' = has_col c df.
Proof.
  unfold rewrite_matched. intros H. inv_result.
  apply loc_set_Ok in Hx0 as (old & Hold & ->).
  assert (has_col c (set_col ERROR_TYPE_COL (where_ mask (map_dict em x) old) df)
          = has_col c df) as Heq.
  { unfold has_col. apply bool_decide_ext. rewrite elem_of_columns_set_col.
    apply get_col_has_col in Hold. naive_solver. }
  case_match; inv_result; [|done].
  apply loc_set_Ok in H as (old' & Hold' & ->). rewrite <-Heq.
  unfold has_col. apply bool_decide_ext. rewrite elem_of_columns_set_col.
  apply get_col_has_col in Hold'. naive_solver.
Qed.

Lemma engine_inv_rewrite_matched ack er mask key_col em am df df' :
  (∀ i, mask !! i = Some true → er !! i = Some true) →
  rewrite_matched mask key_col em am df = Ok df' →
  engine_inv ack er df → engine_inv ack er df'.
Proof.
  intros Hmask H Hinv. unfold rewrite_matched in H. inv_result.
  eapply engine_inv_loc_set in Hx0; [|done|by left|done].
  case_match; inv_result; [|done].
  eapply engine_inv_loc_set in H; [done|done|by right|done].
Qed.

Lemma engine_inv_convert_reason ack er df df' :
  convert_reason df = Ok df' → engine_inv ack er df → engine_inv ack er df'.
Proof.
  unfold convert_reason. intros H Hinv. case_match; inv_result; [|done].
  apply engine_inv_set_transient; [|done].
  unfold transient_cols. set_solver.
Qed.

Lemma mask_and_sub (m1 m2 : list bool) i :
  mask_and m1 m2 !! i = Some true → m1 !! i = Some true.
Proof. by intros [? ?]%lookup_mask_and. Qed.

Lemma engine_inv_strategy1 ack er df mapping t1 :
  strategy1 df mapping er = Ok t1 →
  engine_inv ack er df → engine_inv ack er (t1_result_df t1).
Proof.
  unfold strategy1. intros H Hinv. case_match; inv_result; [|done].
  assert (engine_inv ack er (set_col "composite_key" x0 df)) as Hinv'.
  { apply engine_inv_set_transient; [|done]. unfold transient_cols. set_solver. }
  case_match; inv_result; simpl; [|done].
  eapply engine_inv_rewrite_matched; [|done..]. apply mask_and_sub.
Qed.

Lemma remaining_of_sub df er em i :
  remaining_of df er em !! i = Some true → er !! i = Some true.
Proof. apply mask_and_sub. Qed.

Lemma engine_inv_strategy2 ack er df mapping remaining t2 :
  (∀ i, remaining !! i = Some true → er !! i = Some true) →
  strategy2 df mapping remaining = Ok t2 →
  engine_inv ack er df → engine_inv ack er (t2_result_df t2).
Proof.
  unfold strategy2. intros Hrem H Hinv. case_match; inv_result; [|done].
  case_match; inv_result; simpl; [|done].
  eapply engine_inv_rewrite_matched; [|done..].
  intros i Hi%mask_and_sub. by apply Hrem.
Qed.

Lemma filter_drop_absent (c : string) (l : list string) :
  c ∉ l → filter (λ x, x ∉ [c]) l = l.
Proof.
  induction l as [|x l IH]; [done|]. rewrite not_elem_of_cons. intros [Hne Hnin].
  rewrite filter_cons_True; [by rewrite IH|].
  rewrite list_elem_of_singleton. congruence.
Qed.

Lemma filter_drop_two (a b : string) (l : list string) :
  filter (λ x, x ∉ [b]) (filter (λ x, x ∉ [a]) l) = filter (λ x, x ∉ [a; b]) l.
Proof.
  induction l as [|x l IH]; [done|]. rewrite !filter_cons.
  destruct (decide (x ∉ [a])) as [Ha|Ha].
  - rewrite filter_cons. destruct (decide (x ∉ [b])) as [Hb|Hb].
    + rewrite decide_True; [by rewrite IH|]. set_solver.
    + rewrite decide_False; [by rewrite IH|]. set_solver.
  - rewrite decide_False; [by rewrite IH|]. set_solver.
Qed.

Lemma index_cleanup df : index (cleanup df) = index df.
Proof. unfold cleanup. by repeat case_match. Qed.

Lemma columns_cleanup df :
  columns (cleanup df) = filter (λ c, c ∉ transient_cols) (columns df).
Proof.
  unfold transient_cols. rewrite <-filter_drop_two. unfold cleanup.
  assert (∀ c (d : DataFrame cell),
            columns (if has_col c d then drop_cols [c] d else d)
            = filter (λ x, x ∉ [c]) (columns d)) as Hstep.
  { intros c d. destruct (has_col c d) eqn:Hc.
    - apply columns_drop_cols.
    - apply has_col_false in Hc. by rewrite filter_drop_absent. }
  by rewrite !Hstep.
Qed.

Lemma assoc_get_cleanup c df :
  c ∉ transient_cols → assoc_get c (data (cleanup df)) = assoc_get c (data df).
Proof.
  unfold transient_cols. intros Hc. unfold cleanup.
  assert (∀ c' (d : DataFrame cell), c' ≠ c →
            assoc_get c (data (if has_col c' d then drop_cols [c'] d else d))
            = assoc_get c (data d)) as Hstep.
  { intros c' d Hne. destruct (has_col c' d); [|done].
    apply assoc_get_drop_cols. set_solver. }
  rewrite !Hstep; [done | set_solver..].
Qed.

(** The two early returns hand back the frame that was passed in. *)
Lemma body_skipped ack mapping df :
  apply_error_mapping_body ack mapping = Ok (Skipped df) → df = ack.
Proof.
  unfold apply_error_mapping_body. intros H.
  repeat (case_match; inv_result); done.
Qed.

(** A run that reaches the last line went through every stage. *)
Lemma body_mapped ack mapping l :
  apply_error_mapping_body ack mapping = Ok (Mapped l) →
  ∃ is_error df0 t1 t2,
    ERROR_TYPE_COL ∈ columns ack
    ∧ get_col IS_ERROR_COL ack = Ok is_error
    ∧ error_rows l = upper_eq "TRUE" is_error
    ∧ mask_any (error_rows l) = true
    ∧ convert_reason ack = Ok df0
    ∧ strategy1 df0 mapping (error_rows l) = Ok t1
    ∧ remaining_errors l = remaining_of (t1_result_df t1) (error_rows l) (t1_error_mask t1)
    ∧ strategy2 (t1_result_df t1) (t1_mapping_df_clean t1) (remaining_errors l) = Ok t2
    ∧ error_mask l = t1_error_mask t1
    ∧ composite_error_mapping l = t1_composite_error_mapping t1
    ∧ composite_action_mapping l = t1_composite_action_mapping t1
    ∧ simple_match_mask l = t2_simple_match_mask t2
    ∧ simple_error_mapping l = t2_simple_error_mapping t2
    ∧ simple_action_mapping l = t2_simple_action_mapping t2
    ∧ result_df l = cleanup (t2_result_df t2).
Proof.
  unfold apply_error_mapping_body. intros H. cbv zeta in H.
  case_bool_decide as Hmiss; [by inv_result|]. inv_result.
  case_match eqn:Hany; [by inv_result|]. inv_result.
  apply negb_false_iff in Hany.
  exists x, x0, x1, x2. split_and!; try done.
  destruct (decide (ERROR_TYPE_COL ∈ columns ack)) as [Hin|Hnin]; [done|].
  rewrite filter_cons_True in Hmiss by done. discriminate Hmiss.
Qed.

(** Every frame of a completed run satisfies the invariant. *)
Lemma body_mapped_inv ack mapping l :
  apply_error_mapping_body ack mapping = Ok (Mapped l) →
  ∃ df, engine_inv ack (error_rows l) df ∧ result_df l = cleanup df.
Proof.
  intros (is_error & df0 & t1 & t2 & _ & _ & _ & _ & H0 & H1 & Hrem & H2 & Hrest)%body_mapped.
  exists (t2_result_df t2). split; [|apply Hrest].
  eapply engine_inv_strategy2; [|done|].
  - rewrite Hrem. apply remaining_of_sub.
  - eapply engine_inv_strategy1; [done|].
    eapply engine_inv_convert_reason; [done|]. apply engine_inv_refl.
Qed.

(** The engine returns the frame it was given, or the cleaned frame of a
    completed run. *)
Lemma apply_error_mapping_cases ack mapping :
  apply_error_mapping ack mapping = ack
  ∨ ∃ l, apply_error_mapping_body ack mapping = Ok (Mapped l)
         ∧ apply_error_mapping ack mapping = result_df l.
Proof.
  unfold apply_error_mapping.
  destruct (apply_error_mapping_body ack mapping) as [[df|l]|e] eqn:Hbody.
  - left. by eapply body_skipped.
  - right. by exists l.
  - by left.
Qed.

(** C6, as the code has it: frame effect of the engine. The returned
    frame has the index of the input; its columns are the columns of the
    input, in the same order, all of them or all but those labelled
    [composite_key] and [Transaction_Reason_Text]; every column outside
    these two labels is kept, and neither label is returned unless the
    input had it, so no column created for key computation is returned;
    and in every row whose [isError] is not "TRUE" (compared in upper
    case), each cell of the returned frame equals the cell of the
    input.  A run that reaches the last line returns the columns without
    the two labels; every other run returns the input itself. *)
Theorem non_error_rows_pass_through (ack : DataFrame cell) (mapping : DataFrame string) :
  let out := apply_error_mapping ack mapping in
  index out = index ack
  ∧ (columns out = columns ack
     ∨ columns out = filter (λ c, c ∉ transient_cols) (columns ack))
  ∧ (∀ c, c ∈ columns out → c ∈ columns ack)
  ∧ (∀ c, c ∈ columns ack → c ∉ transient_cols → c ∈ columns out)
  ∧ (∀ c, c ∈ transient_cols → c ∉ columns ack → c ∉ columns out)
  ∧ (∀ i c, ¬ is_error_row ack i → c ∈ columns out →
            cell_at out c i = cell_at ack c i)
  ∧ (∀ l, apply_error_mapping_body ack mapping = Ok (Mapped l) →
          columns out = filter (λ c, c ∉ transient_cols) (columns ack))
  ∧ ((∀ l, apply_error_mapping_body ack mapping ≠ Ok (Mapped l)) → out = ack).
Proof.
  intros out. unfold out.
  assert ((∀ l, apply_error_mapping_body ack mapping ≠ Ok (Mapped l)) →
          apply_error_mapping ack mapping = ack) as Hother.
  { intros Hno. unfold apply_error_mapping.
    destruct (apply_error_mapping_body ack mapping) as [[df|l]|e] eqn:Hb; [|by destruct (Hno l)|done].
    by apply body_skipped in Hb. }
  assert (∀ l, apply_error_mapping_body ack mapping = Ok (Mapped l) →
               columns (apply_error_mapping ack mapping)
               = filter (λ c, c ∉ transient_cols) (columns ack)) as Hdone.
  { intros l Hb. unfold apply_error_mapping. rewrite Hb.
    destruct (body_mapped_inv _ _ _ Hb) as (df & (_ & Hcols & _) & ->).
    by rewrite columns_cleanup. }
  destruct (apply_error_mapping_cases ack mapping) as [Heq | (l & Hbody & Heq)];
    rewrite Heq in *.
  { split_and!; try done. by left. }
  assert (∀ l0, apply_error_mapping_body ack mapping = Ok (Mapped l0) →
                columns (result_df l)
                = filter (λ c, c ∉ transient_cols) (columns ack)) as Hlast1
    by done.
  assert ((∀ l0, apply_error_mapping_body ack mapping ≠ Ok (Mapped l0)) →
          result_df l = ack) as Hlast2
    by (intros Hno; by destruct (Hno l)).
  clear Hother Hdone. revert Hlast1 Hlast2.
  destruct (body_mapped_inv _ _ _ Hbody) as (df & (Hidx & Hcols & Hcells) & ->).
  intros Hlast1 Hlast2.
  apply body_mapped in Hbody as (is_error & _ & _ & _ & _ & Hie & Her & _).
  assert (columns (cleanup df) = filter (λ c, c ∉ transient_cols) (columns ack))
    as Hout by (by rewrite columns_cleanup).
  split_and!; [..|exact Hlast1|exact Hlast2].
  - by rewrite index_cleanup.
  - by right.
  - intros c. rewrite Hout. by intros [_ ?]%list_elem_of_filter.
  - intros c Hin Hnt. rewrite Hout. by apply list_elem_of_filter.
  - intros c _ Hnin. rewrite Hout. intros [_ ?]%list_elem_of_filter. done.
  - intros i c Hne. rewrite Hout. intros [Hnt Hin]%list_elem_of_filter.
    unfold cell_at. rewrite assoc_get_cleanup by done.
    specialize (Hcells c Hnt).
    inversion Hcells as [s s' [Hag _] Hs Hs' | Hs Hs']; simpl; [|done].
    apply Hag. rewrite Her. intros (v & Hv & Hup)%upper_eq_lookup.
    apply Hne. exists v. split; [|done].
    by rewrite (cell_at_get_col _ _ _ _ Hie).
Qed.

(** A column of the input that bears a transient label is the engine's
    own: a completed run overwrites it with the keys and drops it; the
    other cells of the row that is no error are as they were. *)
Lemma transient_label_in_input_is_dropped :
  apply_error_mapping keyed_ack scenario_A_mapping
  = mkDataFrame 2 [("Error_Type", [VStr "E1-Mapped"; VStr "ERR1"]);
                   ("isError", [VStr "TRUE"; VStr "FALSE"]);
                   ("Transaction_Reason", [VInt 1; VInt 1]);
                   ("Client_Action", [VStr "Resubmit"; VStr "keep"])].
Proof. vm_compute. reflexivity. Qed.

(** C6, as stated, fails: in a file with a column named [composite_key]
    the second row is no error, and its [composite_key] cell is not in
    the returned frame. *)
Lemma non_error_row_loses_transient_cell :
  ¬ is_error_row keyed_csv_ack 1
  ∧ cell_at keyed_csv_ack "composite_key" 1 = Some (VStr "k2")
  ∧ cell_at (apply_error_mapping keyed_csv_ack scenario_A_mapping) "composite_key" 1
    = None
  ∧ ("composite_key" ∈ columns keyed_csv_ack)
  ∧ ("composite_key" ∉ columns (apply_error_mapping keyed_csv_ack scenario_A_mapping))
  ∧ apply_error_mapping keyed_csv_ack scenario_A_mapping
    = mkDataFrame 2 [("Error_Type", [VStr "E1-Mapped"; VStr "ERR1"]);
                     ("isError", [VBool true; VBool false]);
                     ("Transaction_Reason", [VInt 1; VInt 1]);
                     ("Client_Action", [VStr "Resubmit"; VStr "keep"])]
  ∧ ¬ (∀ i c, ¬ is_error_row keyed_csv_ack i →
              cell_at (apply_error_mapping keyed_csv_ack scenario_A_mapping) c i
              = cell_at keyed_csv_ack c i).
Proof.
  assert (¬ is_error_row keyed_csv_ack 1) as Hne.
  { intros (v & Hv & Hup). vm_compute in Hv. injection Hv as <-.
    vm_compute in Hup. discriminate Hup. }
  split_and!; try (vm_compute; reflexivity).
  - exact Hne.
  - vm_compute. set_solver.
  - vm_compute. set_solver.
  - intros H. specialize (H 1 "composite_key" Hne). vm_compute in H. discriminate H.
Qed.

(** ** Error Mapping Engine: failures stay inside *)


(** Failures inside the body, one of each kind: a table without
    [Client_Error_Type] ([KeyError]), a reason code [int] refuses
    ([ValueError]), an unmatched error row without [Error_Type] that the
    warning cannot join ([TypeError]). Each time the input comes back. *)
Lemma internal_failures_return_input :
  apply_error_mapping_body scenario_A_ack broken_mapping
    = Raise (KeyError "Client_Error_Type")
  ∧ apply_error_mapping scenario_A_ack broken_mapping = scenario_A_ack
  ∧ apply_error_mapping_body superscript_ack scenario_A_mapping = Raise ValueError
  ∧ apply_error_mapping superscript_ack scenario_A_mapping = superscript_ack
  ∧ apply_error_mapping_body missing_type_ack scenario_A_mapping = Raise TypeError
  ∧ apply_error_mapping missing_type_ack scenario_A_mapping = missing_type_ack.
Proof. repeat split; vm_compute; reflexivity. Qed.


Lemma engine_no_flag_column :
  apply_error_mapping no_flag_ack scenario_A_mapping = no_flag_ack.
Proof. vm_compute. reflexivity. Qed.

(** ** Dictionaries built from two columns *)

Section DictFacts.
Context {V : Type}.
Implicit Types (l : list (string * V)) (m : gmap string V).

Lemma dict_of_pairs_snoc l k v :
  dict_of_pairs (l ++ [(k, v)]) = <[k := v]> (dict_of_pairs l).
Proof. unfold dict_of_pairs. by rewrite foldl_snoc. Qed.


(** The value of a key is that of the last pair that carries it. *)
Lemma dict_of_pairs_lookup l k v :
  dict_of_pairs l !! k = Some v ↔
  ∃ j, l !! j = Some (k, v) ∧ ∀ j' v', j < j' → l !! j' ≠ Some (k, v').
Proof.
  revert v. induction l as [|[k' v'] l IH] using rev_ind; intros v.
  - unfold dict_of_pairs. simpl. rewrite lookup_empty. split; [done|].
    by intros (j & Hj & _).
  - rewrite dict_of_pairs_snoc. destruct (decide (k' = k)) as [->|Hne].
    + rewrite lookup_insert_eq. split.
      * intros [= ->]. exists (length l). split.
        -- by rewrite lookup_app_r, Nat.sub_diag.
        -- intros j' v'' Hlt Hj'. apply lookup_lt_Some in Hj'.
           rewrite length_app in Hj'. simpl in Hj'. lia.
      * intros (j & Hj & Hlast).
        destruct (decide (j = length l)) as [->|Hjne].
        -- rewrite lookup_app_r, Nat.sub_diag in Hj by done. by injection Hj as ->.
        -- exfalso. apply (Hlast (length l) v').
           ++ apply lookup_lt_Some in Hj. rewrite length_app in Hj. simpl in Hj. lia.
           ++ by rewrite lookup_app_r, Nat.sub_diag.
    + rewrite lookup_insert_ne, IH by done. split.
      * intros (j & Hj & Hlast). exists j. split.
        -- by apply lookup_app_l_Some.
        -- intros j' v'' Hlt Hj'. apply lookup_app_Some in Hj' as [Hj'|[_ Hj']].
           ++ by eapply Hlast.
           ++ destruct (j' - length l); simpl in Hj'; [congruence | done].
      * intros (j & Hj & Hlast). exists j.
        apply lookup_app_Some in Hj as [Hj|[_ Hj]].
        -- split; [done|]. intros j' v'' Hlt Hj'. apply (Hlast j' v'' Hlt).
           by apply lookup_app_l_Some.
        -- destruct (j - length l); simpl in Hj; [congruence | done].
Qed.

Lemma dict_zip_pairs (ks : list string) (vs : list V) :
  dict_zip ks vs = dict_of_pairs (zip ks vs).
Proof. done. Qed.


(** The value of a key is that of the last row that carries it. *)
Lemma dict_zip_lookup (ks : list string) (vs : list V) k v :
  dict_zip ks vs !! k = Some v →
  ∃ j, ks !! j = Some k ∧ vs !! j = Some v
       ∧ ∀ j', j < j' → j' < length vs → ks !! j' ≠ Some k.
Proof.
  rewrite dict_zip_pairs, dict_of_pairs_lookup. intros (j & Hj & Hlast).
  apply lookup_zip_with_Some in Hj as (k' & v' & [= <- <-] & Hk & Hv).
  exists j. split_and!; [done..|]. intros j' Hlt Hlen Hk'.
  destruct (lookup_lt_is_Some_2 vs j' Hlen) as [v' Hv'].
  apply (Hlast j' v' Hlt). apply lookup_zip_with_Some. by exists k, v'.
Qed.

End DictFacts.

(** ** Error Mapping Engine: keys and masks *)

Lemma mapM_result_lookup {A B : Type} (f : A → result B) (l : list A) (l' : list B) i :
  mapM f l = Ok l' →
  l' !! i = l !! i ≫= λ r, match f r with Ok t => Some t | Raise _ => None end.
Proof.
  revert l' i. induction l as [|x l IH]; intros l' i H; simpl in H.
  - injection H as <-. done.
  - inv_result. unfold mret, result_ret in H. injection H as <-.
    destruct i as [|i]; simpl.
    + by rewrite Hx.
    + by apply IH.
Qed.

Lemma assoc_get_elem_of {A : Type} c (l : list (string * list A)) s :
  assoc_get c l = Some s → (c, s) ∈ l.
Proof.
  induction l as [|[c' s'] l IH]; simpl; [done|]. case_decide as Hc.
  - intros [= ->]. subst. left.
  - intros H. right. by apply IH.
Qed.

(** In a well-formed frame every column is as long as the index. *)
Lemma wf_get_col {A : Type} (df : DataFrame A) c s :
  wf df → get_col c df = Ok s → length s = index df.
Proof.
  intros Hwf Hs%get_col_Ok%assoc_get_elem_of.
  unfold wf in Hwf. rewrite Forall_forall in Hwf. by apply (Hwf (c, s)).
Qed.

Lemma convert_reason_Ok ack df0 :
  convert_reason ack = Ok df0 →
  index df0 = index ack
  ∧ (∀ c, c ≠ "Transaction_Reason_Text" →
          assoc_get c (data df0) = assoc_get c (data ack))
  ∧ (∀ i, str <$> cell_at df0 "Transaction_Reason_Text" i = reason_text_at ack i)
  ∧ has_col "Transaction_Reason_Text" df0
    = has_col TRANSACTION_REASON_COL ack || has_col "Transaction_Reason_Text" ack.
Proof.
  unfold convert_reason, reason_text_at. intros H.
  destruct (has_col TRANSACTION_REASON_COL ack) eqn:Htr; inv_result; [|done].
  split_and!.
  - done.
  - intros c Hc. by rewrite assoc_get_set_col_ne.
  - intros i. unfold cell_at at 1. rewrite assoc_get_set_col_eq. simpl.
    rewrite (cell_at_get_col _ _ _ _ Hx), list_lookup_fmap.
    rewrite (mapM_result_lookup _ _ _ i Hx0).
    destruct (x !! i) as [r|]; simpl; [|done].
    by destruct (get_transaction_reason_text r).
  - simpl. apply has_col_true. apply elem_of_columns_set_col. by left.
Qed.


(** What strategy 1 binds when it runs. *)
Lemma strategy1_ran df mapping er t1 :
  strategy1 df mapping er = Ok t1 →
  has_col "Transaction_Reason_Text" df = true →
  has_col "file_type_2" mapping = true →
  ∃ mkeys rkeys cet cact,
    mapping_composite_keys mapping = Ok mkeys
    ∧ record_composite_keys df = Ok rkeys
    ∧ get_col "Client_Error_Type" mapping = Ok cet
    ∧ get_col "Client Action" mapping = Ok cact
    ∧ t1_mapping_df_clean t1 = set_col "composite_key" mkeys mapping
    ∧ t1_composite_error_mapping t1 = Some (dict_zip mkeys cet)
    ∧ t1_composite_action_mapping t1 = Some (dict_zip mkeys cact)
    ∧ t1_error_mask t1 = Some (mask_and er (isin (dict_zip mkeys cet) rkeys))
    ∧ (if mask_any (mask_and er (isin (dict_zip mkeys cet) rkeys))
       then rewrite_matched (mask_and er (isin (dict_zip mkeys cet) rkeys))
              "composite_key" (dict_zip mkeys cet) (dict_zip mkeys cact)
              (set_col "composite_key" rkeys df) = Ok (t1_result_df t1)
       else t1_result_df t1 = set_col "composite_key" rkeys df).
Proof.
  unfold strategy1, mapping_dict. intros H H1 H2. rewrite H1, H2 in H.
  simpl in H. inv_result.
  repeat match goal with
    | H : get_col _ (set_col _ _ _) = Ok _ |- _ =>
        first [rewrite get_col_set_col_eq in H
              | rewrite get_col_set_col_ne in H by done]
    end.
  inv_result. do 4 eexists.
  split_and!; [eassumption | eassumption | eassumption | eassumption | ..];
    destruct (mask_any _); by inv_result.
Qed.

(** What strategy 1 leaves when it is skipped. *)
Lemma strategy1_skipped df mapping er t1 :
  strategy1 df mapping er = Ok t1 →
  has_col "Transaction_Reason_Text" df && has_col "file_type_2" mapping = false →
  t1 = mkTier1 df mapping None None None 0.
Proof. unfold strategy1. intros H Hc. rewrite Hc in H. by inv_result. Qed.

Lemma strategy1_mask_None df mapping er t1 :
  strategy1 df mapping er = Ok t1 →
  t1_error_mask t1 = None ↔
  has_col "Transaction_Reason_Text" df && has_col "file_type_2" mapping = false.
Proof.
  intros H. destruct (has_col "Transaction_Reason_Text" df) eqn:H1,
    (has_col "file_type_2" mapping) eqn:H2; simpl.
  1: { destruct (strategy1_ran _ _ _ _ H H1 H2)
         as (? & ? & ? & ? & _ & _ & _ & _ & _ & _ & _ & -> & _). done. }
  all: apply strategy1_skipped in H as ->; [done | by rewrite H1, H2].
Qed.

Lemma isin_lookup (d : dict) (s : list cell) i :
  isin d s !! i = Some true ↔ ∃ k, s !! i = Some (VStr k) ∧ is_Some (d !! k).
Proof.
  unfold isin. rewrite list_lookup_fmap. destruct (s !! i) as [v|]; simpl.
  - split.
    + intros [= H]. destruct v as [k| | |]; simpl in H; try done.
      exists k. split; [done|]. by apply bool_decide_eq_true in H.
    + intros (k & [= ->] & Hk). simpl. by rewrite bool_decide_eq_true_2.
  - split; [done | by intros (k & [=] & _)].
Qed.






(** ** Error Mapping Engine: which rows each strategy rewrites *)

Lemma cell_at_set_col_ne (df : DataFrame cell) c c' s i :
  c ≠ c' → cell_at (set_col c s df) c' i = cell_at df c' i.
Proof. intros Hne. unfold cell_at. by rewrite assoc_get_set_col_ne. Qed.

Lemma cell_at_set_col_eq (df : DataFrame cell) c s i :
  cell_at (set_col c s df) c i = s !! i.
Proof. unfold cell_at. by rewrite assoc_get_set_col_eq. Qed.

Lemma loc_set_off mask c new (df df' : DataFrame cell) c' i :
  loc_set mask c new df = Ok df' → mask !! i ≠ Some true →
  cell_at df' c' i = cell_at df c' i.
Proof.
  intros (old & Hold & ->)%loc_set_Ok Hi. destruct (decide (c = c')) as [<-|Hne].
  - rewrite cell_at_set_col_eq, lookup_where_off by done.
    by rewrite (cell_at_get_col _ _ _ _ Hold).
  - by apply cell_at_set_col_ne.
Qed.

Lemma loc_set_other mask c new (df df' : DataFrame cell) c' i :
  loc_set mask c new df = Ok df' → c ≠ c' →
  cell_at df' c' i = cell_at df c' i.
Proof. intros (old & Hold & ->)%loc_set_Ok Hne. by apply cell_at_set_col_ne. Qed.

Lemma loc_set_on mask c new (df df' : DataFrame cell) i n :
  loc_set mask c new df = Ok df' → mask !! i = Some true →
  is_Some (cell_at df c i) → new !! i = Some n →
  cell_at df' c i = Some n.
Proof.
  intros (old & Hold & ->)%loc_set_Ok Hi [o Ho] Hn.
  rewrite (cell_at_get_col _ _ _ _ Hold) in Ho.
  rewrite cell_at_set_col_eq. by eapply lookup_where_on.
Qed.

(** Rows outside the mask are left as they are. *)
Lemma rewrite_matched_off mask key_col em am df df' c i :
  rewrite_matched mask key_col em am df = Ok df' → mask !! i ≠ Some true →
  cell_at df' c i = cell_at df c i.
Proof.
  unfold rewrite_matched. intros H Hi. inv_result.
  rewrite <-(loc_set_off _ _ _ _ _ c i Hx0 Hi).
  case_match; inv_result; [|done].
  by apply (loc_set_off _ _ _ _ _ c i H Hi).
Qed.



Lemma strategy2_mask df mapping remaining t2 m2 i :
  strategy2 df mapping remaining = Ok t2 →
  t2_simple_match_mask t2 = Some m2 → m2 !! i = Some true →
  remaining !! i = Some true.
Proof.
  unfold strategy2. intros H. case_match; inv_result; [|done].
  case_match; inv_result; simpl; intros [= <-] Hm; by apply mask_and_sub in Hm.
Qed.

Lemma cell_at_cleanup df c i :
  c ∉ transient_cols → cell_at (cleanup df) c i = cell_at df c i.
Proof. intros Hc. unfold cell_at. by rewrite assoc_get_cleanup. Qed.

Lemma mapM_result_length {A B : Type} (f : A → result B) (l : list A) (l' : list B) :
  mapM f l = Ok l' → length l' = length l.
Proof.
  revert l'. induction l as [|x l IH]; intros l' H; simpl in H.
  - by injection H as <-.
  - inv_result. unfold mret, result_ret in H. injection H as <-.
    simpl. f_equal. by apply IH.
Qed.

Lemma wf_set_col {A : Type} (df : DataFrame A) c s :
  wf df → length s = index df → wf (set_col c s df).
Proof.
  unfold wf. simpl. intros Hwf Hlen.
  induction (data df) as [|[c' s'] l IH]; simpl.
  - by constructor.
  - apply Forall_cons in Hwf as [Hs' Hl]. case_decide.
    + by constructor.
    + constructor; [done | by apply IH].
Qed.

Lemma wf_cell_at {A : Type} (df : DataFrame A) c i :
  wf df → c ∈ columns df → i < index df → is_Some (cell_at df c i).
Proof.
  intros Hwf [s Hs]%has_col_get_col Hi.
  rewrite (cell_at_get_col _ _ _ _ Hs). apply lookup_lt_is_Some.
  by rewrite (wf_get_col _ _ _ Hwf Hs).
Qed.

Lemma convert_reason_wf ack df0 :
  wf ack → convert_reason ack = Ok df0 → wf df0.
Proof.
  unfold convert_reason. intros Hwf H. case_match; inv_result; [|done].
  apply wf_set_col; [done|]. rewrite length_fmap, (mapM_result_length _ _ _ Hx0).
  by apply (wf_get_col _ _ _ Hwf Hx).
Qed.

Lemma record_composite_keys_length df rkeys :
  wf df → record_composite_keys df = Ok rkeys → length rkeys = index df.
Proof.
  unfold record_composite_keys. intros Hwf H. inv_result.
  rewrite length_zip_with, (wf_get_col _ _ _ Hwf Hx), (wf_get_col _ _ _ Hwf Hx0).
  lia.
Qed.

Lemma length_mask_and (m1 m2 : list bool) :
  length (mask_and m1 m2) = length m1 `min` length m2.
Proof. unfold mask_and. by rewrite length_zip_with. Qed.

Lemma length_upper_eq lit s : length (upper_eq lit s) = length s.
Proof. unfold upper_eq. by rewrite length_fmap. Qed.

(** The rows left to strategy 2 are the error rows strategy 1 did not
    match. *)
Lemma remaining_of_lookup df er em i :
  length er = index df →
  (∀ m1, em = Some m1 → length m1 = length er) →
  remaining_of df er em !! i = Some true ↔
  er !! i = Some true ∧ ¬ (∃ m1, em = Some m1 ∧ m1 !! i = Some true).
Proof.
  intros Hlen Hm. unfold remaining_of. rewrite lookup_mask_and, lookup_mask_not.
  simpl. split.
  - intros [Her Hmi]. split; [done|]. intros (m1 & -> & Hi). congruence.
  - intros [Her Hno]. split; [done|].
    assert (i < length er) as Hi by (by eapply lookup_lt_Some).
    destruct em as [m1|].
    + destruct (lookup_lt_is_Some_2 m1 i) as [[] Hb]; [by rewrite (Hm m1)| |done].
      exfalso. apply Hno. by exists m1.
    + apply lookup_replicate_2. lia.
Qed.



Lemma convert_reason_cell_at ack df0 c i :
  convert_reason ack = Ok df0 → c ≠ "Transaction_Reason_Text" →
  cell_at df0 c i = cell_at ack c i.
Proof.
  intros (_ & Hget & _)%convert_reason_Ok Hc. unfold cell_at. by rewrite Hget.
Qed.

Lemma convert_reason_inv ack er df0 :
  convert_reason ack = Ok df0 → engine_inv ack er df0.
Proof. intros H. eapply engine_inv_convert_reason; [done | apply engine_inv_refl]. Qed.


(** Strategy 2 reads its keys from the column it writes: the action is
    looked up under the value just written to [Error_Type]. *)
Lemma rewrite_matched_self mask em am df df' i k :
  rewrite_matched mask ERROR_TYPE_COL em am df = Ok df' →
  mask !! i = Some true →
  cell_at df ERROR_TYPE_COL i = Some k →
  (has_col CLIENT_ACTION_COL df = true → is_Some (cell_at df CLIENT_ACTION_COL i)) →
  cell_at df' ERROR_TYPE_COL i = Some (map_dict1 em k)
  ∧ (has_col CLIENT_ACTION_COL df = true →
     cell_at df' CLIENT_ACTION_COL i
     = Some (fillna1 (VStr "") (map_dict1 am (map_dict1 em k)))).
Proof.
  unfold rewrite_matched. intros H Hi Hk Hca. inv_result.
  assert (cell_at x0 ERROR_TYPE_COL i = Some (map_dict1 em k)) as Hnew.
  { eapply loc_set_on; [done..| |]; [by rewrite Hk|].
    unfold map_dict. rewrite list_lookup_fmap.
    by rewrite <-(cell_at_get_col _ _ _ _ Hx), Hk. }
  assert (has_col CLIENT_ACTION_COL x0 = has_col CLIENT_ACTION_COL df) as Hhas.
  { apply loc_set_Ok in Hx0 as (old & Hold & ->). unfold has_col.
    apply bool_decide_ext. rewrite elem_of_columns_set_col.
    apply get_col_has_col in Hold. naive_solver. }
  rewrite Hhas in H. destruct (has_col CLIENT_ACTION_COL df) eqn:Hcol; inv_result.
  - split.
    + by rewrite (loc_set_other _ _ _ _ _ ERROR_TYPE_COL i H).
    + intros _. eapply loc_set_on; [done..| |].
      * rewrite (loc_set_other _ _ _ _ _ CLIENT_ACTION_COL i Hx0) by done.
        by apply Hca.
      * unfold fillna, map_dict. rewrite !list_lookup_fmap.
        by rewrite <-(cell_at_get_col _ _ _ _ Hx1), Hnew.
  - split; [done | by intros ?].
Qed.

Lemma strategy1_off df mapping er t1 c i :
  strategy1 df mapping er = Ok t1 →
  (∀ m1, t1_error_mask t1 = Some m1 → m1 !! i ≠ Some true) →
  c ≠ "composite_key" →
  cell_at (t1_result_df t1) c i = cell_at df c i.
Proof.
  intros H Hoff Hc.
  destruct (has_col "Transaction_Reason_Text" df) eqn:Ha,
    (has_col "file_type_2" mapping) eqn:Hb;
    try (apply strategy1_skipped in H as ->; [done | by rewrite Ha, Hb]).
  destruct (strategy1_ran _ _ _ _ H Ha Hb)
    as (mkeys & rkeys & cet & cact & _ & _ & _ & _ & _ & _ & _ & Hm & Hrw).
  destruct (mask_any _).
  - rewrite (rewrite_matched_off _ _ _ _ _ _ c i Hrw) by (by apply Hoff).
    by apply cell_at_set_col_ne.
  - rewrite Hrw. by apply cell_at_set_col_ne.
Qed.

Lemma strategy1_has_col df mapping er t1 c :
  strategy1 df mapping er = Ok t1 → c ≠ "composite_key" →
  has_col c (t1_result_df t1) = has_col c df.
Proof.
  intros H Hc.
  destruct (has_col "Transaction_Reason_Text" df) eqn:Ha,
    (has_col "file_type_2" mapping) eqn:Hb;
    try (apply strategy1_skipped in H as ->; [done | by rewrite Ha, Hb]).
  destruct (strategy1_ran _ _ _ _ H Ha Hb)
    as (mkeys & rkeys & cet & cact & _ & _ & _ & _ & _ & _ & _ & Hm & Hrw).
  destruct (mask_any _).
  - rewrite (rewrite_matched_has_col _ _ _ _ _ _ c Hrw).
    by apply has_col_set_col_ne.
  - rewrite Hrw. by apply has_col_set_col_ne.
Qed.

(** What strategy 2 binds when it runs. *)
Lemma strategy2_ran df mapping remaining t2 m2 :
  strategy2 df mapping remaining = Ok t2 →
  t2_simple_match_mask t2 = Some m2 →
  ∃ keys cet cact et,
    get_col "Error_Type" mapping = Ok keys
    ∧ get_col "Client_Error_Type" mapping = Ok cet
    ∧ get_col "Client Action" mapping = Ok cact
    ∧ get_col ERROR_TYPE_COL df = Ok et
    ∧ t2_simple_error_mapping t2 = Some (dict_zip keys cet)
    ∧ t2_simple_action_mapping t2 = Some (dict_zip keys cact)
    ∧ m2 = mask_and remaining (isin (dict_zip keys cet) et)
    ∧ (if mask_any m2
       then rewrite_matched m2 ERROR_TYPE_COL (dict_zip keys cet)
              (dict_zip keys cact) df = Ok (t2_result_df t2)
       else t2_result_df t2 = df).
Proof.
  unfold strategy2, mapping_dict. intros H Hm2.
  destruct (mask_any remaining).
  2: { injection H as <-. discriminate Hm2. }
  apply bind_Ok in H as (sem & Hsem & H).
  apply bind_Ok in Hsem as (keys & Hkeys & Hsem).
  apply bind_Ok in Hsem as (cet & Hcet & Hsem). injection Hsem as <-.
  apply bind_Ok in H as (sam & Hsam & H).
  apply bind_Ok in Hsam as (keys' & Hkeys' & Hsam).
  apply bind_Ok in Hsam as (cact & Hcact & Hsam). injection Hsam as <-.
  apply bind_Ok in H as (et & Het & H).
  assert (keys' = keys) as -> by congruence.
  exists keys, cet, cact, et.
  destruct (mask_any (mask_and remaining (isin (dict_zip keys cet) et))) eqn:Hany.
  - apply bind_Ok in H as (df' & Hrw & H). injection H as <-. simpl in *.
    injection Hm2 as <-. rewrite Hany. by split_and!.
  - injection H as <-. simpl in *. injection Hm2 as <-. rewrite Hany.
    by split_and!.
Qed.

(** X10: what the fallback does to a row it matches, in a run that reaches
    the last line: [Error_Type] becomes the [Client_Error_Type] the simple
    index holds for the row's original [Error_Type]; [Client_Action]
    becomes the action the index holds for that new value, or the empty
    string when the new value is no key. *)
Lemma fallback_rewrite (ack : DataFrame cell) (mapping : DataFrame string)
    (l : locals) (m2 : list bool) (i : nat) :
  wf ack →
  apply_error_mapping_body ack mapping = Ok (Mapped l) →
  simple_match_mask l = Some m2 → m2 !! i = Some true →
  ∃ sem sam k v,
    simple_error_mapping l = Some sem ∧ simple_action_mapping l = Some sam
    ∧ cell_at ack ERROR_TYPE_COL i = Some (VStr k)
    ∧ sem !! k = Some v
    ∧ cell_at (result_df l) ERROR_TYPE_COL i = Some (VStr v)
    ∧ (CLIENT_ACTION_COL ∈ columns ack →
       cell_at (result_df l) CLIENT_ACTION_COL i
       = Some (VStr (default "" (sam !! v)))).
Proof.
  intros Hwf Hbody Hm2 Hi.
  destruct (body_mapped _ _ _ Hbody)
    as (is_error & df0 & t1 & t2 & HET & Hie & Her & Hany & H0 & H1 & Hrem & H2
        & Hem & _ & _ & Hsm & Hsem & Hsam & Hres).
  rewrite Hsm in Hm2. rewrite Hsem, Hsam, Hres.
  assert (remaining_errors l !! i = Some true) as Hrow by (by eapply strategy2_mask).
  assert (i < index ack) as Hlt.
  { rewrite Hrem in Hrow. apply remaining_of_sub in Hrow.
    apply lookup_lt_Some in Hrow.
    by rewrite Her, length_upper_eq, (wf_get_col _ _ _ Hwf Hie) in Hrow. }
  assert (∀ m1, t1_error_mask t1 = Some m1 → m1 !! i ≠ Some true) as Hoff.
  { intros m1 Hm1 Hon. rewrite Hrem, Hm1 in Hrow. unfold remaining_of in Hrow.
    apply lookup_mask_and in Hrow as [_ Hnot].
    apply lookup_mask_not in Hnot. simpl in Hnot. congruence. }
  assert ((ERROR_TYPE_COL ∉ transient_cols) ∧ (CLIENT_ACTION_COL ∉ transient_cols))
    as [Hnt1 Hnt2] by (unfold transient_cols; set_solver).
  assert (∀ c, c ∉ transient_cols →
               cell_at (t1_result_df t1) c i = cell_at ack c i) as Hsame.
  { intros c Hc. unfold transient_cols in Hc.
    rewrite (strategy1_off _ _ _ _ c i H1 Hoff) by set_solver.
    apply (convert_reason_cell_at _ _ _ _ H0). set_solver. }
  assert (has_col CLIENT_ACTION_COL (t1_result_df t1) = true ↔
          CLIENT_ACTION_COL ∈ columns ack) as Hhas.
  { rewrite (strategy1_has_col _ _ _ _ CLIENT_ACTION_COL H1) by done.
    rewrite has_col_true. unfold columns. rewrite <-!assoc_get_is_Some.
    apply convert_reason_Ok in H0 as (_ & Hget & _). by rewrite Hget. }
  destruct (strategy2_ran _ _ _ _ _ H2 Hm2)
    as (keys & cet & cact & et & _ & _ & _ & Het & Hd1 & Hd2 & -> & Hrw).
  rewrite (proj2 (mask_any_true _) (ex_intro _ i Hi)) in Hrw.
  apply lookup_mask_and in Hi as Hi'. destruct Hi' as [_ Hin].
  apply isin_lookup in Hin as (k & Hk & [v Hv]).
  rewrite <-(cell_at_get_col _ _ _ _ Het) in Hk.
  destruct (rewrite_matched_self _ _ _ _ _ i (VStr k) Hrw Hi Hk) as [Hnew1 Hnew2].
  { intros Hc%Hhas. rewrite Hsame by done. by apply wf_cell_at. }
  exists (dict_zip keys cet), (dict_zip keys cact), k, v. split_and!; try done.
  - by rewrite <-Hsame.
  - rewrite cell_at_cleanup, Hnew1 by done. simpl. by rewrite Hv.
  - intros Hca%Hhas. rewrite cell_at_cleanup, Hnew2 by done.
    simpl. rewrite Hv. simpl. by destruct (dict_zip keys cact !! v).
Qed.



(** The run of the witness: the row matched by both indexes takes the
    composite rule's values, the other error row the fallback's. *)
Lemma two_tier_run :
  apply_error_mapping two_tier_ack two_tier_mapping
  = mkDataFrame 3 [("Error_Type", [VStr "E1-Sales"; VStr "E2"; VStr "ERR1"]);
                   ("isError", [VStr "TRUE"; VStr "True"; VStr "FALSE"]);
                   ("Transaction_Reason", [VInt 1; VInt 2; VInt 1]);
                   ("Client_Action", [VStr "Resubmit"; VStr ""; VNaN])].
Proof. vm_compute. reflexivity. Qed.


(** ** Record Transform Pipeline: rows and column order *)

Lemma order_kept_refl l : order_kept l l.
Proof. done. Qed.

Lemma filter_elem_of_self (l : list string) (P : string → Prop) `{∀ x, Decision (P x)} :
  (∀ c, c ∈ l → P c) → filter P l = l.
Proof.
  intros HP. induction l as [|x l IH]; [done|].
  rewrite filter_cons_True by (apply HP; left).
  rewrite IH; [done|]. intros c Hc. apply HP. by right.
Qed.

Lemma filter_ext_elem_of (l : list string) (P Q : string → Prop)
    `{∀ x, Decision (P x)} `{∀ x, Decision (Q x)} :
  (∀ c, c ∈ l → P c ↔ Q c) → filter P l = filter Q l.
Proof.
  intros HPQ. induction l as [|x l IH]; [done|]. rewrite !filter_cons.
  assert (filter P l = filter Q l) as -> by (apply IH; intros c Hc; apply HPQ; by right).
  pose proof (HPQ x (list_elem_of_here _ _)) as Hx.
  destruct (decide (P x)) as [HP|HP], (decide (Q x)) as [HQ|HQ]; try done; tauto.
Qed.

(** Dropping columns keeps the order of the others. *)
Lemma order_kept_filter (l : list string) (Q : string → Prop) `{∀ x, Decision (Q x)} :
  order_kept l (filter Q l).
Proof.
  unfold order_kept. rewrite filter_elem_of_self.
  - symmetry. apply filter_ext_elem_of. intros c Hc.
    rewrite list_elem_of_filter. naive_solver.
  - intros c [_ Hc]%list_elem_of_filter. done.
Qed.

(** Inserting a new column keeps the order of the others. *)
Lemma order_kept_insert_at (l : list string) x i :
  x ∉ l → order_kept l (insert_at i x l).
Proof.
  intros Hx. unfold order_kept, insert_at.
  rewrite filter_app, filter_cons_False by done. rewrite <-filter_app, take_drop.
  rewrite !filter_elem_of_self; [done| |done].
  intros c Hc. rewrite <-(take_drop i l) in Hc. set_solver.
Qed.

Lemma order_kept_snoc (l : list string) x :
  x ∉ l → order_kept l (l ++ [x]).
Proof.
  intros Hx. unfold order_kept.
  rewrite filter_app, filter_cons_False, filter_nil, app_nil_r by done.
  rewrite !filter_elem_of_self; [done| |done]. set_solver.
Qed.

Lemma order_kept_set_col (df : DataFrame cell) c s :
  order_kept (columns df) (columns (set_col c s df)).
Proof.
  rewrite columns_set_col. case_decide; [done|]. by apply order_kept_snoc.
Qed.

Lemma raise_foldl {A B : Type} (f : result A → B → result A) (l : list B) e :
  (∀ e b, f (Raise e) b = Raise e) → foldl f (Raise e) l = Raise e.
Proof. intros Hf. induction l as [|b l IH]; simpl; [done|]. by rewrite Hf. Qed.

(** *** The steps, one by one *)

Lemma drop_general_spec df :
  index (drop_general df) = index df
  ∧ order_kept (columns df) (columns (drop_general df))
  ∧ (∀ c, c ∉ columns_to_drop_general →
          assoc_get c (data (drop_general df)) = assoc_get c (data df)).
Proof.
  unfold drop_general. case_bool_decide; [|by split_and!].
  split_and!.
  - done.
  - rewrite columns_drop_cols. apply order_kept_filter.
  - intros c Hc. apply assoc_get_drop_cols.
    intros [_ ?]%list_elem_of_filter. done.
Qed.

Lemma handle_source_filename_spec s df :
  index (handle_source_filename s df) = index df
  ∧ order_kept (columns df) (columns (handle_source_filename s df))
  ∧ (∀ c, c ≠ SOURCE_FILENAME_COL →
          assoc_get c (data (handle_source_filename s df)) = assoc_get c (data df)).
Proof.
  unfold handle_source_filename.
  destruct (has_col SOURCE_FILENAME_COL df) eqn:Hsf; simpl.
  - split_and!; [done | apply order_kept_set_col |].
    intros c Hc. by apply assoc_get_set_ne.
  - apply has_col_false in Hsf.
    destruct (has_col ORIGINAL_CONTRACT_NUMBER_COL df).
    + split_and!; [done | |].
      * rewrite columns_insert_col. by apply order_kept_insert_at.
      * intros c Hc. by apply assoc_get_insert_at_ne.
    + split_and!; [done | apply order_kept_set_col |].
      intros c Hc. by apply assoc_get_set_ne.
Qed.

Lemma handle_client_action_spec df :
  index (handle_client_action df) = index df
  ∧ order_kept (columns df) (columns (handle_client_action df))
  ∧ (∀ c, c ≠ CLIENT_ACTION_COL →
          assoc_get c (data (handle_client_action df)) = assoc_get c (data df)).
Proof.
  unfold handle_client_action.
  destruct (has_col CLIENT_ACTION_COL df) eqn:Hca; simpl; [by split_and!|].
  apply has_col_false in Hca.
  destruct (has_col ERROR_MESSAGE_COL df).
  - split_and!; [done | |].
    + rewrite columns_insert_col. by apply order_kept_insert_at.
    + intros c Hc. by apply assoc_get_insert_at_ne.
  - split_and!; [done | apply order_kept_set_col |].
    intros c Hc. by apply assoc_get_set_ne.
Qed.

Lemma astype_str_col_spec col df df' :
  astype_str_col col df = Ok df' →
  index df' = index df ∧ columns df' = columns df
  ∧ (∀ c, c ≠ col → assoc_get c (data df') = assoc_get c (data df)).
Proof.
  unfold astype_str_col. intros H. inv_result. split_and!.
  - done.
  - apply columns_set_col_in. by eapply get_col_has_col.
  - intros c Hc. by apply assoc_get_set_ne.
Qed.

Lemma loc_set_spec mask col new (df df' : DataFrame cell) :
  loc_set mask col new df = Ok df' →
  index df' = index df ∧ columns df' = columns df
  ∧ (∀ c, c ≠ col → assoc_get c (data df') = assoc_get c (data df)).
Proof.
  intros (old & Hold & ->)%loc_set_Ok. split_and!.
  - done.
  - apply columns_set_col_in. by eapply get_col_has_col.
  - intros c Hc. by apply assoc_get_set_ne.
Qed.

Lemma cosign_clear_pii_spec mask df df' :
  cosign_clear_pii mask df = Ok df' →
  index df' = index df ∧ columns df' = columns df
  ∧ (∀ c, c ∉ COSIGN_PII_COLUMNS → assoc_get c (data df') = assoc_get c (data df)).
Proof.
  unfold cosign_clear_pii. generalize COSIGN_PII_COLUMNS as cols.
  intros cols. revert df. induction cols as [|col cols IH]; intros df H; simpl in H.
  - by injection H as <-.
  - destruct (has_col col df) eqn:Hcol.
    + destruct (astype_str_col col df) as [df1|e] eqn:H1; simpl in H;
        [|rewrite raise_foldl in H; done].
      destruct (loc_set mask col (replicate (index df1) (VStr "")) df1)
        as [df2|e] eqn:H2; [|rewrite raise_foldl in H; done].
      apply IH in H as (Hi & Hc & Hg).
      apply astype_str_col_spec in H1 as (Hi1 & Hc1 & Hg1).
      apply loc_set_spec in H2 as (Hi2 & Hc2 & Hg2).
      split_and!; [congruence | congruence|].
      intros c Hnin. apply not_elem_of_cons in Hnin as [Hne Hnin].
      rewrite Hg, Hg2, Hg1; done.
    + apply IH in H as (Hi & Hc & Hg). split_and!; [done..|].
      intros c Hnin. apply not_elem_of_cons in Hnin as [Hne Hnin]. by apply Hg.
Qed.

Lemma select_spec cols (df df' : DataFrame cell) :
  select cols df = Ok df' →
  index df' = index df ∧ columns df' = cols
  ∧ (∀ c, c ∈ cols → assoc_get c (data df') = assoc_get c (data df)).
Proof.
  unfold select. intros H. inv_result. simpl. split; [done|].
  unfold columns. simpl.
  revert x Hx. induction cols as [|c cols IH]; intros d Hd; simpl in Hd.
  - injection Hd as <-. split; [done|]. by intros c ?%elem_of_nil.
  - inv_result. unfold mret, result_ret in Hd. injection Hd as <-.
    destruct (IH _ Hx0) as [Hcols Hget]. split.
    + rewrite fmap_cons. simpl. by rewrite Hcols.
    + intros c' Hc'. simpl. case_decide as Hc; subst.
      * symmetry. by apply get_col_Ok.
      * apply Hget. apply elem_of_cons in Hc' as [?|?]; done.
Qed.

Lemma elem_of_insert_at {B : Type} (l : list B) i x y :
  y ∈ insert_at i x l ↔ y = x ∨ y ∈ l.
Proof.
  unfold insert_at. rewrite elem_of_app, elem_of_cons.
  rewrite <-(take_drop i l) at 3. rewrite elem_of_app. naive_solver.
Qed.

Lemma filter_ne_insert_at (l : list string) i x :
  filter (λ c, c ≠ x) (insert_at i x l) = filter (λ c, c ≠ x) l.
Proof.
  unfold insert_at. rewrite filter_app, filter_cons_False by naive_solver.
  by rewrite <-filter_app, take_drop.
Qed.

Lemma cosign_reorder_spec df df' :
  cosign_reorder df = Ok df' →
  index df' = index df
  ∧ filter (λ c, c ≠ SOURCE_FILENAME_COL) (columns df')
    = filter (λ c, c ≠ SOURCE_FILENAME_COL) (columns df)
  ∧ (∀ c, c ∈ columns df → c ≠ SOURCE_FILENAME_COL →
          assoc_get c (data df') = assoc_get c (data df)).
Proof.
  unfold cosign_reorder. intros H.
  destruct (has_col SOURCE_FILENAME_COL df) eqn:Hsf; simpl in H; [|by inv_result].
  destruct (has_col INCOMING_CLIENT_FILENAME_COL df); [|by inv_result].
  case_bool_decide; [|by inv_result].
  apply has_col_true in Hsf.
  destruct (get_loc_split _ _ Hsf) as (before & after & Hcols & _ & Hloc).
  unfold pop in H. rewrite Hloc, Hcols in H.
  rewrite list_lookup_middle in H by done. simpl in H.
  rewrite delete_middle in H.
  apply select_spec in H as (Hidx & Hc & Hget). split_and!.
  - done.
  - rewrite Hc, filter_ne_insert_at, Hcols, !filter_app.
    by rewrite filter_cons_False by naive_solver.
  - intros c Hin Hne. apply Hget. apply elem_of_insert_at. right.
    rewrite Hcols in Hin. set_solver.
Qed.

Lemma cosign_step_spec df df' :
  cosign_step df = Ok df' →
  index df' = index df
  ∧ filter (λ c, c ≠ SOURCE_FILENAME_COL) (columns df')
    = filter (λ c, c ≠ SOURCE_FILENAME_COL) (columns df)
  ∧ (∀ c, c ∈ columns df → c ≠ SOURCE_FILENAME_COL → c ∉ COSIGN_PII_COLUMNS →
          assoc_get c (data df') = assoc_get c (data df)).
Proof.
  unfold cosign_step. intros H.
  destruct (has_col AGENT_NUMBER_COL df); [|by inv_result].
  inv_result. case_bool_decide; [|by inv_result]. inv_result.
  apply cosign_clear_pii_spec in Hx1 as (Hi1 & Hc1 & Hg1).
  apply cosign_reorder_spec in H as (Hi2 & Hc2 & Hg2).
  split_and!; [congruence | congruence |].
  intros c Hin Hne Hnp. rewrite Hg2; [by apply Hg1 | by rewrite Hc1 | done].
Qed.

Lemma remove_customer_pii_fold cols df df' :
  foldl (λ acc col,
           df ← acc;
           df ← astype_str_col col df;
           Ok (set_scalar col (VStr "") df))
        (Ok df) cols = Ok df' →
  index df' = index df ∧ columns df' = columns df
  ∧ (∀ c, c ∉ cols → assoc_get c (data df') = assoc_get c (data df)).
Proof.
  revert df. induction cols as [|col cols IH]; intros df H; simpl in H.
  - by injection H as <-.
  - destruct (astype_str_col col df) as [df1|e] eqn:H1; simpl in H;
      [|rewrite raise_foldl in H; done].
    apply IH in H as (Hi & Hc & Hg).
    apply astype_str_col_spec in H1 as H1'. destruct H1' as (Hi1 & Hc1 & Hg1).
    split_and!.
    + simpl in Hi. congruence.
    + rewrite Hc. unfold set_scalar. rewrite columns_set_col_in; [done|].
      rewrite Hc1. unfold astype_str_col in H1. inv_result.
      by eapply get_col_has_col.
    + intros c Hnin. apply not_elem_of_cons in Hnin as [Hne Hnin].
      rewrite Hg by done. unfold set_scalar.
      rewrite assoc_get_set_col_ne by done. by apply Hg1.
Qed.

Lemma remove_customer_pii_spec df df' :
  remove_customer_pii df = Ok df' →
  index df' = index df ∧ columns df' = columns df
  ∧ (∀ c, c ∉ pii_columns_customer →
          assoc_get c (data df') = assoc_get c (data df)).
Proof.
  unfold remove_customer_pii. intros (Hi & Hc & Hg)%remove_customer_pii_fold.
  split_and!; [done..|]. intros c Hnin. apply Hg.
  intros [_ ?]%list_elem_of_filter. done.
Qed.

Lemma map_cells_spec (f : cell → cell) df :
  index (map_cells f df) = index df
  ∧ columns (map_cells f df) = columns df
  ∧ (∀ c, assoc_get c (data (map_cells f df))
          = (λ s : list cell, f <$> s) <$> assoc_get c (data df)).
Proof.
  split_and!; [done | |].
  - unfold columns, map_cells. simpl. rewrite <-list_fmap_compose.
    by apply list_fmap_ext.
  - intros c. unfold map_cells. simpl.
    induction (data df) as [|[c' s'] l IH]; [done|]. simpl.
    by case_decide.
Qed.

(** The engine: index, column order and the columns it does not write. *)
Lemma apply_error_mapping_spec ack mapping :
  index (apply_error_mapping ack mapping) = index ack
  ∧ order_kept (columns ack) (columns (apply_error_mapping ack mapping))
  ∧ (∀ c, c ∈ columns (apply_error_mapping ack mapping) → c ∈ columns ack)
  ∧ (∀ c, c ∉ transient_cols → c ≠ ERROR_TYPE_COL → c ≠ CLIENT_ACTION_COL →
          assoc_get c (data (apply_error_mapping ack mapping))
          = assoc_get c (data ack)).
Proof.
  destruct (apply_error_mapping_cases ack mapping) as [-> | (l & Hbody & ->)].
  { by split_and!. }
  destruct (body_mapped_inv _ _ _ Hbody) as (df & (Hidx & Hcols & Hcells) & ->).
  split_and!.
  - by rewrite index_cleanup.
  - rewrite columns_cleanup, Hcols. apply order_kept_filter.
  - intros c. rewrite columns_cleanup, Hcols. by intros [_ ?]%list_elem_of_filter.
  - intros c Hnt H1 H2. rewrite assoc_get_cleanup by done.
    specialize (Hcells c Hnt).
    inversion Hcells as [s s' [_ Heq] Hs Hs' | Hs Hs']; [|done].
    by rewrite Heq.
Qed.

(** *** Column order across steps *)

Lemma filter_comm (P Q : string → Prop)
    `{∀ x, Decision (P x)} `{∀ x, Decision (Q x)} (l : list string) :
  filter P (filter Q l) = filter Q (filter P l).
Proof. rewrite !list_filter_filter. apply list_filter_iff. naive_solver. Qed.

(** Order is kept across two steps when no column that the first step
    removed comes back in the second. *)
Lemma order_kept_trans (l1 l2 l3 : list string) :
  order_kept l1 l2 → order_kept l2 l3 →
  (∀ c, c ∈ l1 → c ∈ l3 → c ∈ l2) →
  order_kept l1 l3.
Proof.
  unfold order_kept. intros H12 H23 Hback.
  transitivity (filter (λ c, c ∈ l1) (filter (λ c, c ∈ l2) l3)).
  { rewrite list_filter_filter. apply filter_ext_elem_of. naive_solver. }
  rewrite H23, filter_comm, H12, list_filter_filter.
  apply filter_ext_elem_of. naive_solver.
Qed.

(** Leaving one label out of both lists keeps the order. *)
Lemma order_kept_without (x : string) (l l' : list string) :
  order_kept l l' →
  order_kept (filter (λ c, c ≠ x) l) (filter (λ c, c ≠ x) l').
Proof.
  unfold order_kept. intros H.
  transitivity (filter (λ c, c ≠ x) (filter (λ c, c ∈ l) l')).
  { rewrite filter_comm, !list_filter_filter. apply list_filter_iff.
    intros c. rewrite list_elem_of_filter. naive_solver. }
  rewrite H, filter_comm, !list_filter_filter. apply list_filter_iff.
  intros c. rewrite list_elem_of_filter. naive_solver.
Qed.

Lemma handle_source_filename_others s df :
  filter (λ c, c ≠ SOURCE_FILENAME_COL) (columns (handle_source_filename s df))
  = filter (λ c, c ≠ SOURCE_FILENAME_COL) (columns df).
Proof.
  unfold handle_source_filename.
  assert (∀ v (d : DataFrame cell),
            filter (λ c, c ≠ SOURCE_FILENAME_COL)
              (columns (set_scalar SOURCE_FILENAME_COL v d))
            = filter (λ c, c ≠ SOURCE_FILENAME_COL) (columns d)) as Hset.
  { intros v d. unfold set_scalar. rewrite columns_set_col. case_decide; [done|].
    rewrite filter_app, filter_cons_False, filter_nil by naive_solver.
    apply app_nil_r. }
  destruct (has_col SOURCE_FILENAME_COL df); simpl; [apply Hset|].
  destruct (has_col ORIGINAL_CONTRACT_NUMBER_COL df); [|apply Hset].
  rewrite columns_insert_col. apply filter_ne_insert_at.
Qed.

Lemma handle_client_action_columns df c :
  c ∈ columns (handle_client_action df) → c = CLIENT_ACTION_COL ∨ c ∈ columns df.
Proof.
  unfold handle_client_action.
  destruct (has_col CLIENT_ACTION_COL df); simpl; [by right|].
  destruct (has_col ERROR_MESSAGE_COL df).
  - rewrite columns_insert_col. by intros ?%elem_of_insert_at.
  - unfold set_scalar. by intros ?%elem_of_columns_set_col.
Qed.

Lemma drop_general_columns df c :
  c ∈ columns (drop_general df) ↔
  c ∈ columns df ∧ (c ∉ columns_to_drop_general).
Proof.
  unfold drop_general. case_bool_decide as Hex.
  - rewrite columns_drop_cols, list_elem_of_filter, list_elem_of_filter. tauto.
  - split; [|by intros [? _]]. intros Hc. split; [done|]. intros Hd.
    assert (c ∈ filter (λ col, col ∈ columns df) columns_to_drop_general) as Hin
      by (by apply list_elem_of_filter).
    rewrite Hex in Hin. by apply elem_of_nil in Hin.
Qed.

(** ** Well-formed frames stay well-formed *)

Lemma wf_drop_cols {A : Type} names (df : DataFrame A) :
  wf df → wf (drop_cols names df).
Proof.
  unfold wf. simpl. intros Hwf. induction (data df) as [|p l IH]; [done|].
  apply Forall_cons in Hwf as [Hp Hl]. rewrite filter_cons.
  case_decide; [constructor|]; auto.
Qed.

Lemma wf_insert_col {A : Type} i c v (df : DataFrame A) :
  wf df → wf (insert_col i c v df).
Proof.
  unfold wf, insert_col, insert_at. simpl. intros Hwf.
  apply Forall_app. split; [by apply Forall_take|].
  constructor; [simpl; by rewrite length_replicate | by apply Forall_drop].
Qed.

Lemma wf_set_scalar {A : Type} c v (df : DataFrame A) :
  wf df → wf (set_scalar c v df).
Proof. intros Hwf. apply wf_set_col; [done | by rewrite length_replicate]. Qed.

Lemma wf_loc_set mask c new (df df' : DataFrame cell) :
  wf df → loc_set mask c new df = Ok df' → wf df'.
Proof.
  intros Hwf (old & Hold & ->)%loc_set_Ok. apply wf_set_col; [done|].
  rewrite length_where_. by eapply wf_get_col.
Qed.

Lemma wf_map_cells (f : cell → cell) df : wf df → wf (map_cells f df).
Proof.
  unfold wf, map_cells. simpl. intros Hwf. apply Forall_fmap.
  eapply Forall_impl; [done|]. intros [c s] Hs. simpl in *. by rewrite length_fmap.
Qed.

Lemma wf_select cols (df df' : DataFrame cell) :
  wf df → select cols df = Ok df' → wf df'.
Proof.
  unfold select. intros Hwf H. inv_result. unfold wf. simpl.
  revert x Hx. induction cols as [|c cols IH]; intros d Hd; simpl in Hd.
  - injection Hd as <-. constructor.
  - inv_result. unfold mret, result_ret in Hd. injection Hd as <-.
    constructor; [simpl; by eapply wf_get_col | by apply IH].
Qed.

Lemma wf_astype_str_col col df df' :
  wf df → astype_str_col col df = Ok df' → wf df'.
Proof.
  unfold astype_str_col. intros Hwf H. inv_result. apply wf_set_col; [done|].
  rewrite length_fmap. by eapply wf_get_col.
Qed.

Lemma wf_rewrite_matched mask key_col em am df df' :
  wf df → rewrite_matched mask key_col em am df = Ok df' → wf df'.
Proof.
  unfold rewrite_matched. intros Hwf H. inv_result.
  apply (wf_loc_set _ _ _ _ _ Hwf) in Hx0.
  case_match; inv_result; [|done]. by eapply wf_loc_set.
Qed.

Lemma wf_strategy1 df mapping er t1 :
  wf df → strategy1 df mapping er = Ok t1 → wf (t1_result_df t1).
Proof.
  intros Hwf H.
  destruct (has_col "Transaction_Reason_Text" df) eqn:Ha,
    (has_col "file_type_2" mapping) eqn:Hb;
    try (apply strategy1_skipped in H as ->; [done | by rewrite Ha, Hb]).
  destruct (strategy1_ran _ _ _ _ H Ha Hb)
    as (mkeys & rkeys & cet & cact & _ & Hrk & _ & _ & _ & _ & _ & _ & Hrw).
  assert (wf (set_col "composite_key" rkeys df)) as Hwf'.
  { apply wf_set_col; [done|]. by apply record_composite_keys_length. }
  destruct (mask_any _); [by eapply wf_rewrite_matched | by rewrite Hrw].
Qed.

Lemma wf_strategy2 df mapping remaining t2 :
  wf df → strategy2 df mapping remaining = Ok t2 → wf (t2_result_df t2).
Proof.
  unfold strategy2. intros Hwf H. case_match; inv_result; [|done].
  case_match; inv_result; simpl; [|done]. by eapply wf_rewrite_matched.
Qed.

Lemma wf_cleanup df : wf df → wf (cleanup df).
Proof.
  intros Hwf. unfold cleanup.
  repeat case_match; repeat apply wf_drop_cols; done.
Qed.

Lemma wf_apply_error_mapping ack mapping :
  wf ack → wf (apply_error_mapping ack mapping).
Proof.
  intros Hwf.
  destruct (apply_error_mapping_cases ack mapping) as [-> | (l & Hbody & ->)]; [done|].
  apply body_mapped in Hbody
    as (is_error & df0 & t1 & t2 & _ & _ & _ & _ & H0 & H1 & _ & H2 & Hrest).
  destruct Hrest as (_ & _ & _ & _ & _ & _ & ->).
  apply wf_cleanup. eapply wf_strategy2; [|done].
  eapply wf_strategy1; [|done]. by eapply convert_reason_wf.
Qed.

Lemma wf_drop_general df : wf df → wf (drop_general df).
Proof. intros Hwf. unfold drop_general. case_match; [by apply wf_drop_cols | done]. Qed.

Lemma wf_handle_source_filename s df : wf df → wf (handle_source_filename s df).
Proof.
  intros Hwf. unfold handle_source_filename.
  repeat case_match; by first [apply wf_insert_col | apply wf_set_scalar].
Qed.

Lemma wf_handle_client_action df : wf df → wf (handle_client_action df).
Proof.
  intros Hwf. unfold handle_client_action.
  repeat case_match; by first [apply wf_insert_col | apply wf_set_scalar | idtac].
Qed.

Lemma wf_cosign_clear_pii mask df df' :
  wf df → cosign_clear_pii mask df = Ok df' → wf df'.
Proof.
  unfold cosign_clear_pii. generalize COSIGN_PII_COLUMNS as cols.
  intros cols. revert df. induction cols as [|col cols IH]; intros df Hwf H; simpl in H.
  - by injection H as <-.
  - destruct (has_col col df) eqn:Hcol; [|by eapply IH].
    destruct (astype_str_col col df) as [df1|e] eqn:H1; simpl in H;
      [|rewrite raise_foldl in H; done].
    destruct (loc_set mask col (replicate (index df1) (VStr "")) df1)
      as [df2|e] eqn:H2; [|rewrite raise_foldl in H; done].
    eapply IH; [|done]. eapply wf_loc_set; [|done]. by eapply wf_astype_str_col.
Qed.

Lemma wf_cosign_step df df' : wf df → cosign_step df = Ok df' → wf df'.
Proof.
  unfold cosign_step, cosign_reorder. intros Hwf H.
  destruct (has_col AGENT_NUMBER_COL df); [|by inv_result].
  inv_result. case_bool_decide; [|by inv_result]. inv_result.
  apply (wf_cosign_clear_pii _ _ _ Hwf) in Hx1.
  repeat (case_match; inv_result; try done).
  by eapply wf_select.
Qed.

Lemma wf_remove_customer_pii df df' :
  wf df → remove_customer_pii df = Ok df' → wf df'.
Proof.
  unfold remove_customer_pii.
  generalize (filter (λ col, col ∈ columns df) pii_columns_customer) as cols.
  intros cols. revert df. induction cols as [|col cols IH]; intros df Hwf H; simpl in H.
  - by injection H as <-.
  - destruct (astype_str_col col df) as [df1|e] eqn:H1; simpl in H;
      [|rewrite raise_foldl in H; done].
    eapply IH; [|done]. apply wf_set_scalar. by eapply wf_astype_str_col.
Qed.

(** ** Record Transform Pipeline: the whole run *)

(** Step 4b moves [Source_Filename] in front of
    [incoming_client_filename], for every row of the file; rows stay in
    place, and only the COSIGN row loses its property address. *)
Lemma cosign_moves_source_filename :
  process_csv_file cosign_df (mkConfig "BATCH1" false None)
  = Ok (mkDataFrame 2
          [("Source_Filename", [VStr "BATCH1.csv"; VStr "BATCH1.csv"]);
           ("incoming_client_filename", [VStr "in1.csv"; VStr "in2.csv"]);
           ("Original_Contract_Number", [VStr "17"; VStr "18"]);
           ("Agent_Number", [VStr "COSIGN"; VStr "OTHER"]);
           ("Property_Address", [VStr ""; VStr "9 Elm"]);
           ("Client_Action", [VStr ""; VStr ""])]).
Proof. vm_compute. reflexivity. Qed.

(** Scenario C, end to end. *)
Lemma scenario_C :
  process_csv_file scenario_C_df (mkConfig "BATCH1" false None)
  = Ok (mkDataFrame 2
          [("Original_Contract_Number", [VStr "17"; VStr "18"]);
           ("Source_Filename", [VStr "BATCH1.csv"; VStr "BATCH1.csv"]);
           ("Agent_Number", [VStr "A1"; VStr "A2"]);
           ("Client_Action", [VStr ""; VStr ""])]).
Proof. vm_compute. reflexivity. Qed.

(** The stages of a run that returns. *)
Lemma process_csv_file_Ok df cfg out :
  process_csv_file df cfg = Ok out →
  ∃ df3 df6,
    validate df = Ok ()
    ∧ cosign_step (handle_source_filename (global_source_filename cfg)
                     (drop_general df)) = Ok df3
    ∧ (if remove_pii cfg
       then remove_customer_pii
              (match error_mapping_df cfg with
               | Some mapping => apply_error_mapping (handle_client_action df3) mapping
               | None => handle_client_action df3
               end)
       else Ok (match error_mapping_df cfg with
                | Some mapping => apply_error_mapping (handle_client_action df3) mapping
                | None => handle_client_action df3
                end)) = Ok df6
    ∧ out = replace_nan (cast_all df6).
Proof.
  unfold process_csv_file. intros H. inv_result. destruct x. by exists x0, x1.
Qed.

(** *** The pipeline returns on every validated frame *)

Lemma mapM_result_total {A B : Type} (f : A → result B) (l : list A) :
  (∀ x, x ∈ l → ∃ y, f x = Ok y) → ∃ l', mapM f l = Ok l'.
Proof.
  induction l as [|x l IH]; intros Hf; simpl.
  - by eexists.
  - destruct (Hf x (list_elem_of_here _ _)) as [y ->]. simpl.
    destruct IH as [l' ->]; [intros z Hz; apply Hf; by right|]. by eexists.
Qed.

Lemma select_total cols (df : DataFrame cell) :
  (∀ c, c ∈ cols → c ∈ columns df) → ∃ df', select cols df = Ok df'.
Proof.
  intros Hcols. unfold select.
  destruct (mapM_result_total (λ c, s ← get_col c df; Ok (c, s)) cols) as [d ->].
  - intros c [s ->]%Hcols%has_col_get_col. by eexists.
  - by eexists.
Qed.

Lemma astype_str_col_total col df :
  col ∈ columns df → ∃ df', astype_str_col col df = Ok df'.
Proof. intros [s Hs]%has_col_get_col. unfold astype_str_col. rewrite Hs. by eexists. Qed.

Lemma loc_set_total mask col new (df : DataFrame cell) :
  col ∈ columns df → ∃ df', loc_set mask col new df = Ok df'.
Proof. intros [s Hs]%has_col_get_col. unfold loc_set. rewrite Hs. by eexists. Qed.

Lemma cosign_clear_pii_total mask df :
  ∃ df', cosign_clear_pii mask df = Ok df'.
Proof.
  unfold cosign_clear_pii. generalize COSIGN_PII_COLUMNS as cols.
  intros cols. revert df. induction cols as [|col cols IH]; intros df; simpl.
  - by eexists.
  - destruct (has_col col df) eqn:Hcol; [|apply IH].
    apply has_col_true in Hcol.
    destruct (astype_str_col_total col df Hcol) as [df1 H1]. rewrite H1. simpl.
    apply astype_str_col_spec in H1 as (_ & Hc1 & _).
    destruct (loc_set_total mask col (replicate (index df1) (VStr "")) df1)
      as [df2 ->]; [by rewrite Hc1 | apply IH].
Qed.

Lemma cosign_reorder_total df : ∃ df', cosign_reorder df = Ok df'.
Proof.
  unfold cosign_reorder.
  destruct (has_col SOURCE_FILENAME_COL df) eqn:Hsf; simpl; [|by eexists].
  destruct (has_col INCOMING_CLIENT_FILENAME_COL df); [|by eexists].
  case_bool_decide; [|by eexists].
  apply has_col_true in Hsf.
  destruct (get_loc_split _ _ Hsf) as (before & after & Hcols & _ & Hloc).
  unfold pop. rewrite Hloc, Hcols.
  rewrite list_lookup_middle by done. simpl. rewrite delete_middle.
  apply select_total. intros c [->|Hc]%elem_of_insert_at; [done|].
  rewrite Hcols. set_solver.
Qed.

Lemma cosign_step_total df : ∃ df', cosign_step df = Ok df'.
Proof.
  unfold cosign_step.
  destruct (has_col AGENT_NUMBER_COL df) eqn:Hag; [|by eexists].
  apply has_col_true, has_col_get_col in Hag as [agent ->]. simpl.
  case_bool_decide; [|by eexists].
  destruct (cosign_clear_pii_total (upper_eq "COSIGN" agent) df) as [df1 ->]. simpl.
  apply cosign_reorder_total.
Qed.

Lemma remove_customer_pii_total df : ∃ df', remove_customer_pii df = Ok df'.
Proof.
  unfold remove_customer_pii.
  assert (∀ c, c ∈ filter (λ col, col ∈ columns df) pii_columns_customer →
               c ∈ columns df) as Hin.
  { by intros c [? _]%list_elem_of_filter. }
  revert Hin. generalize (filter (λ col, col ∈ columns df) pii_columns_customer).
  intros cols. revert df. induction cols as [|col cols IH]; intros df Hin; simpl.
  - by eexists.
  - destruct (astype_str_col_total col df) as [df1 H1]; [apply Hin; left|].
    rewrite H1. simpl. apply astype_str_col_spec in H1 as (_ & Hc1 & _).
    apply IH. intros c Hc. unfold set_scalar. rewrite elem_of_columns_set_col, Hc1.
    right. apply Hin. by right.
Qed.

(** Once the frame has passed validation no step fails. *)
Lemma process_csv_file_total df cfg :
  validate df = Ok () → ∃ out, process_csv_file df cfg = Ok out.
Proof.
  intros Hval. unfold process_csv_file. rewrite Hval. simpl.
  destruct (cosign_step_total
              (handle_source_filename (global_source_filename cfg) (drop_general df)))
    as [df3 ->]. simpl.
  destruct (remove_pii cfg); [|by eexists].
  match goal with |- context [remove_customer_pii ?d] =>
    destruct (remove_customer_pii_total d) as [df6 ->] end.
  by eexists.
Qed.

Lemma validate_Ok df :
  validate df = Ok () ↔ index df ≠ 0 ∧ ∃ c, c ∈ columns df ∧ c ≠ "".
Proof.
  unfold validate. case_bool_decide as Hempty.
  - split; [done|]. intros [Hi (c & Hc & _)]. destruct Hempty as [?|Hd]; [done|].
    unfold columns in Hc. rewrite Hd in Hc. by apply elem_of_nil in Hc.
  - destruct (mask_any _) eqn:Hany; simpl.
    + split; [|done]. intros _. split; [naive_solver|].
      apply mask_any_true in Hany as [i Hi]. rewrite list_lookup_fmap in Hi.
      destruct (columns df !! i) as [c|] eqn:Hc; [|done]. simpl in Hi.
      exists c. split; [by eapply list_elem_of_lookup_2|].
      injection Hi as Hi. apply negb_true_iff, bool_decide_eq_false in Hi. done.
    + split; [done|]. intros [_ (c & Hc & Hne)].
      apply list_elem_of_lookup in Hc as [i Hi].
      assert (mask_any ((λ c, negb (PyStr.eqb c "")) <$> columns df) = true) as Ht.
      { apply mask_any_true. exists i. rewrite list_lookup_fmap, Hi. simpl.
        f_equal. apply negb_true_iff, bool_decide_eq_false. done. }
      congruence.
Qed.

(** End to end, the columns other than [Source_Filename] that the input
    and the output share come in the same order in both. *)
Lemma pipeline_order df cfg out :
  process_csv_file df cfg = Ok out →
  order_kept (filter (λ c, c ≠ SOURCE_FILENAME_COL) (columns df))
             (filter (λ c, c ≠ SOURCE_FILENAME_COL) (columns out)).
Proof.
  intros (df3 & df6 & Hval & H3 & H6 & ->)%process_csv_file_Ok.
  set (df1 := drop_general df) in *.
  set (df2 := handle_source_filename (global_source_filename cfg) df1) in *.
  set (df4 := handle_client_action df3) in *.
  set (df5 := match error_mapping_df cfg with
              | Some mapping => apply_error_mapping df4 mapping
              | None => df4
              end) in *.
  set (F := filter (λ c, c ≠ SOURCE_FILENAME_COL)).
  assert (F (columns df3) = F (columns df1)) as E13.
  { unfold F. destruct (cosign_step_spec _ _ H3) as (_ & -> & _).
    apply handle_source_filename_others. }
  assert (order_kept (F (columns df)) (F (columns df1))) as H01.
  { apply order_kept_without. by destruct (drop_general_spec df) as (_ & ? & _). }
  assert (order_kept (F (columns df1)) (F (columns df4))) as H14.
  { rewrite <-E13. apply order_kept_without.
    by destruct (handle_client_action_spec df3) as (_ & ? & _). }
  assert (order_kept (F (columns df4)) (F (columns df5))
          ∧ ∀ c, c ∈ columns df5 → c ∈ columns df4) as [H45 Hsub].
  { unfold df5. destruct (error_mapping_df cfg) as [mapping|]; [|done].
    destruct (apply_error_mapping_spec df4 mapping) as (_ & ? & ? & _).
    split; [by apply order_kept_without | done]. }
  assert (columns (replace_nan (cast_all df6)) = columns df5) as ->.
  { unfold replace_nan, cast_all.
    rewrite (proj1 (proj2 (map_cells_spec _ _))), (proj1 (proj2 (map_cells_spec _ _))).
    destruct (remove_pii cfg).
    - by destruct (remove_customer_pii_spec _ _ H6) as (_ & ? & _).
    - by injection H6 as <-. }
  apply (order_kept_trans _ (F (columns df4))); [|done|].
  - apply (order_kept_trans _ (F (columns df1))); [done..|].
    intros c [Hne Hc0]%list_elem_of_filter [_ Hc4]%list_elem_of_filter.
    apply list_elem_of_filter. split; [done|].
    apply handle_client_action_columns in Hc4 as [->|Hc3].
    + apply drop_general_columns. split; [done|].
      unfold columns_to_drop_general. rewrite !elem_of_cons, elem_of_nil.
      intros Hd. repeat destruct Hd as [Hd|Hd]; done.
    + assert (c ∈ F (columns df3)) as Hc by (by apply list_elem_of_filter).
      rewrite E13 in Hc. by apply list_elem_of_filter in Hc as [_ ?].
  - intros c _ [Hne Hc5]%list_elem_of_filter. apply list_elem_of_filter.
    split; [done | by apply Hsub].
Qed.

(** C10: rows. A run of the pipeline that returns keeps the index; when
    every column of the input is as long as the index, so is every column
    of the output; and a column no step writes comes out with the text of
    its input cells, row by row, each in the position it had. Column
    order: the columns other than [Source_Filename] that input and output
    share come in the same order in both; and step by step, every step
    keeps the index and the order of the columns it neither drops nor
    creates, except that the COSIGN step may move [Source_Filename], and
    it keeps the order of all the others. *)
Theorem pipeline_keeps_rows (df : DataFrame cell) (cfg : config) (out : DataFrame cell) :
  process_csv_file df cfg = Ok out →
  index out = index df
  ∧ (wf df → wf out)
  ∧ (∀ c, c ∈ columns df → c ∉ touched_cols →
          c ∈ columns out
          ∧ ∀ i, cell_at out c i = replace_nan1 ∘ VStr ∘ str <$> cell_at df c i)
  ∧ order_kept (filter (λ c, c ≠ SOURCE_FILENAME_COL) (columns df))
               (filter (λ c, c ≠ SOURCE_FILENAME_COL) (columns out))
  ∧ (∀ d, index (drop_general d) = index d
          ∧ order_kept (columns d) (columns (drop_general d)))
  ∧ (∀ s d, index (handle_source_filename s d) = index d
            ∧ order_kept (columns d) (columns (handle_source_filename s d)))
  ∧ (∀ d d', cosign_step d = Ok d' →
             index d' = index d
             ∧ filter (λ c, c ≠ SOURCE_FILENAME_COL) (columns d')
               = filter (λ c, c ≠ SOURCE_FILENAME_COL) (columns d))
  ∧ (∀ d, index (handle_client_action d) = index d
          ∧ order_kept (columns d) (columns (handle_client_action d)))
  ∧ (∀ d m, index (apply_error_mapping d m) = index d
            ∧ order_kept (columns d) (columns (apply_error_mapping d m)))
  ∧ (∀ d d', remove_customer_pii d = Ok d' →
             index d' = index d ∧ columns d' = columns d)
  ∧ (∀ d, index (replace_nan (cast_all d)) = index d
          ∧ columns (replace_nan (cast_all d)) = columns d).
Proof.
  intros Hrun. pose proof (pipeline_order _ _ _ Hrun) as Horder.
  apply process_csv_file_Ok in Hrun as (df3 & df6 & Hval & H3 & H6 & ->).
  set (df1 := drop_general df) in *.
  set (df2 := handle_source_filename (global_source_filename cfg) df1) in *.
  set (df4 := handle_client_action df3) in *.
  set (df5 := match error_mapping_df cfg with
              | Some mapping => apply_error_mapping df4 mapping
              | None => df4
              end) in *.
  destruct (drop_general_spec df) as (Hi1 & _ & Hg1).
  destruct (handle_source_filename_spec (global_source_filename cfg) df1)
    as (Hi2 & _ & Hg2).
  destruct (cosign_step_spec _ _ H3) as (Hi3 & _ & Hg3).
  destruct (handle_client_action_spec df3) as (Hi4 & _ & Hg4).
  assert (index df5 = index df4
          ∧ (wf df4 → wf df5)
          ∧ ∀ c, c ∉ transient_cols → c ≠ ERROR_TYPE_COL → c ≠ CLIENT_ACTION_COL →
                 assoc_get c (data df5) = assoc_get c (data df4)) as (Hi5 & Hw5 & Hg5).
  { unfold df5. destruct (error_mapping_df cfg) as [mapping|]; [|done].
    destruct (apply_error_mapping_spec df4 mapping) as (? & _ & _ & ?).
    split_and!; [done | apply wf_apply_error_mapping | done]. }
  assert (index df6 = index df5
          ∧ (wf df5 → wf df6)
          ∧ ∀ c, c ∉ pii_columns_customer →
                 assoc_get c (data df6) = assoc_get c (data df5)) as (Hi6 & Hw6 & Hg6).
  { destruct (remove_pii cfg).
    - destruct (remove_customer_pii_spec _ _ H6) as (? & _ & ?).
      split_and!; [done | | done]. intros Hwf. by eapply wf_remove_customer_pii.
    - by injection H6 as <-. }
  split_and!.
  - simpl. unfold df4, df2, df1 in *. congruence.
  - intros Hwf. do 2 apply wf_map_cells. apply Hw6, Hw5.
    apply wf_handle_client_action. eapply wf_cosign_step; [|done].
    by apply wf_handle_source_filename, wf_drop_general.
  - intros c Hin Hnt. unfold touched_cols in Hnt.
    rewrite !not_elem_of_app in Hnt.
    destruct Hnt as (Hn1 & Hn2 & Hn3 & Hn4 & Hn5 & Hn6).
    apply not_elem_of_cons in Hn2 as [Hn2 _].
    apply not_elem_of_cons in Hn4 as [Hn4 [Hn4' _]%not_elem_of_cons].
    assert (assoc_get c (data df2) = assoc_get c (data df)) as Hget2.
    { unfold df2. rewrite Hg2 by done. by apply Hg1. }
    assert (assoc_get c (data df6) = assoc_get c (data df)) as Hget6.
    { rewrite Hg6, Hg5 by done. unfold df4. rewrite Hg4, Hg3; [done | | done..].
      apply assoc_get_is_Some. rewrite Hget2. by apply assoc_get_is_Some. }
    assert (assoc_get c (data (replace_nan (cast_all df6)))
            = (λ s : list cell, replace_nan1 ∘ VStr ∘ str <$> s)
                <$> assoc_get c (data df)) as Hout.
    { unfold replace_nan, cast_all.
      rewrite (proj2 (proj2 (map_cells_spec _ _))), (proj2 (proj2 (map_cells_spec _ _))).
      rewrite Hget6. destruct (assoc_get c (data df)); simpl; [|done].
      by rewrite <-list_fmap_compose. }
    split.
    + apply assoc_get_is_Some. rewrite Hout. apply fmap_is_Some.
      by apply assoc_get_is_Some.
    + intros i. unfold cell_at. rewrite Hout.
      destruct (assoc_get c (data df)); simpl; [|done].
      by rewrite list_lookup_fmap.
  - done.
  - intros d. by destruct (drop_general_spec d) as (? & ? & _).
  - intros s d. by destruct (handle_source_filename_spec s d) as (? & ? & _).
  - intros d d' Hd. by destruct (cosign_step_spec _ _ Hd) as (? & ? & _).
  - intros d. by destruct (handle_client_action_spec d) as (? & ? & _).
  - intros d m. by destruct (apply_error_mapping_spec d m) as (? & ? & _).
  - intros d d' Hd. by destruct (remove_customer_pii_spec _ _ Hd) as (? & ? & _).
  - intros d. split; [done|]. unfold replace_nan, cast_all.
    by rewrite (proj1 (proj2 (map_cells_spec _ _))), (proj1 (proj2 (map_cells_spec _ _))).
Qed.

(** The hypothesis of C10 holds for a file that goes through both
    strategies of the engine and the customer scrub. *)
Lemma pipeline_keeps_rows_witness :
  ∃ out,
    process_csv_file two_tier_ack (mkConfig "BATCH1" true (Some two_tier_mapping))
    = Ok out
    ∧ index out = index two_tier_ack
    ∧ (wf two_tier_ack → wf out)
    ∧ (∀ c, c ∈ columns two_tier_ack → c ∉ touched_cols →
            c ∈ columns out
            ∧ ∀ i, cell_at out c i
                   = replace_nan1 ∘ VStr ∘ str <$> cell_at two_tier_ack c i).
Proof.
  eexists. split; [vm_compute; reflexivity|].
  refine (let H := pipeline_keeps_rows two_tier_ack
                     (mkConfig "BATCH1" true (Some two_tier_mapping)) _ _
          in conj (proj1 H) (conj (proj1 (proj2 H)) (proj1 (proj2 (proj2 H))))).
  vm_compute; reflexivity.
Defined.

(** * Further properties of the code *)

(** ** Reason Code Translator: text and number *)

Lemma code_map_lookup (z : Z) :
  code_map !! z =
  if decide (z = 1)%Z then Some "Sales"
  else if decide (z = 2)%Z then Some "Payments"
  else if decide (z = 3)%Z then Some "Cancels"
  else if decide (z = 5)%Z then Some "Sales"
  else None.
Proof.
  unfold code_map. rewrite !lookup_insert, lookup_empty.
  repeat case_decide; try done; lia.
Qed.

Lemma pretty_N_char_code (d : N) :
  (d < 10)%N → PyStr.code (pretty_N_char d) = (48 + d)%N.
Proof.
  intros Hd.
  assert (d = 0 ∨ d = 1 ∨ d = 2 ∨ d = 3 ∨ d = 4 ∨ d = 5 ∨ d = 6 ∨ d = 7
          ∨ d = 8 ∨ d = 9)%N as Hcases by lia.
  repeat destruct Hcases as [->|Hcases]; try reflexivity. by subst.
Qed.

Lemma pretty_N_char_decimal (d : N) :
  (d < 10)%N → PyStr.char_isdecimal (pretty_N_char d) = true.
Proof.
  intros Hd. unfold PyStr.char_isdecimal. rewrite pretty_N_char_code by done.
  apply andb_true_iff. split; apply N.leb_le; lia.
Qed.

(** Reading the digits of a printed number gives the number back. *)
Lemma digits_value_pretty_N_go (x : N) :
  (∀ acc s, PyStr.digits_value acc (pretty_N_go x s)
            = PyStr.digits_value (PyStr.digits_value acc (pretty_N_go x "")) s)
  ∧ PyStr.digits_value 0 (pretty_N_go x "") = Z.of_N x.
Proof.
  induction (N.lt_wf_0 x) as [x _ IH].
  assert (x = 0 ∨ 0 < x)%N as [->|Hpos] by lia.
  { split; [intros acc s|]; by rewrite ?pretty_N_go_0. }
  destruct (IH (x `div` 10)%N) as [IH1 IH2]; [by apply N.div_lt|].
  assert (x `mod` 10 < 10)%N as Hd by (by apply N.mod_lt).
  assert (∀ acc, PyStr.digits_value acc (pretty_N_go x "")
                 = (10 * PyStr.digits_value acc (pretty_N_go (x `div` 10) "")
                    + Z.of_N (x `mod` 10))%Z) as Hstep.
  { intros acc. rewrite pretty_N_go_step, IH1 by done. simpl.
    rewrite pretty_N_char_code by done. lia. }
  split.
  - intros acc s. rewrite pretty_N_go_step, IH1, Hstep by done. simpl.
    rewrite pretty_N_char_code by done. f_equal. lia.
  - rewrite Hstep, IH2. rewrite (N.div_mod x 10) at 3 by done. lia.
Qed.

Lemma all_decimal_pretty_N_go (x : N) (s : string) :
  PyStr.all_chars PyStr.char_isdecimal s = true →
  PyStr.all_chars PyStr.char_isdecimal (pretty_N_go x s) = true.
Proof.
  revert s. induction (N.lt_wf_0 x) as [x _ IH]; intros s Hs.
  assert (x = 0 ∨ 0 < x)%N as [->|Hpos] by lia; [by rewrite pretty_N_go_0|].
  rewrite pretty_N_go_step by done. apply IH; [by apply N.div_lt|].
  simpl. rewrite pretty_N_char_decimal; [done | by apply N.mod_lt].
Qed.

Lemma pretty_N_go_nonempty (x : N) (s : string) :
  s ≠ "" → pretty_N_go x s ≠ "".
Proof.
  revert s. induction (N.lt_wf_0 x) as [x _ IH]; intros s Hs.
  assert (x = 0 ∨ 0 < x)%N as [->|Hpos] by lia; [by rewrite pretty_N_go_0|].
  rewrite pretty_N_go_step by done. apply IH; [by apply N.div_lt | done].
Qed.

(** [str(z)] of a non-negative integer is a decimal string and [int]
    reads [z] back from it. *)
Lemma int_str_nonneg (z : Z) :
  (0 ≤ z)%Z →
  PyStr.isdecimal (pretty z) = true ∧ PyStr.isdigit (pretty z) = true
  ∧ PyStr.int (pretty z) = Ok z.
Proof.
  intros Hz. destruct z as [|p|p]; [by split_and! | | lia].
  change (pretty (Z.pos p)) with (pretty_N_go (N.pos p) "").
  assert (pretty_N_go (N.pos p) "" ≠ "") as Hne.
  { rewrite pretty_N_go_step by lia. by apply pretty_N_go_nonempty. }
  assert (PyStr.all_chars PyStr.char_isdecimal (pretty_N_go (N.pos p) "") = true)
    as Hdec by (by apply all_decimal_pretty_N_go).
  assert (PyStr.isdecimal (pretty_N_go (N.pos p) "") = true) as Hisdec.
  { unfold PyStr.isdecimal. by destruct (pretty_N_go (N.pos p) ""). }
  split_and!; [done | |].
  - unfold PyStr.isdigit. destruct (pretty_N_go (N.pos p) "") as [|c s]; [done|].
    clear Hne Hisdec. revert Hdec. generalize (String c s). intros s'.
    induction s' as [|c' s' IHs]; [done|]. simpl.
    intros [Hc Hs]%andb_true_iff. unfold PyStr.char_isdigit. rewrite Hc. simpl.
    by apply IHs.
  - unfold PyStr.int. rewrite Hisdec.
    by rewrite (proj2 (digits_value_pretty_N_go (N.pos p))).
Qed.

Lemma isdigit_str_neg (z : Z) : (z < 0)%Z → PyStr.isdigit (pretty z) = false.
Proof. intros Hz. destruct z as [|p|p]; [lia | lia | done]. Qed.

Lemma translate_str_int (z : Z) :
  get_transaction_reason_text (VStr (pretty z))
  = get_transaction_reason_text (VInt z).
Proof.
  rewrite translate_int_total. unfold get_transaction_reason_text. simpl.
  destruct (decide (0 ≤ z)%Z) as [Hz|Hz].
  - destruct (int_str_nonneg z Hz) as (_ & -> & ->). done.
  - rewrite isdigit_str_neg by lia. simpl. rewrite code_map_lookup.
    repeat case_decide; try done; lia.
Qed.



Lemma translate_label_fixed (t : string) :
  t ∈ ["Sales"; "Payments"; "Cancels"] →
  get_transaction_reason_text (VStr t) = Ok t.
Proof.
  rewrite !elem_of_cons, elem_of_nil. intros [->|[->|[->|[]]]]; reflexivity.
Qed.

Lemma code_map_get_range (key : cell) (dflt : string) :
  code_map_get key dflt ∈ ["Sales"; "Payments"; "Cancels"]
  ∨ code_map_get key dflt = dflt.
Proof.
  destruct key as [s|z|b|]; simpl; try (by right).
  - rewrite code_map_lookup. repeat case_decide; simpl; set_solver.
  - rewrite code_map_lookup. repeat case_decide; simpl; set_solver.
Qed.

(** X2: a translation that returns gives one of the three labels or the
    text of the code, and translating that result again returns it
    unchanged: text that has been translated once is stable. *)
Theorem translate_result_stable (v : cell) (t : string) :
  get_transaction_reason_text v = Ok t →
  (t ∈ ["Sales"; "Payments"; "Cancels"] ∨ t = str v)
  ∧ get_transaction_reason_text (VStr t) = Ok t.
Proof.
  intros H.
  assert (t ∈ ["Sales"; "Payments"; "Cancels"] ∨ t = str v) as Hrange.
  { unfold get_transaction_reason_text in H. inv_result.
    apply code_map_get_range. }
  split; [done|]. destruct Hrange as [Hl| ->]; [by apply translate_label_fixed|].
  destruct v as [s|z|b|]; simpl in *.
  - exact H.
  - by rewrite translate_str_int, H.
  - destruct b; [vm_compute in H; discriminate H | reflexivity].
  - reflexivity.
Qed.

Lemma translate_result_stable_witness :
  get_transaction_reason_text (VStr "005") = Ok "Sales"
  ∧ ("Sales" ∈ ["Sales"; "Payments"; "Cancels"] ∨ "Sales" = str (VStr "005"))
  ∧ get_transaction_reason_text (VStr "Sales") = Ok "Sales".
Proof.
  split; [reflexivity|].
  apply (translate_result_stable (VStr "005") "Sales"). reflexivity.
Defined.

(** ** Mapping Table Loader: what a loaded table guarantees *)

Lemma rstrip_idempotent (s : string) :
  PyStr.rstrip (PyStr.rstrip s) = PyStr.rstrip s.
Proof.
  induction s as [|c s IH]; [done|]. simpl.
  destruct (PyStr.rstrip s) as [|c' r] eqn:Hr.
  - destruct (PyStr.char_isspace c) eqn:Hc; simpl; [done|]. by rewrite Hc.
  - simpl. simpl in IH. by rewrite IH.
Qed.

Lemma rstrip_head (c : ascii) (s : string) :
  PyStr.char_isspace c = false →
  ∃ r, PyStr.rstrip (String c s) = String c r.
Proof.
  intros Hc. simpl. destruct (PyStr.rstrip s); rewrite ?Hc; by eexists.
Qed.

Lemma lstrip_head (s : string) :
  PyStr.lstrip s = "" ∨ ∃ c r, PyStr.lstrip s = String c r ∧ PyStr.char_isspace c = false.
Proof.
  induction s as [|c s IH]; [by left|]. simpl.
  destruct (PyStr.char_isspace c) eqn:Hc; [done|]. right. by exists c, s.
Qed.

(** [strip] is idempotent. *)
Lemma strip_idempotent (s : string) : PyStr.strip (PyStr.strip s) = PyStr.strip s.
Proof.
  unfold PyStr.strip. destruct (lstrip_head s) as [->|(c & r & -> & Hc)]; [done|].
  destruct (rstrip_head c r Hc) as [r' Hr]. rewrite Hr. simpl PyStr.lstrip.
  rewrite Hc, <-Hr. apply rstrip_idempotent.
Qed.

Lemma elem_of_filter_mask {B : Type} (mask : list bool) (l : list B) (x : B) :
  x ∈ filter_mask mask l → ∃ i, mask !! i = Some true ∧ l !! i = Some x.
Proof.
  revert l. induction mask as [|b mask IH]; intros l Hx.
  - destruct l; by apply elem_of_nil in Hx.
  - destruct l as [|y l]; [destruct b; by apply elem_of_nil in Hx|].
    destruct b; simpl in Hx.
    + apply elem_of_cons in Hx as [->|Hx]; [by exists 0|].
      destruct (IH _ Hx) as (i & ? & ?). by exists (S i).
    + destruct (IH _ Hx) as (i & ? & ?). by exists (S i).
Qed.

Lemma filter_mask_fmap {B C : Type} (f : B → C) (mask : list bool) (l : list B) :
  filter_mask mask (f <$> l) = f <$> filter_mask mask l.
Proof.
  revert l. induction mask as [|b mask IH]; intros [|y l]; simpl; try done.
  - by destruct b.
  - destruct b; simpl; by rewrite IH.
Qed.

Lemma length_filter_mask {B C : Type} (mask : list bool) (l : list B) (l' : list C) :
  length l = length l' →
  length (filter_mask mask l) = length (filter_mask mask l').
Proof.
  revert l l'. induction mask as [|b mask IH]; intros [|y l] [|y' l'] Hlen;
    simpl in *; try done; try (by destruct b).
  destruct b; simpl; auto.
Qed.

Lemma length_filter_mask_le {B : Type} (mask : list bool) (l : list B) :
  length (filter_mask mask l) ≤ length l.
Proof.
  revert l. induction mask as [|b mask IH]; intros [|y l]; simpl; try lia.
  - destruct b; simpl; lia.
  - specialize (IH l). destruct b; simpl; lia.
Qed.

Lemma assoc_get_fmap_values {A B : Type} (f : list A → list B) c
    (l : list (string * list A)) :
  assoc_get c ((λ p : string * list A, (p.1, f p.2)) <$> l) = f <$> assoc_get c l.
Proof.
  induction l as [|[c' s'] l IH]; [done|]. simpl. by case_decide.
Qed.

Lemma labels_fmap_values {A B : Type} (f : list A → list B)
    (l : list (string * list A)) :
  ((λ p : string * list A, (p.1, f p.2)) <$> l).*1 = l.*1.
Proof. rewrite <-list_fmap_compose. by apply list_fmap_ext. Qed.

Lemma filter_rows_spec {A : Type} (mask : list bool) (df : DataFrame A) :
  columns (filter_rows mask df) = columns df
  ∧ index (filter_rows mask df) ≤ index df
  ∧ (wf df → wf (filter_rows mask df))
  ∧ (∀ c, assoc_get c (data (filter_rows mask df))
          = filter_mask mask <$> assoc_get c (data df)).
Proof.
  split_and!.
  - apply labels_fmap_values.
  - simpl. etrans; [apply length_filter_mask_le|]. by rewrite length_seq.
  - unfold wf. simpl. intros Hwf. apply Forall_fmap.
    eapply Forall_impl; [done|]. intros [c s] Hs. simpl in *.
    apply length_filter_mask. by rewrite length_seq.
  - intros c. apply assoc_get_fmap_values.
Qed.

Lemma assoc_set_same {A : Type} c (s : list A) (l : list (string * list A)) :
  assoc_get c l = Some s → assoc_set c s l = l.
Proof.
  induction l as [|[c' s'] l IH]; [done|]. simpl. case_decide as Hc.
  - by intros [= ->]; subst.
  - intros H. by rewrite IH.
Qed.

(** The loop that strips the key columns never fails; it keeps the index
    and the labels, strips the listed columns that exist and leaves the
    others. *)
Lemma strip_columns_spec (cols : list string) (df : DataFrame string) :
  ∃ df', strip_columns cols df = Ok df'
         ∧ index df' = index df ∧ columns df' = columns df
         ∧ (wf df → wf df')
         ∧ (∀ c, c ∉ cols → assoc_get c (data df') = assoc_get c (data df))
         ∧ (∀ c s, c ∈ cols → assoc_get c (data df') = Some s →
                   ∀ x, x ∈ s → PyStr.strip x = x)
         ∧ (∀ c, is_Some (assoc_get c (data df')) ↔ is_Some (assoc_get c (data df)))
         ∧ (∀ c s', assoc_get c (data df') = Some s' →
                    ∃ s, assoc_get c (data df) = Some s
                         ∧ (s' = s ∨ s' = PyStr.strip <$> s)).
Proof.
  unfold strip_columns. revert df. induction cols as [|col cols IH] using rev_ind;
    intros df.
  - exists df. simpl. split_and!; try done.
    + by intros c s ?%elem_of_nil.
    + intros c s' Hs'. exists s'. by split; [|left].
  - rewrite foldl_snoc.
    destruct (IH df) as (df1 & -> & Hi & Hc & Hwf & Hout & Hin & Hsome & Hfrom).
    simpl. destruct (has_col col df1) eqn:Hcol.
    + apply has_col_true in Hcol as Hcol'.
      destruct (has_col_get_col _ _ Hcol') as [s Hs]. rewrite Hs. simpl.
      eexists. split; [done|]. apply get_col_Ok in Hs as Hs'.
      split_and!.
      * done.
      * by rewrite columns_set_col_in.
      * intros Hw. apply wf_set_col; [by apply Hwf|]. rewrite length_fmap.
        by apply (wf_get_col _ _ _ (Hwf Hw) Hs).
      * intros c Hnin. apply not_elem_of_app in Hnin as [Hn1 Hn2].
        rewrite assoc_get_set_col_ne; [by apply Hout|].
        intros ->. apply Hn2. left.
      * intros c s0 Hc0 Hs0 x Hx. destruct (decide (col = c)) as [->|Hne].
        -- rewrite assoc_get_set_col_eq in Hs0. injection Hs0 as <-.
           apply list_elem_of_fmap in Hx as (y & -> & _). apply strip_idempotent.
        -- rewrite assoc_get_set_col_ne in Hs0 by done.
           apply elem_of_app in Hc0 as [Hc0|Hc0]; [by eapply Hin|].
           apply list_elem_of_singleton in Hc0. congruence.
      * intros c. rewrite <-Hsome. destruct (decide (col = c)) as [->|Hne].
        -- rewrite assoc_get_set_col_eq, Hs'. split; by eexists.
        -- by rewrite assoc_get_set_col_ne.
      * intros c s0 Hs0. destruct (decide (col = c)) as [->|Hne].
        -- rewrite assoc_get_set_col_eq in Hs0. injection Hs0 as <-.
           destruct (Hfrom _ _ Hs') as (s1 & Hs1 & [->| ->]); exists s1.
           ++ split; [done | by right].
           ++ split; [done | right]. rewrite <-list_fmap_compose.
              apply list_fmap_ext. intros ? x _. simpl. apply strip_idempotent.
        -- rewrite assoc_get_set_col_ne in Hs0 by done. by apply Hfrom.
    + exists df1. split; [done|]. split_and!; try done.
      * intros c Hnin. apply not_elem_of_app in Hnin as [Hn1 Hn2]. by apply Hout.
      * intros c s0 Hc0 Hs0. apply elem_of_app in Hc0 as [Hc0|Hc0]; [by eapply Hin|].
        apply list_elem_of_singleton in Hc0. subst.
        apply has_col_false in Hcol. exfalso. apply Hcol.
        apply assoc_get_is_Some. by eexists.
Qed.

Lemma loader_Some (df out : DataFrame string) :
  load_error_mapping_file df = Some out →
  ∃ error_type,
    get_col "Error_Type" df = Ok error_type
    ∧ strip_columns ["Error_Type"; "Client_Error_Type"; "Client Action"; "file_type_2"]
        (drop_duplicates
           (filter_rows ((λ s, negb (PyStr.eqb (PyStr.strip s) "")) <$> error_type) df))
      = Ok out.
Proof.
  unfold load_error_mapping_file, load_error_mapping_try.
  case_bool_decide; [done|].
  destruct (get_col "Error_Type" df) as [et|] eqn:Het; [|done]. simpl.
  match goal with |- context [strip_columns ?l ?d] =>
    destruct (strip_columns l d) as [df'|] eqn:Hs end; [|done].
  simpl. intros [= ->]. by exists et.
Qed.

(** X3: the loader accepts a table exactly when the three required
    columns are present; no other property of the table can make it
    decline. *)
Theorem loader_accepts_iff_required_columns (df : DataFrame string) :
  is_Some (load_error_mapping_file df)
  ↔ ∀ c, c ∈ required_cols → c ∈ columns df.
Proof.
  split.
  - intros [out Hout] c Hc. destruct (decide (c ∈ columns df)) as [|Hn]; [done|].
    by rewrite (loader_missing_columns df c Hc Hn) in Hout.
  - intros Hall. unfold load_error_mapping_file, load_error_mapping_try.
    rewrite bool_decide_eq_false_2.
    + destruct (has_col_get_col "Error_Type" df) as [et ->].
      { apply Hall. set_solver. }
      simpl.
      match goal with |- context [strip_columns ?l ?d] =>
        destruct (strip_columns_spec l d) as (df' & -> & _) end.
      simpl. by eexists.
    + intros Hne. apply Hne.
      destruct (filter (λ col, col ∉ columns df) required_cols) as [|c l] eqn:Hf;
        [done|].
      assert (c ∈ filter (λ col, col ∉ columns df) required_cols) as Hin
        by (rewrite Hf; left).
      apply list_elem_of_filter in Hin as [Hn Hc]. by destruct Hn; apply Hall.
Qed.

Lemma strip_nonempty (x : string) : PyStr.strip x ≠ "" → x ≠ "".
Proof. by intros H ->. Qed.

(** X4: what every loaded table satisfies: the labels of the input, no
    more rows than the input, one entry per row in every column, no
    blank [Error_Type], and the four key columns free of surrounding
    white space. *)
Theorem loader_result_guarantees (df out : DataFrame string) :
  load_error_mapping_file df = Some out →
  columns out = columns df
  ∧ index out ≤ index df
  ∧ (wf df → wf out)
  ∧ (∀ s x, get_col "Error_Type" out = Ok s → x ∈ s →
            x ≠ "" ∧ PyStr.strip x = x)
  ∧ (∀ c s x,
       c ∈ ["Error_Type"; "Client_Error_Type"; "Client Action"; "file_type_2"] →
       get_col c out = Ok s → x ∈ s → PyStr.strip x = x)
  ∧ (∀ c s x, get_col c out = Ok s → x ∈ s →
       ∃ s0 y, get_col c df = Ok s0 ∧ y ∈ s0 ∧ (x = y ∨ x = PyStr.strip y)).
Proof.
  intros (et & Het & Hstrip)%loader_Some.
  set (m1 := (λ s, negb (PyStr.eqb (PyStr.strip s) "")) <$> et) in *.
  unfold drop_duplicates in Hstrip.
  set (d1 := filter_rows m1 df) in *.
  set (m2 := first_occurrences [] (rows d1)) in *.
  destruct (filter_rows_spec m1 df) as (Hc1 & Hi1 & Hw1 & Hg1). fold d1 in Hc1, Hi1, Hw1, Hg1.
  destruct (filter_rows_spec m2 d1) as (Hc2 & Hi2 & Hw2 & Hg2).
  destruct (strip_columns_spec
              ["Error_Type"; "Client_Error_Type"; "Client Action"; "file_type_2"]
              (filter_rows m2 d1))
    as (out' & Hout' & Hi3 & Hc3 & Hw3 & Hoff & Hon & _ & Hfrom).
  rewrite Hstrip in Hout'. injection Hout' as <-.
  assert (∀ c s x, get_col c out = Ok s → x ∈ s →
            ∃ s0 i y, get_col c df = Ok s0 ∧ s0 !! i = Some y
                      ∧ m1 !! i = Some true ∧ (x = y ∨ x = PyStr.strip y)) as Horigin.
  { intros c s x Hs%get_col_Ok Hx.
    destruct (Hfrom _ _ Hs) as (s2 & Hs2 & Hor).
    rewrite Hg2, Hg1 in Hs2.
    destruct (assoc_get c (data df)) as [s0|] eqn:Hs0; [|done].
    simpl in Hs2. injection Hs2 as <-.
    assert (∃ y, y ∈ filter_mask m2 (filter_mask m1 s0)
                 ∧ (x = y ∨ x = PyStr.strip y)) as (y & Hy & Hxy).
    { destruct Hor as [->| ->]; [by exists x; split; [|left]|].
      apply list_elem_of_fmap in Hx as (y & -> & Hy). exists y. by split; [|right]. }
    apply elem_of_filter_mask in Hy as (j & _ & Hy%list_elem_of_lookup_2).
    apply elem_of_filter_mask in Hy as (i & Hm & Hy).
    exists s0, i, y. by rewrite get_col_Ok. }
  split_and!.
  - congruence.
  - lia.
  - auto.
  - intros s x Hs Hx.
    destruct (Horigin _ _ _ Hs Hx) as (s0 & i & y & Hs0 & Hy & Hm & Hxy).
    rewrite Het in Hs0. injection Hs0 as <-.
    unfold m1 in Hm. rewrite list_lookup_fmap, Hy in Hm. simpl in Hm.
    injection Hm as Hm. apply negb_true_iff, bool_decide_eq_false in Hm.
    split.
    + destruct Hxy as [->| ->]; [by apply strip_nonempty | done].
    + apply get_col_Ok in Hs. eapply Hon; [|done..]. set_solver.
  - intros c s x Hc Hs%get_col_Ok Hx. by eapply Hon.
  - intros c s x Hs Hx.
    destruct (Horigin _ _ _ Hs Hx) as (s0 & i & y & Hs0 & Hy & _ & Hxy).
    exists s0, y. split_and!; [done| |done]. by eapply list_elem_of_lookup_2.
Qed.

Lemma loader_result_guarantees_witness :
  ∃ out, load_error_mapping_file padded_mapping = Some out
         ∧ columns out = columns padded_mapping
         ∧ index out ≤ index padded_mapping.
Proof.
  eexists. split; [vm_compute; reflexivity|].
  refine (let H := loader_result_guarantees padded_mapping _ _ in
          conj (proj1 H) (proj1 (proj2 H))).
  vm_compute. reflexivity.
Defined.

(** Filtering the rows of a frame filters its list of rows. *)
Lemma filter_mask_lookup {B : Type} (mask : list bool) (s : list B) :
  Some <$> filter_mask mask s
  = (s !!.) <$> filter_mask mask (seq 0 (length s)).
Proof.
  rewrite <-!filter_mask_fmap. f_equal.
  apply list_eq. intros i. rewrite !list_lookup_fmap.
  destruct (decide (i < length s)) as [Hi|Hi].
  - rewrite lookup_seq_lt by done. simpl.
    destruct (lookup_lt_is_Some_2 s i Hi) as [x Hx]. by rewrite Hx.
  - rewrite lookup_seq_ge by lia. rewrite lookup_ge_None_2 by lia. done.
Qed.

Lemma rows_filter_rows {A : Type} (mask : list bool) (df : DataFrame A) :
  wf df → rows (filter_rows mask df) = filter_mask mask (rows df).
Proof.
  intros Hwf. unfold rows. rewrite filter_mask_fmap. simpl index.
  set (ks := filter_mask mask (seq 0 (index df))).
  apply list_eq. intros j. rewrite !list_lookup_fmap.
  destruct (decide (j < length ks)) as [Hj|Hj].
  - rewrite lookup_seq_lt by done. simpl.
    destruct (lookup_lt_is_Some_2 ks j Hj) as [k Hk]. rewrite Hk. simpl. f_equal.
    unfold row. simpl. rewrite <-list_fmap_compose.
    apply list_fmap_ext. intros i [c s] Hcs. simpl.
    assert (length s = index df) as Hlen.
    { unfold wf in Hwf. rewrite Forall_forall in Hwf.
      apply (Hwf (c, s)). by eapply list_elem_of_lookup_2. }
    pose proof (filter_mask_lookup mask s) as Heq. rewrite Hlen in Heq. fold ks in Heq.
    apply (f_equal (.!! j)) in Heq. rewrite !list_lookup_fmap, Hk in Heq. simpl in Heq.
    destruct (filter_mask mask s !! j); simpl in Heq; congruence.
  - rewrite lookup_seq_ge by lia. rewrite lookup_ge_None_2 by lia. done.
Qed.

Lemma first_occurrences_NoDup {B : Type} `{EqDecision B} (seen l : list B) :
  NoDup (filter_mask (first_occurrences seen l) l)
  ∧ ∀ x, x ∈ filter_mask (first_occurrences seen l) l → x ∉ seen.
Proof.
  revert seen. induction l as [|y l IH]; intros seen.
  - simpl. split; [constructor | by intros x ?%elem_of_nil].
  - simpl. destruct (decide (y ∈ seen)) as [Hy|Hy]; simpl.
    + apply IH.
    + destruct (IH (y :: seen)) as [Hnd Hseen]. split.
      * constructor; [|done]. intros Hin%Hseen. apply Hin. left.
      * intros x [->|Hx%Hseen]%elem_of_cons; [done|].
        intros Hin. apply Hx. by right.
Qed.

Lemma strip_columns_stripped (cols : list string) (df : DataFrame string) :
  (∀ c s x, c ∈ cols → get_col c df = Ok s → x ∈ s → PyStr.strip x = x) →
  strip_columns cols df = Ok df.
Proof.
  intros Hs. unfold strip_columns. induction cols as [|c cols IH]; [done|].
  simpl. destruct (has_col c df) eqn:Hc.
  - apply has_col_true in Hc. destruct (has_col_get_col _ _ Hc) as [s Hcs].
    rewrite Hcs. simpl.
    assert (PyStr.strip <$> s = s) as ->.
    { transitivity (id <$> s); [|apply list_fmap_id].
      apply list_fmap_ext. intros i x Hx. simpl.
      eapply Hs; [left|done|]. by eapply list_elem_of_lookup_2. }
    assert (set_col c s df = df) as ->.
    { unfold set_col. apply get_col_Ok in Hcs. rewrite assoc_set_same by done.
      by destruct df. }
    apply IH. intros c' s' x Hc'. apply Hs. by right.
  - apply IH. intros c' s' x Hc'. apply Hs. by right.
Qed.

(** X5: on a well-formed table whose key columns carry no surrounding
    white space, the loaded table has no two equal rows. *)
Theorem loader_rows_distinct_when_stripped (df out : DataFrame string) :
  wf df →
  (∀ c s x,
     c ∈ ["Error_Type"; "Client_Error_Type"; "Client Action"; "file_type_2"] →
     get_col c df = Ok s → x ∈ s → PyStr.strip x = x) →
  load_error_mapping_file df = Some out →
  NoDup (rows out).
Proof.
  intros Hwf Hstripped (et & Het & Hstrip)%loader_Some.
  set (m1 := (λ s, negb (PyStr.eqb (PyStr.strip s) "")) <$> et) in *.
  destruct (filter_rows_spec m1 df) as (Hc1 & Hi1 & Hw1 & Hg1).
  unfold drop_duplicates in Hstrip.
  set (d1 := filter_rows m1 df) in *.
  set (m2 := first_occurrences [] (rows d1)) in *.
  destruct (filter_rows_spec m2 d1) as (Hc2 & Hi2 & Hw2 & Hg2).
  rewrite strip_columns_stripped in Hstrip.
  - injection Hstrip as <-. rewrite rows_filter_rows by auto.
    apply first_occurrences_NoDup.
  - intros c s x Hc Hs%get_col_Ok Hx. rewrite Hg2, Hg1 in Hs.
    destruct (assoc_get c (data df)) as [s0|] eqn:Hs0; [|done].
    simpl in Hs. injection Hs as <-.
    apply elem_of_filter_mask in Hx as (j & _ & Hx%list_elem_of_lookup_2).
    apply elem_of_filter_mask in Hx as (i & _ & Hx%list_elem_of_lookup_2).
    eapply Hstripped; [done| |done]. by apply get_col_Ok.
Qed.

Lemma loader_rows_distinct_when_stripped_witness :
  ∃ out, load_error_mapping_file two_tier_mapping = Some out ∧ NoDup (rows out).
Proof.
  eexists. split; [vm_compute; reflexivity|].
  apply (loader_rows_distinct_when_stripped two_tier_mapping).
  - unfold wf. vm_compute. repeat constructor.
  - intros c s x Hc Hs Hx.
    repeat (apply elem_of_cons in Hc as [->|Hc]);
      [vm_compute in Hs; injection Hs as <-;
       repeat (apply elem_of_cons in Hx as [->|Hx]);
       [vm_compute; reflexivity.. | by apply elem_of_nil in Hx] ..
      | by apply elem_of_nil in Hc].
  - vm_compute. reflexivity.
Defined.

(** ** Error Mapping Engine: the report and the rows no rule matched *)

Lemma mask_sum_none (m : list bool) : mask_any m = false → mask_sum m = 0.
Proof.
  induction m as [|b m IH]; [done|]. simpl. destruct b; [done|]. apply IH.
Qed.

Lemma mask_sum_replicate_false n : mask_sum (replicate n false) = 0.
Proof. induction n; [done|]. simpl. done. Qed.

(** Two disjoint masks inside a third split its count in three. *)
Lemma mask_sum_partition (er a b : list bool) :
  length a = length er → length b = length er →
  (∀ i, a !! i = Some true → er !! i = Some true) →
  (∀ i, b !! i = Some true → er !! i = Some true ∧ a !! i ≠ Some true) →
  mask_sum er
  = mask_sum a + mask_sum b + mask_sum (mask_and er (mask_not (mask_or a b))).
Proof.
  revert a b. induction er as [|e er IH]; intros [|x a] [|y b] Ha Hb Hsub Hdis;
    simpl in *; try done.
  specialize (IH a b).
  rewrite IH; [| lia | lia | intros i; apply (Hsub (S i)) | intros i; apply (Hdis (S i))].
  unfold mask_and, mask_not, mask_or.
  pose proof (Hsub 0) as H0. pose proof (Hdis 0) as H1. simpl in H0, H1.
  destruct e, x, y; simpl; try lia.
  - destruct H1 as [_ H1]; [done|]. by destruct H1.
  - specialize (H0 eq_refl). discriminate H0.
  - specialize (H0 eq_refl). discriminate H0.
  - destruct H1 as [H1 _]; [done|]. discriminate H1.
Qed.

Lemma elem_of_filter_mask_2 {B : Type} (mask : list bool) (l : list B) (x : B) i :
  mask !! i = Some true → l !! i = Some x → x ∈ filter_mask mask l.
Proof.
  revert l i. induction mask as [|b mask IH]; intros [|y l] [|i] Hm Hl;
    simpl in *; try done.
  - injection Hm as ->. injection Hl as ->. left.
  - destruct b; [right|]; by eapply IH.
Qed.

(** [unique] keeps every value once. *)
Lemma unique_spec {B : Type} `{EqDecision B} (l : list B) :
  NoDup (unique l) ∧ ∀ x, x ∈ unique l ↔ x ∈ l.
Proof.
  unfold unique.
  assert (∀ acc, NoDup acc →
            NoDup (foldl (λ acc x, if decide (x ∈ acc) then acc else acc ++ [x]) acc l)
            ∧ ∀ x, x ∈ foldl (λ acc x, if decide (x ∈ acc) then acc else acc ++ [x]) acc l
                   ↔ x ∈ acc ∨ x ∈ l) as Hgen.
  { induction l as [|y l IH]; intros acc Hnd; simpl.
    - split; [done|]. intros x. rewrite elem_of_nil. tauto.
    - destruct (decide (y ∈ acc)) as [Hy|Hy].
      + destruct (IH acc Hnd) as [H1 H2]. split; [done|].
        intros x. rewrite H2, elem_of_cons. split; [tauto|].
        intros [?|[->|?]]; auto.
      + destruct (IH (acc ++ [y])) as [H1 H2].
        { apply NoDup_app. split_and!; [done| |apply NoDup_singleton].
          intros x Hx ->%list_elem_of_singleton. done. }
        split; [done|]. intros x.
        rewrite H2, elem_of_app, list_elem_of_singleton, elem_of_cons. tauto. }
  destruct (Hgen [] (NoDup_nil_2)) as [H1 H2]. split; [done|].
  intros x. rewrite H2, elem_of_nil. tauto.
Qed.

Lemma body_mapped_report ack mapping l :
  apply_error_mapping_body ack mapping = Ok (Mapped l) →
  ∃ df0 t1 t2 w,
    convert_reason ack = Ok df0
    ∧ strategy1 df0 mapping (error_rows l) = Ok t1
    ∧ strategy2 (t1_result_df t1) (t1_mapping_df_clean t1) (remaining_errors l) = Ok t2
    ∧ mappings_applied l = t1_applied t1 + t2_applied t2
    ∧ unmatched_of (t2_result_df t2)
        (unmatched_mask_of (t2_result_df t2) (error_rows l)
           (t1_error_mask t1) (t2_simple_match_mask t2))
      = Ok (unmatched_errors l)
    ∧ unmapped_warning (unmatched_errors l) = Ok w.
Proof.
  unfold apply_error_mapping_body. intros H. cbv zeta in H.
  case_bool_decide as Hmiss; [by inv_result|]. inv_result.
  case_match eqn:Hany; [by inv_result|]. inv_result.
  exists x0, x1, x2, x4. by split_and!.
Qed.

Lemma strategy1_applied df mapping er t1 :
  strategy1 df mapping er = Ok t1 →
  t1_applied t1 = mask_sum (default [] (t1_error_mask t1)).
Proof.
  unfold strategy1. intros H. case_match; inv_result; [|done].
  case_match eqn:Hany; inv_result; simpl; [done|]. by rewrite mask_sum_none.
Qed.

Lemma strategy2_applied df mapping remaining t2 :
  strategy2 df mapping remaining = Ok t2 →
  t2_applied t2 = mask_sum (default [] (t2_simple_match_mask t2)).
Proof.
  unfold strategy2. intros H. case_match; inv_result; [|done].
  case_match eqn:Hany; inv_result; simpl; [done|]. by rewrite mask_sum_none.
Qed.

Lemma strategy2_off_mask df mapping remaining t2 c i :
  strategy2 df mapping remaining = Ok t2 →
  (∀ m2, t2_simple_match_mask t2 = Some m2 → m2 !! i ≠ Some true) →
  cell_at (t2_result_df t2) c i = cell_at df c i.
Proof.
  intros H Hoff. destruct (t2_simple_match_mask t2) as [m2|] eqn:Hm2.
  - destruct (strategy2_ran _ _ _ _ _ H Hm2)
      as (keys & cet & cact & et & _ & _ & _ & _ & _ & _ & _ & Hrw).
    destruct (mask_any m2); [|by rewrite Hrw].
    eapply rewrite_matched_off; [done|]. by apply Hoff.
  - unfold strategy2 in H. case_match; inv_result; [|done].
    case_match; inv_result; simpl in Hm2; discriminate Hm2.
Qed.

Lemma length_remaining_of df er em :
  length er = index df → (∀ m1, em = Some m1 → length m1 = length er) →
  length (remaining_of df er em) = length er.
Proof.
  intros Hlen Hm. unfold remaining_of, mask_not. rewrite length_mask_and, length_fmap.
  destruct em as [m1|]; [rewrite (Hm m1 eq_refl) | rewrite length_replicate]; lia.
Qed.

(** What a run that reaches the last line establishes about its masks,
    its counter and the rows neither strategy matched. *)
Lemma body_masks ack mapping l :
  wf ack →
  apply_error_mapping_body ack mapping = Ok (Mapped l) →
  ∃ df2,
    wf df2 ∧ index df2 = index ack
    ∧ result_df l = cleanup df2
    ∧ length (error_rows l) = index ack
    ∧ (∀ m1, error_mask l = Some m1 →
         length m1 = index ack
         ∧ ∀ i, m1 !! i = Some true → error_rows l !! i = Some true)
    ∧ (∀ m2, simple_match_mask l = Some m2 →
         length m2 = index ack
         ∧ ∀ i, m2 !! i = Some true →
                error_rows l !! i = Some true ∧ ¬ tier1_matched l i)
    ∧ mappings_applied l
      = mask_sum (default [] (error_mask l))
        + mask_sum (default [] (simple_match_mask l))
    ∧ unmatched_of df2
        (unmatched_mask_of df2 (error_rows l) (error_mask l) (simple_match_mask l))
      = Ok (unmatched_errors l)
    ∧ (∀ c i, ¬ tier1_matched l i →
              (∀ m2, simple_match_mask l = Some m2 → m2 !! i ≠ Some true) →
              c ∉ transient_cols → cell_at df2 c i = cell_at ack c i)
    ∧ ∃ w, unmapped_warning (unmatched_errors l) = Ok w.
Proof.
  intros Hwf Hbody.
  destruct (body_mapped _ _ _ Hbody)
    as (is_error & df0 & t1 & t2 & HET & Hie & Her & Hany & H0 & H1 & Hrem & H2
        & Hem & Hcem & Hcam & Hsm & _ & _ & Hres).
  destruct (body_mapped_report _ _ _ Hbody)
    as (df0' & t1' & t2' & w & H0' & H1' & H2' & Happ & Hun & Hw).
  assert (df0' = df0) as -> by congruence.
  assert (t1' = t1) as -> by congruence.
  assert (t2' = t2) as -> by congruence.
  assert (length (error_rows l) = index ack) as Hlen.
  { by rewrite Her, length_upper_eq, (wf_get_col _ _ _ Hwf Hie). }
  pose proof (convert_reason_wf _ _ Hwf H0) as Hwf0.
  pose proof (wf_strategy1 _ _ _ _ Hwf0 H1) as Hwf1.
  pose proof (wf_strategy2 _ _ _ _ Hwf1 H2) as Hwf2.
  destruct (convert_reason_Ok _ _ H0) as (Hidx0 & _ & _ & Hhas0).
  pose proof (engine_inv_strategy1 _ _ _ _ _ H1 (convert_reason_inv _ (error_rows l) _ H0))
    as Hinv1.
  destruct Hinv1 as (Hidx1 & Hinv1').
  assert (engine_inv ack (error_rows l) (t2_result_df t2)) as (Hidx2 & _).
  { eapply engine_inv_strategy2; [|done|by split].
    intros i. rewrite Hrem. apply remaining_of_sub. }
  assert (∀ m1, t1_error_mask t1 = Some m1 →
            length m1 = length (error_rows l)
            ∧ ∀ i, m1 !! i = Some true → error_rows l !! i = Some true) as Hm1.
  { intros m1 Hm1.
    assert (has_col "Transaction_Reason_Text" df0 = true
            ∧ has_col "file_type_2" mapping = true) as [Ha Hb].
    { apply andb_true_iff, not_false_iff_true.
      rewrite <-(strategy1_mask_None _ _ _ _ H1). congruence. }
    destruct (strategy1_ran _ _ _ _ H1 Ha Hb)
      as (mkeys & rkeys & cet & cact & _ & Hrk & _ & _ & _ & _ & _ & Hm & _).
    rewrite Hm in Hm1. injection Hm1 as <-. split.
    - rewrite length_mask_and. unfold isin. rewrite length_fmap.
      rewrite (record_composite_keys_length _ _ Hwf0 Hrk). lia.
    - intros i. apply mask_and_sub. }
  assert (length (remaining_errors l) = length (error_rows l)) as Hlrem.
  { rewrite Hrem. apply length_remaining_of; [congruence|]. intros m1 Hm. by apply Hm1. }
  assert (∀ i, remaining_errors l !! i = Some true ↔
               error_rows l !! i = Some true ∧ ¬ tier1_matched l i) as Hpart1.
  { intros i. unfold tier1_matched. rewrite Hrem, Hem.
    apply remaining_of_lookup; [congruence|]. intros m1 Hm. by apply Hm1. }
  exists (t2_result_df t2). split_and!; try done.
  - rewrite Hem. intros m1 Hm. destruct (Hm1 m1 Hm) as [? ?]. split; [lia | done].
  - rewrite Hsm. intros m2 Hm2. split.
    + destruct (strategy2_ran _ _ _ _ _ H2 Hm2)
        as (keys & cet & cact & et & _ & _ & _ & Het & _ & _ & -> & _).
      rewrite length_mask_and. unfold isin. rewrite length_fmap.
      rewrite (wf_get_col _ _ _ Hwf1 Het). lia.
    + intros i Hi. apply Hpart1. by eapply strategy2_mask.
  - rewrite Happ, Hem, Hsm.
    by rewrite (strategy1_applied _ _ _ _ H1), (strategy2_applied _ _ _ _ H2).
  - by rewrite Hem, Hsm.
  - intros c i Hno1 Hno2 Hc.
    assert (c ≠ "composite_key" ∧ c ≠ "Transaction_Reason_Text") as [Hc1 Hc2].
    { unfold transient_cols in Hc. set_solver. }
    rewrite (strategy2_off_mask _ _ _ _ c i H2) by (by rewrite <-Hsm).
    rewrite (strategy1_off _ _ _ _ c i H1); [by eapply convert_reason_cell_at| |done].
    intros m1 Hm Hi. apply Hno1. exists m1. by rewrite Hem.
  - by exists w.
Qed.

Lemma unmatched_mask_lookup df er em sm i :
  length er = index df →
  (∀ m1, em = Some m1 → length m1 = index df) →
  (∀ m2, sm = Some m2 → length m2 = index df) →
  unmatched_mask_of df er em sm !! i = Some true ↔
  er !! i = Some true
  ∧ (∀ m1, em = Some m1 → m1 !! i ≠ Some true)
  ∧ (∀ m2, sm = Some m2 → m2 !! i ≠ Some true).
Proof.
  intros Hlen Hl1 Hl2. unfold unmatched_mask_of. cbv zeta.
  set (a := default (replicate (index df) false) em).
  set (b := default (replicate (index df) false) sm).
  assert (length a = index df) as Ha.
  { unfold a. destruct em; simpl; [by apply Hl1 | apply length_replicate]. }
  assert (length b = index df) as Hb.
  { unfold b. destruct sm; simpl; [by apply Hl2 | apply length_replicate]. }
  assert ((∀ m1, em = Some m1 → m1 !! i ≠ Some true) ↔ a !! i ≠ Some true) as ->.
  { unfold a. destruct em as [m1|]; simpl.
    - split; [by intros H; apply H | by intros H ? [= <-]].
    - split; [|done]. intros _ [[=] _]%lookup_replicate. }
  assert ((∀ m2, sm = Some m2 → m2 !! i ≠ Some true) ↔ b !! i ≠ Some true) as ->.
  { unfold b. destruct sm as [m2|]; simpl.
    - split; [by intros H; apply H | by intros H ? [= <-]].
    - split; [|done]. intros _ [[=] _]%lookup_replicate. }
  rewrite lookup_mask_and, lookup_mask_not. simpl.
  unfold mask_or. rewrite lookup_zip_with.
  split.
  - intros [Her Hor]. split; [done|].
    destruct (a !! i) as [[]|], (b !! i) as [[]|]; simpl in Hor; try done.
  - intros (Her & Hna & Hnb). split; [done|].
    assert (i < index df) as Hi by (rewrite <-Hlen; by eapply lookup_lt_Some).
    destruct (lookup_lt_is_Some_2 a i) as [x Hx]; [lia|].
    destruct (lookup_lt_is_Some_2 b i) as [y Hy]; [lia|].
    rewrite Hx, Hy. simpl. rewrite Hx in Hna. rewrite Hy in Hnb.
    by destruct x, y.
Qed.

Lemma unmatched_mask_of_index df df' er em sm :
  index df = index df' →
  unmatched_mask_of df er em sm = unmatched_mask_of df' er em sm.
Proof. unfold unmatched_mask_of. by intros ->. Qed.

(** X6: the two numbers of the report "[mappings_applied]/[total_errors]
    errors mapped" and the count of the warning "Could not map
    [unmatched_count] error records" add up: every error row is counted
    once, as mapped or as unmatched. *)
Theorem report_counts_add_up
    (ack : DataFrame cell) (mapping : DataFrame string) (l : locals) :
  wf ack →
  apply_error_mapping_body ack mapping = Ok (Mapped l) →
  mask_sum (error_rows l)
  = mappings_applied l
    + mask_sum (unmatched_mask_of (result_df l) (error_rows l)
                  (error_mask l) (simple_match_mask l)).
Proof.
  intros Hwf Hbody.
  destruct (body_masks _ _ _ Hwf Hbody)
    as (df2 & Hwf2 & Hidx & Hres & Hlen & Hm1 & Hm2 & Happ & _).
  assert (index (result_df l) = index ack) as Hidx'
    by (by rewrite Hres, index_cleanup).
  unfold unmatched_mask_of. cbv zeta. rewrite Hidx'.
  set (a := default (replicate (index ack) false) (error_mask l)).
  set (b := default (replicate (index ack) false) (simple_match_mask l)).
  assert (mask_sum (default [] (error_mask l)) = mask_sum a) as Hsa.
  { unfold a. destruct (error_mask l); simpl; [done|].
    by rewrite mask_sum_replicate_false. }
  assert (mask_sum (default [] (simple_match_mask l)) = mask_sum b) as Hsb.
  { unfold b. destruct (simple_match_mask l); simpl; [done|].
    by rewrite mask_sum_replicate_false. }
  rewrite Happ, Hsa, Hsb. apply mask_sum_partition.
  - unfold a. destruct (error_mask l) as [m1|]; simpl.
    + destruct (Hm1 m1 eq_refl). lia.
    + rewrite length_replicate. lia.
  - unfold b. destruct (simple_match_mask l) as [m2|]; simpl.
    + destruct (Hm2 m2 eq_refl). lia.
    + rewrite length_replicate. lia.
  - unfold a. destruct (error_mask l) as [m1|]; simpl.
    + by destruct (Hm1 m1 eq_refl).
    + by intros i [[=] _]%lookup_replicate.
  - unfold a, b, tier1_matched in *.
    destruct (simple_match_mask l) as [m2|]; simpl.
    + destruct (Hm2 m2 eq_refl) as [_ Hsub]. intros i Hi.
      destruct (Hsub i Hi) as [Her Hno]. split; [done|].
      destruct (error_mask l) as [m1|]; simpl.
      * intros Hi1. apply Hno. by exists m1.
      * by intros [[=] _]%lookup_replicate.
    + by intros i [[=] _]%lookup_replicate.
Qed.

Lemma report_counts_add_up_witness :
  ∃ l, apply_error_mapping_body two_tier_ack two_tier_mapping = Ok (Mapped l)
       ∧ mask_sum (error_rows l)
         = mappings_applied l
           + mask_sum (unmatched_mask_of (result_df l) (error_rows l)
                         (error_mask l) (simple_match_mask l)).
Proof.
  eexists. split; [vm_compute; reflexivity|].
  apply (report_counts_add_up two_tier_ack two_tier_mapping).
  - repeat constructor.
  - vm_compute. reflexivity.
Defined.

Lemma body_unmatched ack mapping l :
  wf ack →
  apply_error_mapping_body ack mapping = Ok (Mapped l) →
  (∀ i c, unmatched_mask_of (result_df l) (error_rows l)
            (error_mask l) (simple_match_mask l) !! i = Some true →
          c ∉ transient_cols →
          cell_at (result_df l) c i = cell_at ack c i)
  ∧ NoDup (unmatched_errors l)
  ∧ (∀ v, v ∈ unmatched_errors l ↔
          ∃ i, unmatched_mask_of (result_df l) (error_rows l)
                 (error_mask l) (simple_match_mask l) !! i = Some true
               ∧ cell_at ack ERROR_TYPE_COL i = Some v).
Proof.
  intros Hwf Hbody.
  destruct (body_masks _ _ _ Hwf Hbody)
    as (df2 & Hwf2 & Hidx & Hres & Hlen & Hm1 & Hm2 & _ & Hun & Hcells & _).
  assert (index (result_df l) = index df2) as Hidx'
    by (by rewrite Hres, index_cleanup).
  rewrite (unmatched_mask_of_index _ _ _ _ _ Hidx').
  set (um := unmatched_mask_of df2 (error_rows l) (error_mask l) (simple_match_mask l))
    in *.
  assert (∀ i c, um !! i = Some true → c ∉ transient_cols →
                 cell_at df2 c i = cell_at ack c i) as Hkeep.
  { intros i c Hi Hc. unfold um in Hi.
    apply unmatched_mask_lookup in Hi as (_ & Hn1 & Hn2).
    - apply Hcells; [|done..]. intros (m1 & Hm & Hi1). by apply (Hn1 m1).
    - congruence.
    - intros m1 Hm. destruct (Hm1 m1 Hm). congruence.
    - intros m2 Hm. destruct (Hm2 m2 Hm). congruence. }
  split_and!.
  - intros i c Hi Hc. rewrite Hres, cell_at_cleanup by done. by apply Hkeep.
  - unfold unmatched_of in Hun. destruct (mask_any um); inv_result; rewrite <-Hun.
    + apply unique_spec.
    + constructor.
  - intros v. unfold unmatched_of in Hun.
    destruct (mask_any um) eqn:Hany; inv_result; rewrite <-Hun.
    + rewrite (proj2 (unique_spec _)). split.
      * intros (i & Hi & Hv)%elem_of_filter_mask. exists i. split; [done|].
        rewrite <-(Hkeep i ERROR_TYPE_COL Hi); [by rewrite (cell_at_get_col _ _ _ _ Hx)|].
        unfold transient_cols. set_solver.
      * intros (i & Hi & Hv). eapply elem_of_filter_mask_2; [done|].
        rewrite <-(cell_at_get_col _ _ _ i Hx), (Hkeep i ERROR_TYPE_COL Hi); [done|].
        unfold transient_cols. set_solver.
    + split; [by intros ?%elem_of_nil|]. intros (i & Hi & _).
      assert (mask_any um = true) as Ht by (apply mask_any_true; by exists i).
      congruence.
Qed.

(** X7: an error row that neither strategy matched leaves the engine as
    it came: outside the engine's own transient columns every one of its
    cells, [Error_Type] and [Client_Action] included, is the cell of the
    input. *)
Theorem unmatched_rows_pass_through
    (ack : DataFrame cell) (mapping : DataFrame string) (l : locals)
    (i : nat) (c : string) :
  wf ack →
  apply_error_mapping_body ack mapping = Ok (Mapped l) →
  unmatched_mask_of (result_df l) (error_rows l)
    (error_mask l) (simple_match_mask l) !! i = Some true →
  c ∉ transient_cols →
  cell_at (result_df l) c i = cell_at ack c i.
Proof.
  intros Hwf Hbody. by apply (body_unmatched _ _ _ Hwf Hbody).
Qed.

(** X8: the list [unmatched_errors] of the warning holds each value once,
    and holds exactly the [Error_Type] values that the input carries in
    the rows counted as unmatched. *)
Theorem unmatched_errors_are_the_unmatched_rows_types
    (ack : DataFrame cell) (mapping : DataFrame string) (l : locals) :
  wf ack →
  apply_error_mapping_body ack mapping = Ok (Mapped l) →
  NoDup (unmatched_errors l)
  ∧ ∀ v, v ∈ unmatched_errors l ↔
         ∃ i, unmatched_mask_of (result_df l) (error_rows l)
                (error_mask l) (simple_match_mask l) !! i = Some true
              ∧ cell_at ack ERROR_TYPE_COL i = Some v.
Proof.
  intros Hwf Hbody. by apply (body_unmatched _ _ _ Hwf Hbody).
Qed.

(** X9: a run reaches its last line only if the unmatched error types
    shown in the warning, the first ten, are strings: joining them is what
    raises on any other cell, a missing value for one. *)
Theorem shown_unmatched_types_are_strings
    (ack : DataFrame cell) (mapping : DataFrame string) (l : locals) (v : cell) :
  apply_error_mapping_body ack mapping = Ok (Mapped l) →
  v ∈ take 10 (unmatched_errors l) →
  ∃ s, v = VStr s.
Proof.
  intros Hbody Hv.
  destruct (body_mapped_report _ _ _ Hbody) as (_ & _ & _ & w & _ & _ & _ & _ & _ & Hw).
  unfold unmapped_warning in Hw.
  destruct (unmatched_errors l) as [|u ue] eqn:Hue; [by apply elem_of_nil in Hv|].
  apply bind_Ok in Hw as (shown & Hjoin & _). unfold join in Hjoin.
  apply bind_Ok in Hjoin as (strs & Hstrs & _).
  apply list_elem_of_lookup in Hv as [i Hi].
  pose proof (mapM_result_lookup _ _ _ i Hstrs) as Hlk.
  pose proof (mapM_result_length _ _ _ Hstrs) as Hlen.
  rewrite Hi in Hlk. simpl in Hlk.
  destruct v as [s| | |]; [by exists s|..];
    apply lookup_lt_Some in Hi; rewrite <-Hlen in Hi;
    apply lookup_lt_is_Some_2 in Hi as [? Hs]; congruence.
Qed.

Lemma unmatched_rows_pass_through_witness :
  ∃ l, apply_error_mapping_body unmatched_ack scenario_A_mapping = Ok (Mapped l)
       ∧ cell_at (result_df l) CLIENT_ACTION_COL 1
         = cell_at unmatched_ack CLIENT_ACTION_COL 1.
Proof.
  eexists. split; [vm_compute; reflexivity|].
  apply (unmatched_rows_pass_through unmatched_ack scenario_A_mapping).
  - repeat constructor.
  - vm_compute. reflexivity.
  - vm_compute. reflexivity.
  - unfold transient_cols. vm_compute. set_solver.
Defined.

Lemma unmatched_errors_are_the_unmatched_rows_types_witness :
  ∃ l, apply_error_mapping_body unmatched_ack scenario_A_mapping = Ok (Mapped l)
       ∧ NoDup (unmatched_errors l).
Proof.
  eexists. split; [vm_compute; reflexivity|].
  match goal with
  | |- NoDup (unmatched_errors ?l) =>
      refine (proj1 (unmatched_errors_are_the_unmatched_rows_types
                       unmatched_ack scenario_A_mapping l _ _))
  end.
  - repeat constructor.
  - vm_compute. reflexivity.
Defined.

Lemma shown_unmatched_types_are_strings_witness :
  ∃ l, apply_error_mapping_body unmatched_ack scenario_A_mapping = Ok (Mapped l)
       ∧ ∃ s, VStr "ERR9" = VStr s.
Proof.
  eexists. split; [vm_compute; reflexivity|].
  eapply (shown_unmatched_types_are_strings unmatched_ack scenario_A_mapping).
  - vm_compute. reflexivity.
  - vm_compute. left.
Defined.

Lemma fallback_rewrite_witness :
  ∃ l m2,
    apply_error_mapping_body two_tier_ack two_tier_mapping = Ok (Mapped l)
    ∧ simple_match_mask l = Some m2 ∧ m2 !! 1 = Some true
    ∧ ∃ sem sam k v,
        simple_error_mapping l = Some sem ∧ simple_action_mapping l = Some sam
        ∧ cell_at two_tier_ack ERROR_TYPE_COL 1 = Some (VStr k)
        ∧ sem !! k = Some v
        ∧ cell_at (result_df l) ERROR_TYPE_COL 1 = Some (VStr v)
        ∧ (CLIENT_ACTION_COL ∈ columns two_tier_ack →
           cell_at (result_df l) CLIENT_ACTION_COL 1
           = Some (VStr (default "" (sam !! v)))).
Proof.
  do 2 eexists. split; [vm_compute; reflexivity|].
  split; [vm_compute; reflexivity|]. split; [reflexivity|].
  eapply (fallback_rewrite two_tier_ack two_tier_mapping).
  - repeat constructor.
  - vm_compute. reflexivity.
  - vm_compute. reflexivity.
  - reflexivity.
Defined.

(** ** Record Transform Pipeline: what every output holds *)

Lemma handle_source_filename_get s df :
  assoc_get SOURCE_FILENAME_COL (data (handle_source_filename s df))
  = Some (replicate (index df) (VStr (desired_source_filename s))).
Proof.
  unfold handle_source_filename.
  destruct (has_col SOURCE_FILENAME_COL df) eqn:Hsf; simpl.
  - apply assoc_get_set_eq.
  - destruct (has_col ORIGINAL_CONTRACT_NUMBER_COL df); simpl.
    + apply has_col_false in Hsf. by apply assoc_get_insert_at_eq.
    + apply assoc_get_set_eq.
Qed.

Lemma cosign_reorder_get df df' c :
  cosign_reorder df = Ok df' → c ∈ columns df →
  assoc_get c (data df') = assoc_get c (data df).
Proof.
  unfold cosign_reorder. intros H Hin.
  destruct (has_col SOURCE_FILENAME_COL df) eqn:Hsf; simpl in H; [|by inv_result].
  destruct (has_col INCOMING_CLIENT_FILENAME_COL df); [|by inv_result].
  case_bool_decide; [|by inv_result].
  apply has_col_true in Hsf.
  destruct (get_loc_split _ _ Hsf) as (before & after & Hcols & _ & Hloc).
  unfold pop in H. rewrite Hloc, Hcols in H.
  rewrite list_lookup_middle in H by done. simpl in H.
  rewrite delete_middle in H.
  apply select_spec in H as (_ & _ & Hget). apply Hget.
  apply elem_of_insert_at. rewrite Hcols in Hin. set_solver.
Qed.


Lemma cosign_reorder_columns df df' c :
  cosign_reorder df = Ok df' → c ∈ columns df' ↔ c ∈ columns df.
Proof.
  unfold cosign_reorder. intros H.
  destruct (has_col SOURCE_FILENAME_COL df) eqn:Hsf; simpl in H; [|by inv_result].
  destruct (has_col INCOMING_CLIENT_FILENAME_COL df); [|by inv_result].
  case_bool_decide; [|by inv_result].
  apply has_col_true in Hsf.
  destruct (get_loc_split _ _ Hsf) as (before & after & Hcols & _ & Hloc).
  unfold pop in H. rewrite Hloc, Hcols in H.
  rewrite list_lookup_middle in H by done. simpl in H.
  rewrite delete_middle in H.
  apply select_spec in H as (_ & Hc & _).
  rewrite Hc, Hcols, elem_of_insert_at. set_solver.
Qed.

Lemma cosign_step_columns df df' c :
  cosign_step df = Ok df' → c ∈ columns df' ↔ c ∈ columns df.
Proof.
  unfold cosign_step. intros H.
  destruct (has_col AGENT_NUMBER_COL df); [|by inv_result].
  inv_result. case_bool_decide; [|by inv_result]. inv_result.
  apply cosign_clear_pii_spec in Hx1 as (Hi1 & Hc1 & Hg1). rewrite <-Hc1.
  by apply cosign_reorder_columns.
Qed.

Lemma apply_error_mapping_columns ack mapping c :
  c ∉ transient_cols →
  c ∈ columns (apply_error_mapping ack mapping) ↔ c ∈ columns ack.
Proof.
  intros Hc.
  destruct (apply_error_mapping_cases ack mapping) as [-> | (l & Hbody & ->)]; [done|].
  destruct (body_mapped_inv _ _ _ Hbody) as (df & (_ & Hcols & _) & ->).
  rewrite columns_cleanup, Hcols, list_elem_of_filter. tauto.
Qed.

Lemma handle_source_filename_columns s df c :
  c ∈ columns (handle_source_filename s df) ↔ c = SOURCE_FILENAME_COL ∨ c ∈ columns df.
Proof.
  destruct (decide (c = SOURCE_FILENAME_COL)) as [->|Hne].
  - split; [by left|]. intros _. apply assoc_get_is_Some.
    rewrite handle_source_filename_get. by eexists.
  - unfold columns. rewrite <-!assoc_get_is_Some.
    rewrite (proj2 (proj2 (handle_source_filename_spec s df))) by done.
    rewrite assoc_get_is_Some. naive_solver.
Qed.

Lemma handle_client_action_has df :
  CLIENT_ACTION_COL ∈ columns (handle_client_action df).
Proof.
  unfold handle_client_action.
  destruct (has_col CLIENT_ACTION_COL df) eqn:Hca; simpl; [by apply has_col_true|].
  apply has_col_false in Hca. apply assoc_get_is_Some.
  destruct (has_col ERROR_MESSAGE_COL df); simpl.
  - rewrite assoc_get_insert_at_eq by done. by eexists.
  - rewrite assoc_get_set_eq. by eexists.
Qed.

Lemma handle_client_action_keeps df c :
  c ∈ columns df → c ∈ columns (handle_client_action df).
Proof.
  intros Hin. destruct (decide (c = CLIENT_ACTION_COL)) as [->|Hne].
  - apply handle_client_action_has.
  - apply assoc_get_is_Some.
    rewrite (proj2 (proj2 (handle_client_action_spec df))) by done.
    by apply assoc_get_is_Some.
Qed.

(** The stages of a run that returns, from the COSIGN step on. *)
Lemma pipeline_tail df cfg out :
  process_csv_file df cfg = Ok out →
  ∃ df3 df5,
    cosign_step (handle_source_filename (global_source_filename cfg)
                   (drop_general df)) = Ok df3
    ∧ index df3 = index df
    ∧ index out = index df
    ∧ df5 = match error_mapping_df cfg with
            | Some mapping => apply_error_mapping (handle_client_action df3) mapping
            | None => handle_client_action df3
            end
    ∧ columns out = columns df5
    ∧ (∀ c, c ∉ transient_cols → c ∈ columns df5 ↔ c = CLIENT_ACTION_COL ∨ c ∈ columns df3)
    ∧ (∀ c, c ∈ columns df5 → c = CLIENT_ACTION_COL ∨ c ∈ columns df3)
    ∧ (∀ c, c ≠ CLIENT_ACTION_COL → c ≠ ERROR_TYPE_COL → c ∉ transient_cols →
            (remove_pii cfg = true → c ∉ pii_columns_customer) →
            assoc_get c (data out)
            = (λ s : list cell, replace_nan1 ∘ VStr ∘ str <$> s)
                <$> assoc_get c (data df3))
    ∧ (remove_pii cfg = true →
       ∀ c, c ∈ pii_columns_customer → c ∈ columns df5 →
            assoc_get c (data out) = Some (replicate (index df) (VStr ""))).
Proof.
  intros (df3 & df6 & Hv & H3 & H6 & ->)%process_csv_file_Ok.
  set (df4 := handle_client_action df3) in *.
  set (df5 := match error_mapping_df cfg with
              | Some mapping => apply_error_mapping df4 mapping
              | None => df4
              end) in *.
  exists df3, df5.
  destruct (drop_general_spec df) as (Hi1 & _ & _).
  destruct (handle_source_filename_spec (global_source_filename cfg) (drop_general df))
    as (Hi2 & _ & _).
  destruct (cosign_step_spec _ _ H3) as (Hi3 & _ & _).
  destruct (handle_client_action_spec df3) as (Hi4 & _ & Hg4).
  assert (index df5 = index df4
          ∧ (∀ c, c ∈ columns df5 → c ∈ columns df4)
          ∧ (∀ c, c ∉ transient_cols → c ∈ columns df5 ↔ c ∈ columns df4)
          ∧ ∀ c, c ∉ transient_cols → c ≠ ERROR_TYPE_COL → c ≠ CLIENT_ACTION_COL →
                 assoc_get c (data df5) = assoc_get c (data df4))
    as (Hi5 & Hsub5 & Hc5 & Hg5).
  { unfold df5. destruct (error_mapping_df cfg) as [mapping|]; [|done].
    destruct (apply_error_mapping_spec df4 mapping) as (? & _ & ? & ?).
    split_and!; [done..| |done]. intros c Hc. by apply apply_error_mapping_columns. }
  assert (index df6 = index df5 ∧ columns df6 = columns df5
          ∧ (∀ c, (remove_pii cfg = true → c ∉ pii_columns_customer) →
                  assoc_get c (data df6) = assoc_get c (data df5)))
    as (Hi6 & Hc6 & Hg6).
  { destruct (remove_pii cfg).
    - destruct (remove_customer_pii_spec _ _ H6) as (? & ? & Hg).
      split_and!; [done..|]. intros c Hc. apply Hg. by apply Hc.
    - by injection H6 as <-. }
  assert (index df3 = index df) as Hidx3 by congruence.
  assert (∀ c, assoc_get c (data (replace_nan (cast_all df6)))
               = (λ s : list cell, replace_nan1 ∘ VStr ∘ str <$> s)
                   <$> assoc_get c (data df6)) as Hout.
  { intros c. unfold replace_nan, cast_all.
    rewrite (proj2 (proj2 (map_cells_spec _ _))), (proj2 (proj2 (map_cells_spec _ _))).
    destruct (assoc_get c (data df6)); simpl; [|done].
    by rewrite <-list_fmap_compose. }
  split_and!; try done.
  - simpl. unfold df4 in *. congruence.
  - unfold replace_nan, cast_all.
    by rewrite (proj1 (proj2 (map_cells_spec _ _))), (proj1 (proj2 (map_cells_spec _ _))).
  - intros c Hc. rewrite (Hc5 c Hc). unfold df4. split.
    + intros [?|?]%handle_client_action_columns; auto.
    + intros [->|?]; [apply handle_client_action_has | by apply handle_client_action_keeps].
  - intros c Hin%Hsub5. by apply handle_client_action_columns.
  - intros c Hca Het Htr Hpii. rewrite Hout, Hg6, Hg5 by done.
    unfold df4. by rewrite Hg4.
  - intros Hpii c Hc Hin. rewrite Hout. rewrite Hpii in H6.
    unfold remove_customer_pii in H6.
    assert (c ∈ filter (λ col, col ∈ columns df5) pii_columns_customer) as Hcf
      by (by apply list_elem_of_filter).
    revert Hcf H6. generalize (filter (λ col, col ∈ columns df5) pii_columns_customer).
    assert (index df5 = index df) as Hidx5 by (unfold df4 in *; congruence).
    revert Hidx5. generalize df5. clear.
    intros d Hd cols. revert d Hd. induction cols as [|col cols IH]; intros d Hd Hc H.
    { by apply elem_of_nil in Hc. }
    simpl in H.
    destruct (astype_str_col col d) as [d1|e] eqn:H1; simpl in H;
      [|rewrite raise_foldl in H; done].
    apply astype_str_col_spec in H1 as (Hi1 & _ & _).
    destruct (decide (c ∈ cols)) as [Hin|Hnin].
    + apply (IH (set_scalar col (VStr "") d1)); [simpl; congruence | done..].
    + apply elem_of_cons in Hc as [->|?]; [|done].
      apply remove_customer_pii_fold in H as (_ & _ & Hg).
      rewrite Hg by done. unfold set_scalar. rewrite assoc_get_set_col_eq. simpl.
      rewrite fmap_replicate. simpl. by rewrite Hi1, Hd.
Qed.

(** X11: the transformation returns a frame exactly when the frame read
    from the upload has a row and a column with a non-empty label; none of
    the later steps can fail. *)
Theorem pipeline_returns_iff_input_valid (df : DataFrame cell) (cfg : config) :
  (∃ out, process_csv_file df cfg = Ok out)
  ↔ index df ≠ 0 ∧ ∃ c, c ∈ columns df ∧ c ≠ "".
Proof.
  rewrite <-validate_Ok. split.
  - intros [out Hout]. by apply process_csv_file_Ok in Hout as (? & ? & ? & _).
  - apply process_csv_file_total.
Qed.


(** A batch name that contains the letters "nan" comes out without
    them. *)
Lemma source_filename_with_nan_is_cut :
  ∃ out,
    process_csv_file scenario_C_df (mkConfig "finance" false None) = Ok out
    ∧ get_col SOURCE_FILENAME_COL out = Ok [VStr "fice.csv"; VStr "fice.csv"].
Proof. eexists. split; vm_compute; reflexivity. Qed.

(** X12: the labels of every output: [Source_Filename] and
    [Client_Action] are among them, none of the nine columns dropped at
    the start is, no label is new but those two, and every other label of
    the input is kept unless it is one of the two names the engine uses
    for its own temporary columns. *)
Theorem output_columns
    (df : DataFrame cell) (cfg : config) (out : DataFrame cell) :
  process_csv_file df cfg = Ok out →
  SOURCE_FILENAME_COL ∈ columns out
  ∧ CLIENT_ACTION_COL ∈ columns out
  ∧ (∀ c, c ∈ columns_to_drop_general → c ∉ columns out)
  ∧ (∀ c, c ∈ columns out →
          c = SOURCE_FILENAME_COL ∨ c = CLIENT_ACTION_COL ∨ c ∈ columns df)
  ∧ (∀ c, c ∈ columns df → c ∉ columns_to_drop_general → c ∉ transient_cols →
          c ∈ columns out).
Proof.
  intros (df3 & df5 & H3 & _ & _ & _ & Hcols & Hin & Hsub & _)%pipeline_tail.
  rewrite Hcols.
  assert (∀ c, c ∈ columns df3 ↔
               c = SOURCE_FILENAME_COL
               ∨ (c ∈ columns df ∧ c ∉ columns_to_drop_general)) as H3c.
  { intros c. rewrite (cosign_step_columns _ _ c H3), handle_source_filename_columns.
    by rewrite drop_general_columns. }
  assert (∀ c, c ∈ columns df5 →
               c = SOURCE_FILENAME_COL ∨ c = CLIENT_ACTION_COL
               ∨ (c ∈ columns df ∧ c ∉ columns_to_drop_general)) as Hfrom.
  { intros c [->|Hc]%Hsub; [by auto|]. apply H3c in Hc. tauto. }
  split_and!.
  - apply Hin; [unfold transient_cols; vm_compute; set_solver|].
    right. apply H3c. by left.
  - apply Hin; [unfold transient_cols; vm_compute; set_solver|]. by left.
  - intros c Hdrop Hc. destruct (Hfrom c Hc) as [->|[->|[_ Hn]]]; [..|done];
      revert Hdrop; vm_compute; set_solver.
  - intros c Hc. destruct (Hfrom c Hc) as [?|[?|[? _]]]; auto.
  - intros c Hc Hnd Hnt. apply Hin; [done|]. right. apply H3c. by right.
Qed.

Lemma output_columns_witness :
  ∃ out,
    process_csv_file customer_df (mkConfig "BATCH1" true None) = Ok out
    ∧ SOURCE_FILENAME_COL ∈ columns out
    ∧ CLIENT_ACTION_COL ∈ columns out
    ∧ (∀ c, c ∈ columns_to_drop_general → c ∉ columns out).
Proof.
  eexists. split; [vm_compute; reflexivity|].
  refine (let H := output_columns customer_df (mkConfig "BATCH1" true None) _ _
          in conj (proj1 H) (conj (proj1 (proj2 H)) (proj1 (proj2 (proj2 H))))).
  vm_compute. reflexivity.
Defined.

(** X13: with [remove_pii] set, each of the seven customer columns that
    the output has holds the empty string in every row. *)
Theorem customer_pii_is_blank
    (df : DataFrame cell) (cfg : config) (out : DataFrame cell)
    (c : string) (s : list cell) :
  remove_pii cfg = true →
  process_csv_file df cfg = Ok out →
  c ∈ pii_columns_customer →
  get_col c out = Ok s →
  s = replicate (index df) (VStr "").
Proof.
  intros Hpii (df3 & df5 & _ & _ & _ & _ & Hcols & _ & _ & _ & Hblank)%pipeline_tail
    Hc Hs.
  apply get_col_has_col in Hs as Hin. rewrite Hcols in Hin.
  apply get_col_Ok in Hs. rewrite (Hblank Hpii c Hc Hin) in Hs. by injection Hs as <-.
Qed.

Lemma customer_pii_is_blank_witness :
  ∃ out s,
    process_csv_file customer_df (mkConfig "BATCH1" true None) = Ok out
    ∧ get_col CUSTOMER_PHONE_COL out = Ok s
    ∧ s = replicate (index customer_df) (VStr "").
Proof.
  do 2 eexists. split; [vm_compute; reflexivity|].
  split; [vm_compute; reflexivity|].
  eapply (customer_pii_is_blank customer_df (mkConfig "BATCH1" true None) _
            CUSTOMER_PHONE_COL).
  - reflexivity.
  - vm_compute. reflexivity.
  - vm_compute. set_solver.
  - vm_compute. reflexivity.
Defined.

(** The loop over the property columns, row by row: where the mask holds
    the cell becomes the empty string, elsewhere it becomes its text. *)
Lemma cosign_clear_fold cols mask df df' :
  foldl (λ acc col,
           df ← acc;
           if has_col col df then
             df ← astype_str_col col df;
             loc_set mask col (replicate (index df) (VStr "")) df
           else Ok df)
        (Ok df) cols = Ok df' →
  wf df → NoDup cols →
  wf df'
  ∧ (∀ c, c ∉ cols → assoc_get c (data df') = assoc_get c (data df))
  ∧ (∀ c i, c ∈ cols → c ∈ columns df → i < index df →
            cell_at df' c i
            = if decide (mask !! i = Some true) then Some (VStr "")
              else VStr ∘ str <$> cell_at df c i).
Proof.
  revert df. induction cols as [|col cols IH]; intros df H Hwf Hnd; simpl in H.
  - injection H as <-. split_and!; [done..|]. by intros c i ?%elem_of_nil.
  - apply NoDup_cons in Hnd as [Hncol Hnd].
    destruct (has_col col df) eqn:Hcol.
    + destruct (astype_str_col col df) as [df1|e] eqn:H1; simpl in H;
        [|rewrite raise_foldl in H; done].
      destruct (loc_set mask col (replicate (index df1) (VStr "")) df1)
        as [df2|e] eqn:H2; [|rewrite raise_foldl in H; done].
      pose proof (wf_astype_str_col _ _ _ Hwf H1) as Hwf1.
      pose proof (wf_loc_set _ _ _ _ _ Hwf1 H2) as Hwf2.
      destruct (IH _ H Hwf2 Hnd) as (Hwf' & Hg & Hon).
      apply astype_str_col_spec in H1 as H1'. destruct H1' as (Hi1 & Hc1 & Hg1).
      apply loc_set_spec in H2 as H2'. destruct H2' as (Hi2 & Hc2 & Hg2).
      split_and!; [done| |].
      * intros c Hnin. apply not_elem_of_cons in Hnin as [Hne Hnin].
        rewrite Hg, Hg2, Hg1; done.
      * intros c i Hc Hin Hi. apply elem_of_cons in Hc as [->|Hc].
        -- unfold cell_at at 1. rewrite Hg by done. fold (cell_at df2 col i).
           unfold astype_str_col in H1. apply bind_Ok in H1 as (s & Hs & H1).
           injection H1 as <-.
           assert (cell_at (set_col col (VStr ∘ str <$> s) df) col i
                   = VStr ∘ str <$> cell_at df col i) as Hcast.
           { rewrite cell_at_set_col_eq, list_lookup_fmap.
             by rewrite (cell_at_get_col _ _ _ _ Hs). }
           destruct (decide (mask !! i = Some true)) as [Hm|Hm].
           ++ eapply loc_set_on; [done | done | |].
              ** rewrite Hcast. apply fmap_is_Some. by apply wf_cell_at.
              ** apply lookup_replicate_2. simpl. lia.
           ++ by rewrite (loc_set_off _ _ _ _ _ col i H2 Hm).
        -- assert (c ≠ col) as Hne by congruence.
           rewrite Hon; [|done | by rewrite Hc2, Hc1 | lia].
           case_decide; [done|]. unfold cell_at. by rewrite Hg2, Hg1.
    + destruct (IH _ H Hwf Hnd) as (Hwf' & Hg & Hon). split_and!; [done| |].
      * intros c Hnin. apply not_elem_of_cons in Hnin as [Hne Hnin]. by apply Hg.
      * intros c i Hc Hin Hi. apply elem_of_cons in Hc as [->|Hc]; [|by apply Hon].
        apply has_col_false in Hcol. done.
Qed.

Lemma str_VStr_str (v : cell) : str (VStr (str v)) = str v.
Proof. done. Qed.

(** The COSIGN step, row by row, on a property column. *)
Lemma cosign_step_cells df df' agent c i :
  cosign_step df = Ok df' → wf df →
  get_col AGENT_NUMBER_COL df = Ok agent →
  c ∈ COSIGN_PII_COLUMNS → c ∈ columns df → i < index df →
  VStr ∘ str <$> cell_at df' c i
  = if decide (PyStr.upper ∘ str <$> agent !! i = Some "COSIGN")
    then Some (VStr "") else VStr ∘ str <$> cell_at df c i.
Proof.
  unfold cosign_step. intros H Hwf Hagent Hc Hin Hi.
  rewrite (proj2 (has_col_true _ _) (get_col_has_col _ _ _ Hagent)), Hagent in H.
  simpl in H.
  assert (c ≠ SOURCE_FILENAME_COL) as Hsf.
  { intros ->. revert Hc. vm_compute. set_solver. }
  case_bool_decide as Hany.
  - apply bind_Ok in H as (df1 & H1 & H2).
    unfold cosign_clear_pii in H1.
    destruct (cosign_clear_fold _ _ _ _ H1 Hwf) as (_ & _ & Hon).
    { unfold COSIGN_PII_COLUMNS. vm_compute.
      repeat (constructor; [set_solver|]). constructor. }
    pose proof (cosign_clear_pii_spec _ _ _ H1) as (_ & Hc1 & _).
    unfold cell_at at 1. rewrite (cosign_reorder_get _ _ c H2) by (by rewrite Hc1).
    fold (cell_at df1 c i). rewrite (Hon c i Hc Hin Hi).
    assert (upper_eq "COSIGN" agent !! i = Some true
            ↔ PyStr.upper ∘ str <$> agent !! i = Some "COSIGN") as Hiff.
    { rewrite upper_eq_lookup. destruct (agent !! i) as [a|]; simpl.
      - split; [by intros (v & [= <-] & ->) | intros [= Ha]; by exists a].
      - split; [by intros (v & [=] & _) | done]. }
    destruct (decide (upper_eq "COSIGN" agent !! i = Some true)) as [Hm|Hm].
    + rewrite decide_True by (by apply Hiff). done.
    + rewrite decide_False by (by rewrite <-Hiff).
      destruct (cell_at df c i); simpl; done.
  - injection H as <-. rewrite decide_False; [done|].
    intros Ha. apply Hany. apply unique_spec.
    destruct (agent !! i) as [a|] eqn:Hai; [|done]. simpl in Ha. injection Ha as Ha.
    apply list_elem_of_fmap. exists a. split; [done|]. by eapply list_elem_of_lookup_2.
Qed.

(** X14: the four property columns in the output of a file that has an
    [Agent_Number] column: in the rows whose agent number reads COSIGN in
    upper case the cell is the empty string, whatever the other options
    are; in every other row it is the text of the input cell after the
    final replacement. *)
Theorem property_fields_cleared_for_cosign_rows
    (df : DataFrame cell) (cfg : config) (out : DataFrame cell)
    (agent : list cell) (c : string) (i : nat) :
  wf df →
  process_csv_file df cfg = Ok out →
  get_col AGENT_NUMBER_COL df = Ok agent →
  c ∈ COSIGN_PII_COLUMNS → c ∈ columns df → i < index df →
  cell_at out c i
  = if decide (PyStr.upper ∘ str <$> agent !! i = Some "COSIGN")
    then Some (VStr "")
    else replace_nan1 ∘ VStr ∘ str <$> cell_at df c i.
Proof.
  intros Hwf (df3 & df5 & H3 & _ & _ & _ & _ & _ & _ & Hget & _)%pipeline_tail
    Hagent Hc Hin Hi.
  assert (c ≠ CLIENT_ACTION_COL ∧ c ≠ ERROR_TYPE_COL ∧ c ≠ SOURCE_FILENAME_COL
          ∧ (c ∉ transient_cols) ∧ (c ∉ pii_columns_customer)
          ∧ (c ∉ columns_to_drop_general)) as (Hn1 & Hn2 & Hn3 & Hn4 & Hn5 & Hn6).
  { unfold COSIGN_PII_COLUMNS in Hc.
    repeat (apply elem_of_cons in Hc as [->|Hc]); [..|by apply elem_of_nil in Hc];
      split_and!; vm_compute; set_solver. }
  set (df2 := handle_source_filename (global_source_filename cfg) (drop_general df))
    in *.
  assert (∀ c', c' ≠ SOURCE_FILENAME_COL → c' ∉ columns_to_drop_general →
                assoc_get c' (data df2) = assoc_get c' (data df)) as Hget2.
  { intros c' Hsf Hd. unfold df2.
    rewrite (proj2 (proj2 (handle_source_filename_spec _ _))) by done.
    by apply drop_general_spec. }
  assert (wf df2) as Hwf2 by (by apply wf_handle_source_filename, wf_drop_general).
  assert (index df2 = index df) as Hi2.
  { unfold df2. rewrite (proj1 (handle_source_filename_spec _ _)).
    apply drop_general_spec. }
  assert (get_col AGENT_NUMBER_COL df2 = Ok agent) as Hagent2.
  { apply get_col_Ok. rewrite Hget2; [by apply get_col_Ok | done|].
    vm_compute. set_solver. }
  assert (c ∈ columns df2) as Hin2.
  { apply assoc_get_is_Some. rewrite Hget2 by done. by apply assoc_get_is_Some. }
  pose proof (cosign_step_cells _ _ _ c i H3 Hwf2 Hagent2 Hc Hin2) as Hcells.
  rewrite Hi2 in Hcells. specialize (Hcells Hi).
  unfold cell_at at 1. rewrite Hget by done.
  assert (cell_at df2 c i = cell_at df c i) as Hsame
    by (unfold cell_at; by rewrite Hget2).
  rewrite Hsame in Hcells.
  transitivity (replace_nan1 <$> (VStr ∘ str <$> cell_at df3 c i)).
  { unfold cell_at. destruct (assoc_get c (data df3)) as [s|]; simpl; [|done].
    rewrite list_lookup_fmap. by destruct (s !! i). }
  rewrite Hcells. case_decide; [done|].
  by destruct (cell_at df c i).
Qed.

Lemma property_fields_cleared_for_cosign_rows_witness :
  ∃ out,
    process_csv_file cosign_df (mkConfig "BATCH1" false None) = Ok out
    ∧ cell_at out PROPERTY_ADDRESS_COL 0 = Some (VStr "")
    ∧ cell_at out PROPERTY_ADDRESS_COL 1 = Some (VStr "9 Elm").
Proof.
  eexists. split; [vm_compute; reflexivity|]. split.
  - refine (property_fields_cleared_for_cosign_rows cosign_df
              (mkConfig "BATCH1" false None) _ [VStr "COSIGN"; VStr "OTHER"]
              PROPERTY_ADDRESS_COL 0 _ _ _ _ _ _).
    + repeat constructor.
    + vm_compute. reflexivity.
    + vm_compute. reflexivity.
    + vm_compute. set_solver.
    + vm_compute. set_solver.
    + vm_compute. lia.
  - vm_compute. reflexivity.
Defined.

(** ** Output file name *)

Lemma elem_of_unique {B : Type} `{EqDecision B} (l : list B) (x : B) :
  x ∈ unique l ↔ x ∈ l.
Proof. apply unique_spec. Qed.

Lemma mapM_result_elem_of {A B : Type} (f : A → result B) (l : list A) (l' : list B) :
  mapM f l = Ok l' → ∀ y, y ∈ l' ↔ ∃ x, x ∈ l ∧ f x = Ok y.
Proof.
  revert l'. induction l as [|x l IH]; intros l' H y; simpl in H.
  - injection H as <-. split; [by intros ?%elem_of_nil|].
    by intros (x & ?%elem_of_nil & _).
  - inv_result. unfold mret, result_ret in H. injection H as <-.
    rewrite elem_of_cons, (IH _ Hx0). split.
    + intros [->|(z & Hz & Hfz)]; [exists x; split; [left|done]|].
      exists z. split; [by right|done].
    + intros (z & [->|Hz]%elem_of_cons & Hfz); [left; congruence|].
      right. by exists z.
Qed.

Lemma mapM_result_Ok_iff {A B : Type} (f : A → result B) (l : list A) :
  (∃ l', mapM f l = Ok l') ↔ ∀ x, x ∈ l → ∃ y, f x = Ok y.
Proof.
  split; [|apply mapM_result_total].
  intros [l' H]. revert l' H. induction l as [|x l IH]; intros l' H z Hz.
  - by apply elem_of_nil in Hz.
  - simpl in H. inv_result. apply elem_of_cons in Hz as [->|Hz]; [by eexists|].
    by eapply IH.
Qed.

Lemma concat_nonempty (sep : string) (l : list string) :
  String.concat sep l ≠ "" → l ≠ [].
Proof. by intros H ->. Qed.

(** X15: building the file name fails exactly when the file has a
    [Transaction_Reason] column, not all missing, with a non-blank value
    that the Reason Code Translator fails on; in every other case a name
    is returned. *)
Theorem generate_filename_returns_iff
    (df : DataFrame cell) (output_year output_month uploaded_file_name : string) :
  (∃ name, generate_filename df output_year output_month uploaded_file_name = Ok name)
  ↔ ∀ reason v,
      get_col TRANSACTION_REASON_COL df = Ok reason → dropna reason ≠ [] →
      v ∈ reason → PyStr.strip (str v) ≠ "" →
      ∃ t, get_transaction_reason_text v = Ok t.
Proof.
  unfold generate_filename.
  set (A := if has_col AGENT_NUMBER_COL df then _ else _).
  assert (∃ a, A = Ok a) as [a ->].
  { unfold A. destruct (has_col AGENT_NUMBER_COL df) eqn:Hc; [|by eexists].
    apply has_col_true in Hc. destruct (has_col_get_col _ _ Hc) as [agent ->]. simpl.
    case_bool_decide; by eexists. }
  simpl. split.
  - intros [name H] reason v Hreason Hdrop Hv Hstrip.
    rewrite (proj2 (has_col_true _ _) (get_col_has_col _ _ _ Hreason)), Hreason in H.
    simpl in H. rewrite bool_decide_eq_true_2 in H by done.
    destruct (mapM get_transaction_reason_text
                (filter (λ reason, PyStr.strip (str reason) ≠ "") (unique reason)))
      as [trs|e] eqn:Hm; [|done].
    eapply (proj1 (mapM_result_Ok_iff _ _)); [by eexists|].
    apply list_elem_of_filter. split; [done|]. by apply elem_of_unique.
  - intros Hall. destruct (has_col TRANSACTION_REASON_COL df) eqn:Hc.
    + apply has_col_true in Hc. destruct (has_col_get_col _ _ Hc) as [reason Hreason].
      rewrite Hreason. simpl. case_bool_decide as Hdrop.
      * destruct (mapM_result_total get_transaction_reason_text
                    (filter (λ reason, PyStr.strip (str reason) ≠ "") (unique reason)))
          as [trs ->].
        { intros v [Hstrip Hv%(proj1 (elem_of_unique _ _))]%list_elem_of_filter. by eapply Hall. }
        simpl. destruct a; [case_match|]; by eexists.
      * simpl. destruct a; by eexists.
    + simpl. destruct a; by eexists.
Qed.

(** X16: a name that is not built from the uploaded file's name has the
    form [Ack_<agents>_<year>_<month>_<labels>.csv], where the agents are
    the non-blank stripped agent numbers of the file, and the labels are
    the texts the Reason Code Translator gives for the non-blank reasons
    of the file, each label once. *)
Theorem generate_filename_parts
    (df : DataFrame cell) (output_year output_month uploaded_file_name name : string) :
  generate_filename df output_year output_month uploaded_file_name = Ok name →
  name = "Ack_processed_" +:+ output_year +:+ "_" +:+ output_month +:+ "_"
         +:+ uploaded_file_name
  ∨ ∃ agent reason agents labels,
      get_col AGENT_NUMBER_COL df = Ok agent
      ∧ get_col TRANSACTION_REASON_COL df = Ok reason
      ∧ name = "Ack_" +:+ String.concat "_" agents +:+ "_" +:+ output_year +:+ "_"
               +:+ output_month +:+ "_" +:+ String.concat "_" labels +:+ ".csv"
      ∧ agents ≠ [] ∧ labels ≠ []
      ∧ (∀ a, a ∈ agents ↔ a ≠ "" ∧ ∃ v, v ∈ agent ∧ a = PyStr.strip (str v))
      ∧ NoDup labels
      ∧ (∀ t, t ∈ labels ↔
              ∃ v, v ∈ reason ∧ PyStr.strip (str v) ≠ ""
                   ∧ get_transaction_reason_text v = Ok t).
Proof.
  unfold generate_filename. intros H.
  apply bind_Ok in H as (a & Ha & H). apply bind_Ok in H as (t & Ht & H).
  cbv zeta in H.
  destruct a as [a|]; [|injection H as <-; by left].
  destruct t as [t|]; [|injection H as <-; by left].
  destruct (bool_decide (a ≠ "")) eqn:Hane; simpl in H; [|injection H as <-; by left].
  destruct (bool_decide (t ≠ "")) eqn:Htne; simpl in H; [|injection H as <-; by left].
  apply bool_decide_eq_true in Hane, Htne. injection H as <-. right.
  destruct (has_col AGENT_NUMBER_COL df); [|done].
  apply bind_Ok in Ha as (agent & Hagent & Ha).
  case_bool_decide; [|done]. injection Ha as <-.
  destruct (has_col TRANSACTION_REASON_COL df); [|done].
  apply bind_Ok in Ht as (reason & Hreason & Ht).
  case_bool_decide; [|done]. cbv zeta in Ht.
  apply bind_Ok in Ht as (trs & Htrs & Ht). injection Ht as <-.
  exists agent, reason, (filter (λ s, s ≠ "") (PyStr.strip ∘ str <$> unique agent)),
    (unique trs).
  split_and!; try done.
  - by apply concat_nonempty in Hane.
  - by apply concat_nonempty in Htne.
  - intros x. rewrite list_elem_of_filter, list_elem_of_fmap. split.
    + intros [Hne (v & -> & Hv)]. split; [done|]. exists v. split; [|done].
      by apply elem_of_unique.
    + intros [Hne (v & Hv & ->)]. split; [done|]. exists v. split; [done|].
      by apply elem_of_unique.
  - apply unique_spec.
  - intros x. rewrite elem_of_unique, (mapM_result_elem_of _ _ _ Htrs).
    split.
    + intros (v & [Hs Hv%(proj1 (elem_of_unique _ _))]%list_elem_of_filter & Hx). by exists v.
    + intros (v & Hv & Hs & Hx). exists v. split; [|done].
      apply list_elem_of_filter. split; [done|]. by apply elem_of_unique.
Qed.

Lemma generate_filename_parts_witness :
  ∃ name,
    generate_filename named_df "2025" "06" "up.csv" = Ok name
    ∧ name = "Ack_A1_A1_A2_2025_06_Sales_Payments.csv"
    ∧ (name = "Ack_processed_" +:+ "2025" +:+ "_" +:+ "06" +:+ "_" +:+ "up.csv"
       ∨ ∃ agent reason agents labels,
           get_col AGENT_NUMBER_COL named_df = Ok agent
           ∧ get_col TRANSACTION_REASON_COL named_df = Ok reason
           ∧ name = "Ack_" +:+ String.concat "_" agents +:+ "_" +:+ "2025" +:+ "_"
                    +:+ "06" +:+ "_" +:+ String.concat "_" labels +:+ ".csv"
           ∧ agents ≠ [] ∧ labels ≠ []
           ∧ (∀ a, a ∈ agents ↔ a ≠ "" ∧ ∃ v, v ∈ agent ∧ a = PyStr.strip (str v))
           ∧ NoDup labels
           ∧ (∀ t, t ∈ labels ↔
                   ∃ v, v ∈ reason ∧ PyStr.strip (str v) ≠ ""
                        ∧ get_transaction_reason_text v = Ok t)).
Proof.
  eexists. split; [vm_compute; reflexivity|]. split; [reflexivity|].
  apply (generate_filename_parts named_df "2025" "06" "up.csv").
  vm_compute. reflexivity.
Defined.

(** ** Email log *)

Lemma assoc_get_keyed {B : Type} (G : string → list B) (keys : list string) key :
  key ∈ keys →
  assoc_get key ((λ k, (k, G k)) <$> keys) = Some (G key).
Proof.
  induction keys as [|k keys IH]; [by intros ?%elem_of_nil|].
  intros Hin. simpl. case_decide as Hk; [by subst|].
  apply IH. apply elem_of_cons in Hin as [?|?]; done.
Qed.

Lemma concat_get (a b : DataFrame cell) c :
  assoc_get c (data (concat a b))
  = (λ old, old ++ default (replicate (index b) VNaN) (assoc_get c (data b)))
      <$> assoc_get c (data a).
Proof.
  unfold concat. simpl. induction (data a) as [|[c' s'] l IH]; [done|].
  simpl. case_decide; [by subst|done].
Qed.

Lemma concat_columns (a b : DataFrame cell) : columns (concat a b) = columns a.
Proof.
  unfold columns, concat. simpl. rewrite <-list_fmap_compose.
  by apply list_fmap_ext.
Qed.

(** The frame of the new entries, for a list of agents that is not empty:
    one row per agent, the five columns in the order of the log. *)
Lemma new_log_data_spec (agents : list cell) sent recipients subject date :
  agents ≠ [] →
  ∃ new,
    select column_order
      (frame_of_records (log_entry recipients subject date sent <$> agents)) = Ok new
    ∧ index new = length agents
    ∧ columns new = column_order
    ∧ get_col "Agent" new = Ok agents
    ∧ get_col "Email_Status" new
      = Ok (replicate (length agents) (VStr (if sent then "Sent" else "Failed")))
    ∧ (∀ c, c ∈ column_order →
            ∃ s, get_col c new = Ok s ∧ length s = length agents).
Proof.
  intros Hne. destruct agents as [|a agents]; [done|]. clear Hne.
  set (records := log_entry recipients subject date sent <$> a :: agents).
  set (F := λ (key : string) (r : list (string * cell)),
              default VNaN ((λ p, p.2.2) <$> list_find (λ p, p.1 = key) r)).
  assert (∀ c, c ∈ column_order →
               assoc_get c (data (frame_of_records records)) = Some (F c <$> records))
    as Hget.
  { intros c Hc. unfold records. rewrite fmap_cons. unfold frame_of_records.
    cbn [data]. apply (assoc_get_keyed (λ key, F key <$> _)). exact Hc. }
  destruct (select_total column_order (frame_of_records records)) as [new Hnew].
  { intros c Hc. apply assoc_get_is_Some. rewrite (Hget c Hc). by eexists. }
  exists new. split; [done|].
  apply select_spec in Hnew as (Hidx & Hcols & Hsel).
  assert (length records = length (a :: agents)) as Hlen
    by (unfold records; by rewrite length_fmap).
  split_and!.
  - by rewrite Hidx.
  - done.
  - apply get_col_Ok. rewrite Hsel, Hget by (vm_compute; set_solver). f_equal.
    unfold records. rewrite <-list_fmap_compose.
    transitivity (id <$> a :: agents); [|apply list_fmap_id].
    by apply list_fmap_ext.
  - apply get_col_Ok. rewrite Hsel, Hget by (vm_compute; set_solver). f_equal.
    unfold records. rewrite <-list_fmap_compose.
    by apply const_fmap.
  - intros c Hc. exists (F c <$> records). split.
    + apply get_col_Ok. by rewrite Hsel, Hget.
    + by rewrite length_fmap.
Qed.

(** X17: with a log of the expected columns, a call with at least one
    agent returns [True] and writes the earlier rows followed by one row
    per agent, the columns in the fixed order: [Agent] gains the agents
    in their order and [Email_Status] gains "Sent" or "Failed" for each. *)
Theorem log_appends_one_row_per_agent
    (agent_numbers : list cell) (email_sent : bool) (recipients : option (list string))
    (subject current_date : string) (existing_log : DataFrame cell) :
  agent_numbers ≠ [] →
  list_to_set (columns existing_log) =@{gset string} list_to_set column_order →
  ∃ combined_log,
    log_email_activity agent_numbers email_sent recipients subject current_date
      (ReadOk existing_log) true = (Some combined_log, true)
    ∧ columns combined_log = column_order
    ∧ index combined_log = index existing_log + length agent_numbers
    ∧ (∀ old, get_col "Agent" existing_log = Ok old →
              get_col "Agent" combined_log = Ok (old ++ agent_numbers))
    ∧ (∀ old, get_col "Email_Status" existing_log = Ok old →
              get_col "Email_Status" combined_log
              = Ok (old ++ replicate (length agent_numbers)
                             (VStr (if email_sent then "Sent" else "Failed"))))
    ∧ (∀ c old, c ∈ column_order → get_col c existing_log = Ok old →
                ∃ new, get_col c combined_log = Ok (old ++ new)
                       ∧ length new = length agent_numbers).
Proof.
  intros Hne Hset.
  destruct (new_log_data_spec agent_numbers email_sent recipients subject current_date Hne)
    as (new & Hnew & Hidx & Hcols & Hagent & Hstatus & Hall).
  destruct (select_total column_order existing_log) as [old_log Hold].
  { intros c Hc. apply (elem_of_list_to_set (C:=gset string)). rewrite Hset.
    by apply elem_of_list_to_set. }
  exists (concat old_log new). unfold log_email_activity. cbv zeta.
  rewrite Hnew. simpl. rewrite bool_decide_eq_false_2 by (by intros H; apply H).
  rewrite Hold. simpl.
  apply select_spec in Hold as (Hoidx & Hocols & Hosel).
  assert (∀ c old s, c ∈ column_order → get_col c existing_log = Ok old →
                     get_col c new = Ok s →
                     get_col c (concat old_log new) = Ok (old ++ s)) as Hcat.
  { intros c old s Hc Ho%get_col_Ok Hs%get_col_Ok. apply get_col_Ok.
    by rewrite concat_get, Hosel, Ho, Hs. }
  split_and!.
  - done.
  - by rewrite concat_columns.
  - simpl. by rewrite Hoidx, Hidx.
  - intros old Ho. apply Hcat; [vm_compute; set_solver | done..].
  - intros old Ho. apply Hcat; [vm_compute; set_solver | done..].
  - intros c old Hc Ho. destruct (Hall c Hc) as (s & Hs & Hlen).
    exists s. split; [by apply Hcat | done].
Qed.

Lemma log_appends_one_row_per_agent_witness :
  ∃ combined_log,
    log_email_activity [VStr "A1"; VStr "A2"] true (Some ["a@example.com"]) "June"
      "2025-06-01 09:00:00" (ReadOk one_entry_log) true = (Some combined_log, true)
    ∧ columns combined_log = column_order
    ∧ index combined_log = 3
    ∧ get_col "Agent" combined_log = Ok [VStr "A0"; VStr "A1"; VStr "A2"].
Proof.
  eexists. split; [vm_compute; reflexivity|].
  destruct (log_appends_one_row_per_agent [VStr "A1"; VStr "A2"] true
              (Some ["a@example.com"]) "June" "2025-06-01 09:00:00" one_entry_log)
    as (combined & Hrun & Hcols & Hidx & Hagent & _).
  - done.
  - apply set_eq. intros c. rewrite !elem_of_list_to_set. vm_compute. set_solver.
  - vm_compute in Hrun. injection Hrun as <-.
    split_and!; [exact Hcols | exact Hidx | exact (Hagent _ eq_refl)].
Defined.

(** X18: a log whose set of column labels is not that of the five log
    columns is not carried over: what is written holds the new rows only,
    one per agent, as when there is no log file. *)
Theorem log_with_other_columns_is_replaced
    (agent_numbers : list cell) (email_sent : bool) (recipients : option (list string))
    (subject current_date : string) (existing_log : DataFrame cell) :
  agent_numbers ≠ [] →
  list_to_set (columns existing_log) ≠@{gset string} list_to_set column_order →
  ∃ new_log_data,
    log_email_activity agent_numbers email_sent recipients subject current_date
      (ReadOk existing_log) true = (Some new_log_data, true)
    ∧ log_email_activity agent_numbers email_sent recipients subject current_date
        FileNotFound true = (Some new_log_data, true)
    ∧ index new_log_data = length agent_numbers
    ∧ columns new_log_data = column_order
    ∧ get_col "Agent" new_log_data = Ok agent_numbers.
Proof.
  intros Hne Hset.
  destruct (new_log_data_spec agent_numbers email_sent recipients subject current_date Hne)
    as (new & Hnew & Hidx & Hcols & Hagent & _).
  exists new. unfold log_email_activity. cbv zeta. rewrite Hnew. simpl.
  by rewrite bool_decide_eq_true_2.
Qed.

Lemma log_with_other_columns_is_replaced_witness :
  ∃ new_log_data,
    log_email_activity [VStr "A1"] false None "June" "2025-06-01 09:00:00"
      (ReadOk scenario_C_df) true = (Some new_log_data, true)
    ∧ index new_log_data = 1
    ∧ get_col "Agent" new_log_data = Ok [VStr "A1"].
Proof.
  eexists. split; [vm_compute; reflexivity|].
  destruct (log_with_other_columns_is_replaced [VStr "A1"] false None "June"
              "2025-06-01 09:00:00" scenario_C_df)
    as (new & Hrun & _ & Hidx & _ & Hagent).
  - done.
  - intros Heq.
    assert ("Agent" ∈@{gset string} list_to_set (columns scenario_C_df)) as Hin.
    { rewrite Heq. apply elem_of_list_to_set. vm_compute. set_solver. }
    apply elem_of_list_to_set in Hin. vm_compute in Hin. set_solver.
  - vm_compute in Hrun. injection Hrun as <-. split; [exact Hidx | exact Hagent].
Defined.

(** X19: the function returns [False] exactly when the list of agents is
    empty, reading the log raised something other than
    [FileNotFoundError], or writing failed; it then reports no frame as
    written, and in every other case it reports one. *)
Theorem log_fails_iff
    (agent_numbers : list cell) (email_sent : bool) (recipients : option (list string))
    (subject current_date : string) (existing : read_outcome) (write_ok : bool) :
  ((log_email_activity agent_numbers email_sent recipients subject current_date
      existing write_ok).2 = false
   ↔ agent_numbers = [] ∨ existing = ReadRaises ∨ write_ok = false)
  ∧ ((log_email_activity agent_numbers email_sent recipients subject current_date
        existing write_ok).1 = None
     ↔ (log_email_activity agent_numbers email_sent recipients subject current_date
          existing write_ok).2 = false).
Proof.
  destruct agent_numbers as [|a agents].
  { split; [|by destruct existing, write_ok]. split; [by left | done]. }
  destruct (new_log_data_spec (a :: agents) email_sent recipients subject current_date)
    as (new & Hnew & _); [done|].
  unfold log_email_activity. cbv zeta. rewrite Hnew. simpl.
  destruct existing as [| |existing_log].
  - destruct write_ok; simpl; split; try done; naive_solver.
  - simpl. split; [|done]. split; [by right; left | done].
  - case_bool_decide as Hset.
    + destruct write_ok; simpl; split; try done; naive_solver.
    + destruct (select_total column_order existing_log) as [old_log ->].
      { intros c Hc. apply (elem_of_list_to_set (C:=gset string)). rewrite Hset.
        apply (elem_of_list_to_set (C:=gset string)) in Hc. exact Hc. }
      destruct write_ok; simpl; split; try done; naive_solver.
Qed.

(** ** Record Transform Pipeline: [Source_Filename] from end to end *)







